(** * Mozi: cron executor, outbound delivery and the cron tool facade

    A shallow embedding of
      - [src/outbound/index.ts]   (delivery service),
      - [src/cron/executor.ts]    (cron job executor),
      - [src/tools/builtin/cron.ts] (the [cron_add] and [cron_update] tools),
    with the properties the specification states about them.

    Asynchronous functions are modelled as computations over an explicit
    world: external collaborators (channel adapters, the agent callback,
    the abort signal) read and change the world, may return or throw, and
    every call made to them is recorded in the list of emitted events.
    One execution is followed from its start to its end; what other tasks
    do while a call is awaited is part of that call's effect on the world. *)

From Stdlib Require Import String Ascii List Bool Arith NArith ZArith Lia.
From Stdlib Require Import QArith.
Import ListNotations.
Close Scope Q_scope.
Open Scope string_scope.

(* ===================================================================== *)
(** ** JavaScript values the code relies on *)
(* ===================================================================== *)

Module Js.

(** A thrown value: an [Error] object with its [message], or any other
    value, kept as the text [String(err)] gives for it. *)
Inductive Thrown : Type :=
| ErrorObj (message : string)
| OtherValue (text : string).

(** [err instanceof Error ? err.message : String(err)] *)
Definition errMessage (err : Thrown) : string :=
  match err with
  | ErrorObj message => message
  | OtherValue text => text
  end.

(** Truthiness of an optional string: [undefined] and the empty string
    are falsy. *)
Definition truthy (s : option string) : bool :=
  match s with
  | Some (String _ _) => true
  | _ => false
  end.

(** Truthiness of an optional boolean. *)
Definition truthyb (b : option bool) : bool :=
  match b with
  | Some true => true
  | _ => false
  end.

(** [a ?? b] *)
Definition nullish {A : Type} (a : option A) (b : A) : A :=
  match a with
  | Some x => x
  | None => b
  end.

(** *** Strings

    A JavaScript string is a sequence of UTF-16 code units.  A model
    string holds its UTF-8 bytes, as the string literals of this file do;
    a surrogate that stands alone is held as the three bytes of its value.
    Equality, emptiness and the place of an ASCII character are the same on
    both sides; what the code counts in code units is counted on
    [codeUnits]. *)

Definition CodeUnit : Type := N.

Definition byteOf (c : ascii) : N := N_of_ascii c.
Definition chr (n : N) : ascii := ascii_of_N n.

(** A byte [10xxxxxx]. *)
Definition continuation (b : N) : bool := ((128 <=? b) && (b <? 192))%N.

(** The code unit held by a sequence of two or of three bytes, and the
    surrogate pair held by a sequence of four. *)
Definition decode2 (b1 b2 : N) : option CodeUnit :=
  if ((192 <=? b1) && (b1 <? 224))%N && continuation b2
  then Some ((b1 - 192) * 64 + (b2 - 128))%N
  else None.

Definition decode3 (b1 b2 b3 : N) : option CodeUnit :=
  if ((224 <=? b1) && (b1 <? 240))%N && continuation b2 && continuation b3
  then Some ((b1 - 224) * 4096 + (b2 - 128) * 64 + (b3 - 128))%N
  else None.

Definition decode4 (b1 b2 b3 b4 : N) : option (CodeUnit * CodeUnit) :=
  let cp := ((b1 - 240) * 262144 + (b2 - 128) * 4096 + (b3 - 128) * 64 +
             (b4 - 128))%N in
  if ((240 <=? b1) && (b1 <? 248))%N && continuation b2 &&
     continuation b3 && continuation b4 &&
     ((65536 <=? cp) && (cp <? 1114112))%N
  then Some (55296 + (cp - 65536) / 1024, 56320 + (cp - 65536) mod 1024)%N
  else None.

(** The code units of a string.  Bytes that are no UTF-8 are taken one by
    one. *)
Fixpoint codeUnits (s : string) : list CodeUnit :=
  match s with
  | EmptyString => []
  | String c1 s1 =>
      let b1 := byteOf c1 in
      if (b1 <? 128)%N then b1 :: codeUnits s1
      else
        match s1 with
        | EmptyString => b1 :: codeUnits s1
        | String c2 s2 =>
            match decode2 b1 (byteOf c2) with
            | Some u => u :: codeUnits s2
            | None =>
                match s2 with
                | EmptyString => b1 :: codeUnits s1
                | String c3 s3 =>
                    match decode3 b1 (byteOf c2) (byteOf c3) with
                    | Some u => u :: codeUnits s3
                    | None =>
                        match s3 with
                        | EmptyString => b1 :: codeUnits s1
                        | String c4 s4 =>
                            match decode4 b1 (byteOf c2) (byteOf c3)
                                          (byteOf c4)
                            with
                            | Some (hi, lo) => hi :: lo :: codeUnits s4
                            | None => b1 :: codeUnits s1
                            end
                        end
                    end
                end
            end
        end
  end.

Definition isHigh (u : CodeUnit) : bool := ((55296 <=? u) && (u <? 56320))%N.
Definition isLow (u : CodeUnit) : bool := ((56320 <=? u) && (u <? 57344))%N.

(** The bytes of one code unit, and of a surrogate pair. *)
Definition utf8 (u : CodeUnit) : string :=
  if (u <? 128)%N then String (chr u) EmptyString
  else if (u <? 2048)%N
  then String (chr (192 + u / 64)) (String (chr (128 + u mod 64)) EmptyString)
  else String (chr (224 + u / 4096))
         (String (chr (128 + (u / 64) mod 64))
            (String (chr (128 + u mod 64)) EmptyString)).

Definition utf8pair (hi lo : CodeUnit) : string :=
  let cp := (65536 + (hi - 55296) * 1024 + (lo - 56320))%N in
  String (chr (240 + cp / 262144))
    (String (chr (128 + (cp / 4096) mod 64))
       (String (chr (128 + (cp / 64) mod 64))
          (String (chr (128 + cp mod 64)) EmptyString))).

(** The string of a sequence of code units. *)
Fixpoint ofCodeUnits (us : list CodeUnit) : string :=
  match us with
  | [] => EmptyString
  | u :: rest =>
      match rest with
      | v :: rest' =>
          if isHigh u && isLow v
          then utf8pair u v ++ ofCodeUnits rest'
          else utf8 u ++ ofCodeUnits rest
      | [] => utf8 u
      end
  end.

(** [s.slice(start, stop)] for [0 <= start <= stop]: the code units from
    [start] up to, not including, [stop]. *)
Definition slice (start stop : nat) (s : string) : string :=
  ofCodeUnits (firstn (stop - start) (skipn start (codeUnits s))).

(** Whether every code unit is an ASCII character. *)
Fixpoint isAscii (s : string) : bool :=
  match s with
  | EmptyString => true
  | String c rest => (byteOf c <? 128)%N && isAscii rest
  end.

(** [s.slice(0, n)] for an [n] that [indexOf] gave for an ASCII character:
    the cut falls between the same characters when it is made on the
    bytes. *)
Definition slice0 (n : nat) (s : string) : string := substring 0 n s.

(** [xs.includes(x)] on an array of strings. *)
Definition includes (xs : list string) (x : string) : bool :=
  existsb (String.eqb x) xs.

(** JSON numbers are finite doubles, and every finite double is a
    rational: comparisons on them are exact.  Arithmetic is that of the
    rationals, which is the code's wherever the code's result is not
    rounded: on whole numbers of magnitude up to 2^53 - 1, for one. *)
Definition Number : Type := Q.

Definition ltb (x y : Number) : bool := negb (Qle_bool y x).
Definition gtb (x y : Number) : bool := ltb y x.
Definition leb (x y : Number) : bool := Qle_bool x y.

(** Truthiness of an optional number: [undefined] and [0] are falsy. *)
Definition truthyn (x : option Number) : bool :=
  match x with
  | Some q => negb (Qeq_bool q 0)
  | None => false
  end.

(** [Number.isSafeInteger(x)]: a whole number of magnitude at most
    2^53 - 1. *)
Definition isSafeInteger (x : Number) : bool :=
  Pos.eqb (Qden (Qred x)) 1 &&
  Z.leb (Z.abs (Qnum (Qred x))) 9007199254740991.

End Js.

(* ===================================================================== *)
(** ** Computations with effects *)
(* ===================================================================== *)

Module Effects.

Section Computations.
Context {W E : Type}.

Inductive Outcome (A : Type) : Type :=
| Returned (a : A)
| Threw (err : Js.Thrown).

(** What one run leaves behind: its outcome, the world after it and
    the events it emitted, oldest first. *)
Record Run (A : Type) : Type := mkRun {
  outcome : Outcome A;
  world : W;
  emitted : list E
}.

Definition M (A : Type) : Type := W -> Run A.

Definition ret {A : Type} (a : A) : M A :=
  fun w => mkRun A (Returned A a) w [].

Definition throw {A : Type} (err : Js.Thrown) : M A :=
  fun w => mkRun A (Threw A err) w [].

Definition bind {A B : Type} (m : M A) (k : A -> M B) : M B :=
  fun w =>
    let r := m w in
    match outcome A r with
    | Returned _ a =>
        let r' := k a (world A r) in
        mkRun B (outcome B r') (world B r') (emitted A r ++ emitted B r')
    | Threw _ err => mkRun B (Threw B err) (world A r) (emitted A r)
    end.

(** [try { m } catch (err) { h err }] *)
Definition try_catch {A : Type} (m : M A) (h : Js.Thrown -> M A) : M A :=
  fun w =>
    let r := m w in
    match outcome A r with
    | Returned _ _ => r
    | Threw _ err =>
        let r' := h err (world A r) in
        mkRun A (outcome A r') (world A r') (emitted A r ++ emitted A r')
    end.

Definition emit (ev : E) : M unit :=
  fun w => mkRun unit (Returned unit tt) w [ev].

(** Reading the world without changing it. *)
Definition observe {A : Type} (f : W -> A) : M A :=
  fun w => mkRun A (Returned A (f w)) w [].

(** Awaiting an external collaborator. *)
Definition await {A : Type} (f : W -> Outcome A * W) : M A :=
  fun w => mkRun A (fst (f w)) (snd (f w)) [].

(** [for (const x of xs) { body }] with [break], over loop state [S]. *)
Inductive LoopCtl : Type := Continue | Break.

Fixpoint for_of {A S : Type} (body : A -> S -> M (LoopCtl * S))
         (xs : list A) (acc : S) : M S :=
  match xs with
  | [] => ret acc
  | x :: rest =>
      bind (body x acc) (fun r =>
        match fst r with
        | Break => ret (snd r)
        | Continue => for_of body rest (snd r)
        end)
  end.

End Computations.

Arguments Outcome : clear implicits.
Arguments Returned {A} a.
Arguments Threw {A} err.
Arguments Run : clear implicits.
Arguments mkRun {W E A} outcome world emitted.
Arguments outcome {W E A} r.
Arguments world {W E A} r.
Arguments emitted {W E A} r.
Arguments M : clear implicits.

Declare Scope js_scope.
Delimit Scope js_scope with js.
Notation "x <- c1 ;; c2" := (bind c1 (fun x => c2))
  (at level 61, c1 at next level, right associativity) : js_scope.
Notation "c1 ;; c2" := (bind c1 (fun _ => c2))
  (at level 61, right associativity) : js_scope.

End Effects.

Import Effects.
Open Scope js_scope.

(* ===================================================================== *)
(** ** Shared types ([src/types], [src/channels/common]) *)
(* ===================================================================== *)

Definition ChannelId : Type := string.

Record OutboundMessage : Type := mkOutboundMessage {
  chatId : string;
  content : string;
  msg_replyToId : option string;
  msg_mediaUrls : option (list string)
}.

(** What a channel's [sendMessage] resolves to. *)
Record SendResult : Type := mkSendResult {
  send_success : bool;
  send_messageId : option string;
  send_error : option string
}.

(** A channel adapter: [sendMessage] may change the world, and may resolve
    or reject. *)
Record Channel (W : Type) : Type := mkChannel {
  sendMessage : OutboundMessage -> W -> Outcome SendResult * W
}.
Arguments mkChannel {W}.
Arguments sendMessage {W}.

(** An [AbortSignal]: its [aborted] flag is read from the world, so it can
    fire while a send is in flight. *)
Record AbortSignal (W : Type) : Type := mkAbortSignal {
  aborted : W -> bool
}.
Arguments mkAbortSignal {W}.
Arguments aborted {W}.

Inductive LogLevel : Type := Debug | Info | Warn | Error.

(* ===================================================================== *)
(** ** Delivery service ([src/outbound/index.ts]) *)
(* ===================================================================== *)

Record DeliveryTarget : Type := mkTarget {
  channel : ChannelId;
  to : string;
  accountId : option string
}.

Record DeliveryPayload : Type := mkPayload {
  text : string;
  mediaUrls : option (list string);
  replyToId : option string
}.

Record DeliveryOptions (W : Type) : Type := mkOptions {
  bestEffort : option bool;
  timeoutMs : option Js.Number;
  abortSignal : option (AbortSignal W)
}.
Arguments mkOptions {W}.
Arguments bestEffort {W}.
Arguments timeoutMs {W}.
Arguments abortSignal {W}.

Record DeliveryResult : Type := mkResult {
  success : bool;
  res_channel : ChannelId;
  messageId : option string;
  error : option string;
  errorDetails : option Js.Thrown
}.

(** The argument object of [deliverOutboundPayloads]. *)
Record OutboundParams (W : Type) : Type := mkOutboundParams {
  op_channel : ChannelId;
  op_to : string;
  op_accountId : option string;
  op_payloads : list DeliveryPayload;
  op_bestEffort : option bool;
  op_abortSignal : option (AbortSignal W)
}.
Arguments mkOutboundParams {W}.
Arguments op_channel {W}.
Arguments op_to {W}.
Arguments op_accountId {W}.
Arguments op_payloads {W}.
Arguments op_bestEffort {W}.
Arguments op_abortSignal {W}.

(** The argument object of the agent callback. *)
Record AgentParams : Type := mkAgentParams {
  ap_message : string;
  ap_sessionKey : option string;
  ap_model : option string;
  ap_timeoutSeconds : option Js.Number
}.

(** Calls that leave the core, and log lines, in the order they happen. *)
Inductive Event (W : Type) : Type :=
| EvLog (level : LogLevel) (logger msg : string)
| EvSend (channelId : ChannelId) (message : OutboundMessage)
| EvAgent (params : AgentParams)
| EvDeliver (params : OutboundParams W).
Arguments EvLog {W}.
Arguments EvSend {W}.
Arguments EvAgent {W}.
Arguments EvDeliver {W}.

Definition isSend {W : Type} (ev : Event W) : bool :=
  match ev with EvSend _ _ => true | _ => false end.

Definition isDeliver {W : Type} (ev : Event W) : bool :=
  match ev with EvDeliver _ => true | _ => false end.

Module Outbound.

Section Service.
Context {W : Type}.

(** The channel registry ([src/channels/common/index.ts], not among the
    sources) is a parameter: [getChannel(id)] looks the handler registered
    under [id] up in the world and gives nothing for an unregistered id. *)
Variable getChannel : ChannelId -> W -> option (Channel W).

Abbreviation Eff := (M W (Event W)).

Definition log (level : LogLevel) (msg : string) : Eff unit :=
  emit (EvLog level "outbound" msg).

(** [options?.bestEffort] read as a condition. *)
Definition optBestEffort (options : option (DeliveryOptions W)) : bool :=
  match options with
  | Some o => Js.truthyb (bestEffort o)
  | None => false
  end.

(** [{ ...options, bestEffort: true }] *)
Definition withBestEffort (options : option (DeliveryOptions W))
  : DeliveryOptions W :=
  match options with
  | Some o => mkOptions (Some true) (timeoutMs o) (abortSignal o)
  | None => mkOptions (Some true) None None
  end.

(** [options?.abortSignal?.aborted] *)
Definition abortRequested (options : option (DeliveryOptions W)) (w : W)
  : bool :=
  match options with
  | Some o =>
      match abortSignal o with
      | Some signal => aborted signal w
      | None => false
      end
  | None => false
  end.

(** [const { bestEffort = false } = options ?? {}] *)
Definition bestEffortOr (options : option (DeliveryOptions W)) : bool :=
  match options with
  | Some o => Js.nullish (bestEffort o) false
  | None => false
  end.

(** The [OutboundMessage] built from a target and a payload. *)
Definition outboundMessage (target : DeliveryTarget)
           (payload : DeliveryPayload) : OutboundMessage :=
  mkOutboundMessage (to target) (text payload) (replyToId payload)
                    (mediaUrls payload).

Definition deliverMessage (target : DeliveryTarget)
           (payload : DeliveryPayload)
           (options : option (DeliveryOptions W)) : Eff DeliveryResult :=
  let channelId := channel target in
  let bestEffort := bestEffortOr options in
  log Debug "Delivering message" ;;
  try_catch
    (channel <- observe (getChannel channelId) ;;
     match channel with
     | None =>
         let error := "Channel not found: " ++ channelId in
         log Warn error ;;
         if negb bestEffort
         then throw (Js.ErrorObj error)
         else ret (mkResult false channelId None (Some error) None)
     | Some channel =>
         let message := outboundMessage target payload in
         emit (EvSend channelId message) ;;
         result <- await (sendMessage channel message) ;;
         if send_success result
         then
           log Info "Message delivered" ;;
           ret (mkResult true channelId (send_messageId result) None None)
         else
           log Warn "Message delivery failed" ;;
           if negb bestEffort
           then throw (Js.ErrorObj
                         (Js.nullish (send_error result) "Unknown error"))
           else ret (mkResult false channelId None (send_error result)
                              None)
     end)
    (fun err =>
       let error := Js.errMessage err in
       log Error "Message delivery error" ;;
       if negb bestEffort
       then throw err
       else ret (mkResult false channelId None (Some error) (Some err))).

Definition abortedResult (target : DeliveryTarget) : DeliveryResult :=
  mkResult false (channel target) None (Some "Aborted") None.

(** The body of the [for ... of] loop of [deliverMessages]; [results]
    is the array built so far. *)
Definition deliverMessages_body (target : DeliveryTarget)
           (options : option (DeliveryOptions W))
           (payload : DeliveryPayload) (results : list DeliveryResult)
  : Eff (LoopCtl * list DeliveryResult) :=
  stop <- observe (abortRequested options) ;;
  if stop
  then ret (Break, (results ++ [abortedResult target])%list)
  else
    try_catch
      (result <- deliverMessage target payload
                                (Some (withBestEffort options)) ;;
       let results := (results ++ [result])%list in
       if negb (success result) && negb (optBestEffort options)
       then ret (Break, results)
       else ret (Continue, results))
      (fun err =>
         let error := Js.errMessage err in
         let results :=
           (results ++ [mkResult false (channel target) None (Some error)
                                 (Some err)])%list in
         if negb (optBestEffort options)
         then ret (Break, results)
         else ret (Continue, results)).

Definition deliverMessages (target : DeliveryTarget)
           (payloads : list DeliveryPayload)
           (options : option (DeliveryOptions W))
  : Eff (list DeliveryResult) :=
  for_of (deliverMessages_body target options) payloads [].

Definition deliverOutboundPayloads (params : OutboundParams W)
  : Eff (list DeliveryResult) :=
  let bestEffort := Js.nullish (op_bestEffort params) false in
  match op_payloads params with
  | [] => ret []
  | payloads =>
      let target :=
        mkTarget (op_channel params) (op_to params) (op_accountId params) in
      deliverMessages target payloads
        (Some (mkOptions (Some bestEffort) None (op_abortSignal params)))
  end.

Definition sendText (channel : ChannelId) (to text : string)
           (options : option (DeliveryOptions W)) : Eff DeliveryResult :=
  deliverMessage (mkTarget channel to None) (mkPayload text None None)
                 options.

(** [getChannel(channelId) !== undefined] *)
Definition isChannelAvailable (channelId : ChannelId) (w : W) : bool :=
  match getChannel channelId w with
  | Some _ => true
  | None => false
  end.

(** The loop's attempt at one payload: [deliverMessage] called in
    best-effort mode, whatever the caller's own mode. *)
Definition attempt (target : DeliveryTarget)
           (options : option (DeliveryOptions W)) (payload : DeliveryPayload)
  : Eff DeliveryResult :=
  deliverMessage target payload (Some (withBestEffort options)).

(** [Attempted target options w payloads results w' evs]: starting in world
    [w], the payloads were attempted one after the other in the order of the
    list, the abort check being negative before each; the result at index
    [i] is what the attempt at payload [i] returned, and each attempt ran in
    the world its predecessor left.  [w'] is the world after the last one
    and [evs] the events of all of them, oldest first. *)
Inductive Attempted (target : DeliveryTarget)
          (options : option (DeliveryOptions W))
  : W -> list DeliveryPayload -> list DeliveryResult -> W ->
    list (Event W) -> Prop :=
| Attempted_nil : forall w, Attempted target options w [] [] w []
| Attempted_cons : forall w payload payloads r rs w' evs,
    abortRequested options w = false ->
    outcome (attempt target options payload w) = Returned r ->
    Attempted target options (world (attempt target options payload w))
              payloads rs w' evs ->
    Attempted target options w (payload :: payloads) (r :: rs) w'
              (emitted (attempt target options payload w) ++ evs).

(** The loop went on after every one of these results. *)
Definition allContinued (options : option (DeliveryOptions W))
           (results : list DeliveryResult) : Prop :=
  optBestEffort options = true \/ Forall (fun r => success r = true) results.

End Service.

End Outbound.

(* ===================================================================== *)
(** ** Cron jobs ([src/cron/types.ts], as the executor and the tools use
       them) *)
(* ===================================================================== *)

Inductive CronSchedule : Type :=
| ScheduleAt (atMs : Js.Number)
| ScheduleEvery (everyMs : Js.Number)
| ScheduleCron (expr : string) (tz : option string).

Record PayloadAgentTurn : Type := mkAgentTurn {
  at_message : string;
  at_model : option string;
  at_timeoutSeconds : option Js.Number;
  at_deliver : option bool;
  at_channel : option string;
  at_to : option string
}.

(** The payload union, with the values of [kind] the [default] branch of
    the executor's switch is there for. *)
Inductive CronPayload : Type :=
| SystemEvent (message : string)
| AgentTurn (payload : PayloadAgentTurn)
| OtherKind (kind : string).

Inductive RunStatus : Type := StatusOk | StatusError | StatusSkipped.

Record CronJobState : Type := mkJobState {
  lastRunAtMs : option Js.Number;
  nextRunAtMs : option Js.Number;
  runCount : nat;
  lastError : option string;
  lastStatus : option RunStatus
}.

Record CronJob : Type := mkJob {
  job_id : string;
  job_name : string;
  job_enabled : bool;
  job_schedule : CronSchedule;
  job_payload : CronPayload;
  createdAtMs : Js.Number;
  updatedAtMs : Js.Number;
  job_state : CronJobState
}.

(* ===================================================================== *)
(** ** Cron executor ([src/cron/executor.ts]) *)
(* ===================================================================== *)

Module Executor.

Record CronExecutionResult : Type := mkExec {
  status : RunStatus;
  exec_error : option string;
  summary : option string;
  outputText : option string
}.

(** What the agent callback resolves to. *)
Record AgentResult : Type := mkAgentResult {
  agent_success : bool;
  agent_output : string;
  agent_error : option string
}.

Definition AgentExecutor (W : Type) : Type :=
  AgentParams -> W -> Outcome AgentResult * W.

Record CronExecutorOptions (W : Type) : Type := mkExecutorOptions {
  opt_agentExecutor : option (AgentExecutor W);
  opt_defaultChannel : option ChannelId
}.
Arguments mkExecutorOptions {W}.
Arguments opt_agentExecutor {W}.
Arguments opt_defaultChannel {W}.

Definition validChannels : list ChannelId :=
  ["dingtalk"; "feishu"; "qq"; "wecom"; "webchat"].

Section Executor.
Context {W : Type}.

(** [const { agentExecutor, defaultChannel } = options ?? {}] *)
Variable agentExecutor : option (AgentExecutor W).
Variable defaultChannel : option ChannelId.

(** The two imports from the outbound module.  They are variables here so
    that what is proved of the executor holds for every implementation of
    them, one that throws included; [createDefaultCronExecuteJob] below
    links the module's own. *)
Variable isChannelAvailable : ChannelId -> W -> bool.
Variable deliverOutboundPayloads :
  OutboundParams W -> M W (Event W) (list DeliveryResult).

Abbreviation Eff := (M W (Event W)).

Definition log (level : LogLevel) (msg : string) : Eff unit :=
  emit (EvLog level "cron-executor" msg).

Definition resolveChannel (channel : option string) : option ChannelId :=
  match channel with
  | Some (String _ _ as channel) =>
      if String.eqb channel "last"
      then defaultChannel
      else if Js.includes validChannels channel
           then Some channel
           else None
  | _ => defaultChannel
  end.

(** The argument of the delivery call: one payload, best effort. *)
Definition deliveryParams (channelId : ChannelId) (to outputText : string)
  : OutboundParams W :=
  mkOutboundParams channelId to None [mkPayload outputText None None]
                   (Some true) None.

Definition deliverAgentOutput (job : CronJob) (payload : PayloadAgentTurn)
           (outputText : string) : Eff unit :=
  let targetChannel := at_channel payload in
  match at_to payload with
  | Some (String _ _ as to) =>
      match resolveChannel targetChannel with
      | Some (String _ _ as channelId) =>
          available <- observe (isChannelAvailable channelId) ;;
          if negb available
          then log Warn "Channel not available"
          else
            log Info "Delivering agent output" ;;
            try_catch
              (emit (EvDeliver (deliveryParams channelId to outputText)) ;;
               results <- deliverOutboundPayloads
                            (deliveryParams channelId to outputText) ;;
               log Info "Delivery completed")
              (fun err => log Error "Delivery failed")
      | _ => log Warn "Invalid or unavailable channel"
      end
  | _ => log Warn "No delivery target specified"
  end.

(** The argument of the agent callback. *)
Definition agentParams (job : CronJob) (payload : PayloadAgentTurn)
  : AgentParams :=
  mkAgentParams (at_message payload) (Some ("cron:" ++ job_id job))
                (at_model payload) (at_timeoutSeconds payload).

Definition executeSystemEvent (job : CronJob) : Eff CronExecutionResult :=
  log Info "System event triggered" ;;
  ret (mkExec StatusOk None (Some "System event executed") None).

Definition executeAgentTurn (job : CronJob) (payload : PayloadAgentTurn)
  : Eff CronExecutionResult :=
  match agentExecutor with
  | None =>
      log Warn "No agent executor configured, skipping agentTurn execution" ;;
      ret (mkExec StatusSkipped None (Some "No agent executor configured")
                  None)
  | Some agentExecutor =>
      log Info "Executing agent turn" ;;
      (* [inr] is the [return] of the catch block *)
      called <- try_catch
                  (emit (EvAgent (agentParams job payload)) ;;
                   agentResult <- await (agentExecutor
                                           (agentParams job payload)) ;;
                   ret (inl agentResult))
                  (fun err =>
                     let error := Js.errMessage err in
                     log Error "Agent executor threw exception" ;;
                     ret (inr (mkExec StatusError (Some error) None None))) ;;
      match called with
      | inr result => ret result
      | inl agentResult =>
          if negb (agent_success agentResult)
          then ret (mkExec StatusError
                           (Some (Js.nullish (agent_error agentResult)
                                             "Agent execution failed"))
                           None
                           (Some (agent_output agentResult)))
          else
            let outputText := agent_output agentResult in
            (if Js.truthyb (at_deliver payload) && Js.truthy (at_to payload)
             then deliverAgentOutput job payload outputText
             else ret tt) ;;
            ret (mkExec StatusOk None (Some (Js.slice 0 200 outputText))
                        (Some outputText))
      end
  end.

(** The [switch] returns the promise of the function it calls without
    awaiting it, so the [try] covers the dispatch only: the block yields a
    computation, which [executeJob] then runs outside the [try]. *)
Definition executeJob (job : CronJob) : Eff CronExecutionResult :=
  let payload := job_payload job in
  log Info "Executing cron job" ;;
  promise <- try_catch
               (match payload with
                | SystemEvent _ => ret (executeSystemEvent job)
                | AgentTurn payload => ret (executeAgentTurn job payload)
                | OtherKind kind =>
                    ret (ret (mkExec StatusError
                                     (Some ("Unknown payload kind: " ++ kind))
                                     None None))
                end)
               (fun err =>
                  let error := Js.errMessage err in
                  log Error "Cron job execution failed" ;;
                  ret (ret (mkExec StatusError (Some error) None None))) ;;
  promise.

End Executor.

(** [createDefaultCronExecuteJob(options)]: [executeJob] of the executor
    created from [options], linked with the outbound module over the
    registry [getChannel]. *)
Definition createDefaultCronExecuteJob {W : Type}
           (getChannel : ChannelId -> W -> option (Channel W))
           (options : option (CronExecutorOptions W))
  : CronJob -> M W (Event W) CronExecutionResult :=
  executeJob
    (match options with Some o => opt_agentExecutor o | None => None end)
    (match options with Some o => opt_defaultChannel o | None => None end)
    (Outbound.isChannelAvailable getChannel)
    (Outbound.deliverOutboundPayloads getChannel).

End Executor.

(* ===================================================================== *)
(** ** Scheduler service, as the tools see it *)
(* ===================================================================== *)

Module Service.

Record CronJobCreate : Type := mkCreate {
  create_name : string;
  create_schedule : CronSchedule;
  create_payload : CronPayload;
  create_enabled : option bool
}.

(** The patch of [update]: the fields the spec lets it change. *)
Record CronJobUpdate : Type := mkUpdate {
  upd_name : option string;
  upd_enabled : option bool;
  upd_schedule : option CronSchedule;
  upd_payload : option CronPayload
}.

(** The methods of [CronService] the tools call, over the service's
    state [S]. *)
Record CronService (S : Type) : Type := mkService {
  add : CronJobCreate -> S -> CronJob * S;
  update : string -> CronJobUpdate -> S -> option CronJob * S;
  get : string -> S -> option CronJob
}.
Arguments mkService {S}.
Arguments add {S}.
Arguments update {S}.
Arguments get {S}.

Inductive CronEvent : Type :=
| JobAdded (job : CronJob)
| JobUpdated (job : CronJob).

(** The state of the modelled service: the live job set, the clock
    reading, the ids handed out so far and the events emitted. *)
Record State : Type := mkState {
  jobs : list CronJob;
  nowMs : Js.Number;
  issued : nat;
  events : list CronEvent
}.

Section Modelled.

(** The schedule calculator of section 4.B and the id source, both outside
    the sources. *)
Variable computeNextRunAtMs :
  CronSchedule -> option Js.Number -> Js.Number -> option Js.Number.
Variable newId : nat -> string.

Definition nextRunOf (enabled : bool) (schedule : CronSchedule)
           (state : CronJobState) (now : Js.Number) : option Js.Number :=
  if enabled
  then computeNextRunAtMs schedule (lastRunAtMs state) now
  else None.

Definition withNextRun (state : CronJobState) (next : option Js.Number)
  : CronJobState :=
  mkJobState (lastRunAtMs state) next (runCount state) (lastError state)
             (lastStatus state).

(** Modelled from the spec: [src/cron/service.ts] is not among the
    sources.  Section 4.G: [add(create)] assigns [id], stamps
    [createdAtMs]/[updatedAtMs], sets [enabled = true] unless explicitly
    false, computes the initial [nextRunAtMs], persists and emits
    [job.added]. *)
Definition modelAdd (create : CronJobCreate) (s : State) : CronJob * State :=
  let enabled := Js.nullish (create_enabled create) true in
  let state0 := mkJobState None None 0 None None in
  let job :=
    mkJob (newId (issued s)) (create_name create) enabled
          (create_schedule create) (create_payload create)
          (nowMs s) (nowMs s)
          (withNextRun state0
             (nextRunOf enabled (create_schedule create) state0 (nowMs s))) in
  (job, mkState (jobs s ++ [job]) (nowMs s) (S (issued s))
                (events s ++ [JobAdded job])).

(** Modelled from the spec, section 4.G: a patch may change [name],
    [enabled], [schedule] and [payload]; [updatedAtMs] and [nextRunAtMs]
    are recomputed (a disabled job has no next run, invariant 5). *)
Definition applyPatch (patch : CronJobUpdate) (now : Js.Number)
           (job : CronJob) : CronJob :=
  let name := Js.nullish (upd_name patch) (job_name job) in
  let enabled := Js.nullish (upd_enabled patch) (job_enabled job) in
  let schedule := Js.nullish (upd_schedule patch) (job_schedule job) in
  let payload := Js.nullish (upd_payload patch) (job_payload job) in
  mkJob (job_id job) name enabled schedule payload (createdAtMs job) now
        (withNextRun (job_state job)
           (nextRunOf enabled schedule (job_state job) now)).

(** Modelled from the spec, section 4.G: [get(id)]. *)
Definition modelGet (id : string) (s : State) : option CronJob :=
  find (fun job => String.eqb (job_id job) id) (jobs s).

(** Modelled from the spec, section 4.G: [update(id, patch)] returns the
    updated job, or nothing for an unknown id; it persists and emits
    [job.updated]. *)
Definition modelUpdate (id : string) (patch : CronJobUpdate) (s : State)
  : option CronJob * State :=
  match modelGet id s with
  | None => (None, s)
  | Some job =>
      let job' := applyPatch patch (nowMs s) job in
      (Some job',
       mkState (map (fun j => if String.eqb (job_id j) id
                              then applyPatch patch (nowMs s) j
                              else j)
                    (jobs s))
               (nowMs s) (issued s) (events s ++ [JobUpdated job']))
  end.

Definition modelService : CronService State :=
  mkService modelAdd modelUpdate modelGet.

End Modelled.

End Service.

(* ===================================================================== *)
(** ** Tool facade ([src/tools/builtin/cron.ts]) *)
(* ===================================================================== *)

Module CronTools.

Import Service.

(** [{ content: [{ type: "text", text }], isError? }]; an absent [isError]
    is [false] here. *)
Record ToolResult : Type := mkToolResult {
  content : list string;
  isError : bool
}.

Definition rejected (text : string) : ToolResult := mkToolResult [text] true.
Definition answered (text : string) : ToolResult := mkToolResult [text] false.

Inductive ScheduleType : Type := TypeAt | TypeEvery | TypeCron.
Inductive EveryUnit : Type := Seconds | Minutes | Hours | Days.
Inductive PayloadType : Type := TypeSystemEvent | TypeAgentTurn.

Record CronAddArgs : Type := mkAddArgs {
  name : string;
  scheduleType : ScheduleType;
  atTime : option string;
  everyMs : option Js.Number;
  everyUnit : option EveryUnit;
  everyValue : option Js.Number;
  cronExpr : option string;
  cronTz : option string;
  message : string;
  payloadType : option PayloadType;
  deliver : option bool;
  channel : option string;
  to : option string;
  model : option string;
  timeoutSeconds : option Js.Number
}.

Record CronUpdateArgs : Type := mkUpdateArgs {
  jobId : string;
  newName : option string;
  newEnabled : option bool
}.

(** Modelled from the spec: [TIME_CONSTANTS] of [src/cron/types.ts] is not
    among the sources; section 4.H gives the factors 1 000, 60 000,
    3 600 000 and 86 400 000. *)
Definition unitMap (unit : EveryUnit) : Js.Number :=
  match unit with
  | Seconds => (1000 # 1)%Q
  | Minutes => (60000 # 1)%Q
  | Hours => (3600000 # 1)%Q
  | Days => (86400000 # 1)%Q
  end.

Definition validChannels : list string :=
  ["dingtalk"; "feishu"; "qq"; "wecom"; "webchat"; "last"].

Definition dquote : string := String (ascii_of_nat 34) EmptyString.
Definition nl : string := String (ascii_of_nat 10) EmptyString.

Record CronValidation : Type := mkValidation {
  valid : bool;
  validation_error : option string
}.

Section Tools.
Context {S : Type}.
Variable service : CronService S.

(** [new Date(atTime).getTime()], with [None] for [NaN]. *)
Variable dateMs : string -> option Js.Number.
(** [validateCronExpr] and [formatSchedule] of [src/cron/schedule.ts], and
    [new Date(ms).toLocaleString("zh-CN")]. *)
Variable validateCronExpr : string -> CronValidation.
Variable formatSchedule : CronSchedule -> string.
Variable toLocaleString : Js.Number -> string.

(** The first half of [cron_add]: the schedule, or the error returned.
    The interval [everyValue * unitMap[everyUnit]] is the exact product;
    the code's is the double nearest to it, the same number whenever the
    product is itself a double. *)
Definition buildSchedule (args : CronAddArgs) : ToolResult + CronSchedule :=
  match scheduleType args with
  | TypeAt =>
      match atTime args with
      | Some (String _ _ as atTime) =>
          match dateMs atTime with
          | None => inl (rejected "错误: atTime 格式无效")
          | Some atMs => inr (ScheduleAt atMs)
          end
      | _ => inl (rejected "错误: at 类型任务需要提供 atTime 参数")
      end
  | TypeEvery =>
      let intervalMs :=
        match everyUnit args, everyValue args with
        | Some unit, Some value =>
            if negb (Js.truthyn (everyMs args)) &&
               Js.truthyn (everyValue args)
            then Some (Qmult value (unitMap unit))
            else everyMs args
        | _, _ => everyMs args
        end in
      match intervalMs with
      | Some ms =>
          if negb (Js.truthyn intervalMs) || Js.leb ms 0%Q
          then inl (rejected "错误: every 类型任务需要提供有效的间隔时间")
          else inr (ScheduleEvery ms)
      | None => inl (rejected "错误: every 类型任务需要提供有效的间隔时间")
      end
  | TypeCron =>
      match cronExpr args with
      | Some (String _ _ as cronExpr) =>
          let validation := validateCronExpr cronExpr in
          if negb (valid validation)
          then inl (rejected
                      ("错误: Cron 表达式无效 - " ++
                       Js.nullish (validation_error validation) "undefined"))
          else inr (ScheduleCron cronExpr (cronTz args))
      | _ => inl (rejected "错误: cron 类型任务需要提供 cronExpr 参数")
      end
  end.

(** [timeoutSeconds !== undefined && (timeoutSeconds < 1 ||
    timeoutSeconds > 600)] *)
Definition timeoutOutOfRange (timeoutSeconds : option Js.Number) : bool :=
  match timeoutSeconds with
  | Some t => Js.ltb t 1%Q || Js.gtb t 600%Q
  | None => false
  end.

(** The second half of [cron_add]: the payload, or the error returned. *)
Definition buildPayload (args : CronAddArgs) : ToolResult + CronPayload :=
  match Js.nullish (payloadType args) TypeSystemEvent with
  | TypeAgentTurn =>
      if Js.truthyb (deliver args) &&
         (negb (Js.truthy (channel args)) || negb (Js.truthy (to args)))
      then inl (rejected
                  "错误: agentTurn 任务启用 deliver 时需要提供 channel 和 to 参数")
      else if Js.truthy (channel args) &&
              negb (Js.includes validChannels
                                (Js.nullish (channel args) EmptyString))
      then inl (rejected
                  ("错误: 无效的通道 " ++ dquote ++
                   Js.nullish (channel args) EmptyString ++ dquote ++
                   "，支持: " ++ String.concat ", " validChannels))
      else if timeoutOutOfRange (timeoutSeconds args)
      then inl (rejected "错误: timeoutSeconds 必须在 1-600 秒之间")
      else inr (AgentTurn
                  (mkAgentTurn (message args) (model args)
                               (timeoutSeconds args) (deliver args)
                               (channel args) (to args)))
  | TypeSystemEvent => inr (SystemEvent (message args))
  end.

Definition createdText (args : CronAddArgs) (job : CronJob) : string :=
  let isAgent :=
    match Js.nullish (payloadType args) TypeSystemEvent with
    | TypeAgentTurn => true
    | TypeSystemEvent => false
    end in
  "定时任务已创建:" ++ nl ++
  "- ID: " ++ job_id job ++ nl ++
  "- 名称: " ++ job_name job ++ nl ++
  "- 类型: " ++ (if isAgent then "Agent 执行" else "系统事件") ++ nl ++
  "- 调度: " ++ formatSchedule (job_schedule job) ++ nl ++
  "- 下次执行: " ++
  (if Js.truthyn (nextRunAtMs (job_state job))
   then match nextRunAtMs (job_state job) with
        | Some ms => toLocaleString ms
        | None => "未计算"
        end
   else "未计算") ++
  (if isAgent && Js.truthyb (deliver args)
   then nl ++ "- 投递目标: " ++ Js.nullish (channel args) "undefined" ++ " -> " ++
        Js.nullish (to args) "undefined"
   else EmptyString).

(** [cron_add]: the tool's [execute], on the service's state. *)
Definition cron_add (args : CronAddArgs) (s : S) : ToolResult * S :=
  match buildSchedule args with
  | inl refused => (refused, s)
  | inr schedule =>
      match buildPayload args with
      | inl refused => (refused, s)
      | inr payload =>
          let jobCreate := mkCreate (name args) schedule payload None in
          let added := add service jobCreate s in
          (answered (createdText args (fst added)), snd added)
      end
  end.

(** The [updates] object [cron_update] builds: [name] and [enabled] are
    the only keys it ever sets. *)
Definition updatesOf (args : CronUpdateArgs) : CronJobUpdate :=
  mkUpdate (newName args) (newEnabled args) None None.

(** [Object.keys(updates).length === 0] *)
Definition noUpdates (args : CronUpdateArgs) : bool :=
  match newName args, newEnabled args with
  | None, None => true
  | _, _ => false
  end.

(** [cron_update]: the tool's [execute], on the service's state. *)
Definition cron_update (args : CronUpdateArgs) (s : S) : ToolResult * S :=
  if noUpdates args
  then (rejected "错误: 没有提供要更新的字段", s)
  else
    let updated := update service (jobId args) (updatesOf args) s in
    match fst updated with
    | None =>
        (rejected ("错误: 找不到 ID 为 " ++ jobId args ++ " 的任务"),
         snd updated)
    | Some job =>
        (answered
           ("定时任务已更新:" ++ nl ++ "- ID: " ++ job_id job ++ nl ++
            "- 名称: " ++ job_name job ++ nl ++
            "- 状态: " ++ (if job_enabled job then "已启用" else "已禁用")),
         snd updated)
    end.

End Tools.

End CronTools.

(* ===================================================================== *)
(** ** Stubs, after the repository's tests and the spec's scenarios *)
(* ===================================================================== *)

Module Fixtures.

Import Executor Service CronTools.

(** The world of the examples is the number of sends made so far. *)
Definition accepting (messageId : string) : Channel nat :=
  mkChannel (fun _ n => (Returned (mkSendResult true (Some messageId) None),
                         S n)).

Definition refusing (err : option string) : Channel nat :=
  mkChannel (fun _ n => (Returned (mkSendResult false None err), S n)).

(** Fails on the second call only. *)
Definition flaky : Channel nat :=
  mkChannel (fun _ n =>
               (Returned (if Nat.eqb n 1
                          then mkSendResult false None (Some "Failed")
                          else mkSendResult true (Some "msg") None),
                S n)).

Definition registry (id : ChannelId) (_ : nat) : option (Channel nat) :=
  if String.eqb id "dingtalk" then Some (accepting "m-42")
  else if String.eqb id "feishu" then Some (refusing (Some "Network error"))
  else if String.eqb id "qq" then Some (refusing None)
  else if String.eqb id "wecom" then Some flaky
  else None.

(** A signal that has fired once [k] sends were made. *)
Definition firedAfter (k : nat) : AbortSignal nat :=
  mkAbortSignal (fun n => Nat.leb k n).

Definition toUser (channelId : ChannelId) : DeliveryTarget :=
  mkTarget channelId "u1" None.

Definition say (text : string) : DeliveryPayload := mkPayload text None None.

Definition options (bestEffort : bool) (signal : option (AbortSignal nat))
  : option (DeliveryOptions nat) :=
  Some (mkOptions (Some bestEffort) None signal).

Definition sunny : AgentExecutor nat :=
  fun _ n => (Returned (mkAgentResult true "The weather is sunny today!" None),
              n).

Definition modelUnavailable : AgentExecutor nat :=
  fun _ n => (Returned (mkAgentResult false EmptyString
                                      (Some "Model unavailable")), n).

Definition failsSilently : AgentExecutor nat :=
  fun _ n => (Returned (mkAgentResult false "partial" None), n).

Definition crashes : AgentExecutor nat :=
  fun _ n => (Threw (Js.ErrorObj "socket hang up"), n).

Definition brokenDelivery
  : OutboundParams nat -> M nat (Event nat) (list DeliveryResult) :=
  fun _ => throw (Js.ErrorObj "boom").

Definition turn (deliver : option bool) (channel to : option string)
  : PayloadAgentTurn :=
  mkAgentTurn "weather?" None None deliver channel to.

Definition jobWith (payload : CronPayload) : CronJob :=
  mkJob "j1" "weather" true (ScheduleEvery (60000 # 1)%Q) payload 0%Q 0%Q
        (mkJobState None None 0 None None).

Definition executor (agent : AgentExecutor nat) (channelId : ChannelId)
  : option (CronExecutorOptions nat) :=
  Some (mkExecutorOptions (Some agent) (Some channelId)).

(** Stubs for what the tools take from outside. *)
Definition noDate : string -> option Js.Number := fun _ => None.
Definition anyCron : string -> CronValidation :=
  fun _ => mkValidation true None.
Definition showSchedule : CronSchedule -> string := fun _ => "schedule".
Definition showDate : Js.Number -> string := fun _ => "date".
Definition noNextRun
  : CronSchedule -> option Js.Number -> Js.Number -> option Js.Number :=
  fun _ _ _ => None.
Definition numbered : nat -> string := fun _ => "job".

Definition store : State := mkState [jobWith (SystemEvent "hello")] 0%Q 1 [].

Definition request (channel : option string) (timeout : option Js.Number)
  : CronAddArgs :=
  mkAddArgs "Bad" TypeEvery None None (Some Minutes) (Some (5 # 1)%Q) None
            None "test" (Some TypeAgentTurn) (Some true) channel
            (Some "user123") None timeout.

End Fixtures.

(* ===================================================================== *)
(** ** Facts about computations *)
(* ===================================================================== *)

Module EffectFacts.

Section Facts.
Context {W E : Type}.

Lemma run_eta {A : Type} (r : Run W E A) :
  r = mkRun (outcome r) (world r) (emitted r).
Proof. destruct r; reflexivity. Qed.

Lemma bind_returned {A B : Type} (m : M W E A) (k : A -> M W E B) w a :
  outcome (m w) = Returned a ->
  bind m k w =
  mkRun (outcome (k a (world (m w)))) (world (k a (world (m w))))
        (emitted (m w) ++ emitted (k a (world (m w)))).
Proof. intros H. unfold bind. rewrite H. reflexivity. Qed.

Lemma bind_threw {A B : Type} (m : M W E A) (k : A -> M W E B) w err :
  outcome (m w) = Threw err ->
  bind m k w = mkRun (Threw err) (world (m w)) (emitted (m w)).
Proof. intros H. unfold bind. rewrite H. reflexivity. Qed.

Lemma try_catch_returned {A : Type} (m : M W E A) h w a :
  outcome (m w) = Returned a -> try_catch m h w = m w.
Proof. intros H. unfold try_catch. rewrite H. reflexivity. Qed.

Lemma for_of_nil {A S : Type} (body : A -> S -> M W E (LoopCtl * S)) acc w :
  for_of body [] acc w = mkRun (Returned acc) w [].
Proof. reflexivity. Qed.

Lemma for_of_break {A S : Type} (body : A -> S -> M W E (LoopCtl * S))
      x xs acc w acc' :
  outcome (body x acc w) = Returned (Break, acc') ->
  for_of body (x :: xs) acc w =
  mkRun (Returned acc') (world (body x acc w)) (emitted (body x acc w)).
Proof.
  intros H. cbn [for_of]. rewrite (bind_returned _ _ _ _ H). cbn.
  now rewrite app_nil_r.
Qed.

Lemma for_of_continue {A S : Type} (body : A -> S -> M W E (LoopCtl * S))
      x xs acc w acc' :
  outcome (body x acc w) = Returned (Continue, acc') ->
  for_of body (x :: xs) acc w =
  let rest := for_of body xs acc' (world (body x acc w)) in
  mkRun (outcome rest) (world rest) (emitted (body x acc w) ++ emitted rest).
Proof.
  intros H. cbn [for_of]. rewrite (bind_returned _ _ _ _ H). reflexivity.
Qed.

End Facts.

End EffectFacts.

(* ===================================================================== *)
(** ** Properties of the delivery service *)
(* ===================================================================== *)

Module OutboundFacts.

Import EffectFacts Outbound.

Section Facts.
Context {W : Type}.
Variable getChannel : ChannelId -> W -> option (Channel W).

Abbreviation deliverMessage := (Outbound.deliverMessage getChannel).
Abbreviation deliverMessages := (Outbound.deliverMessages getChannel).
Abbreviation attempt := (Outbound.attempt getChannel).
Abbreviation Attempted := (Outbound.Attempted getChannel).

Definition notFound (target : DeliveryTarget) : string :=
  "Channel not found: " ++ channel target.

Lemma deliverMessage_miss target payload options w :
  getChannel (channel target) w = None ->
  deliverMessage target payload options w =
  if bestEffortOr options
  then mkRun (Returned (mkResult false (channel target) None
                                 (Some (notFound target)) None))
             w
             [EvLog Debug "outbound" "Delivering message";
              EvLog Warn "outbound" (notFound target)]
  else mkRun (Threw (Js.ErrorObj (notFound target))) w
             [EvLog Debug "outbound" "Delivering message";
              EvLog Warn "outbound" (notFound target);
              EvLog Error "outbound" "Message delivery error"].
Proof.
  intros Hmiss.
  unfold Outbound.deliverMessage, Outbound.log, bind, try_catch, observe, emit,
    throw, ret, notFound.
  cbn. rewrite Hmiss. destruct (bestEffortOr options); reflexivity.
Qed.

Definition logDebug : Event W := EvLog Debug "outbound" "Delivering message".

Lemma deliverMessage_sent target payload options w ch sr w1 :
  getChannel (channel target) w = Some ch ->
  sendMessage ch (outboundMessage target payload) w = (Returned sr, w1) ->
  send_success sr = true ->
  deliverMessage target payload options w =
  mkRun (Returned (mkResult true (channel target) (send_messageId sr) None
                            None))
        w1
        [logDebug; EvSend (channel target) (outboundMessage target payload);
         EvLog Info "outbound" "Message delivered"].
Proof.
  intros Hch Hsend Hok.
  unfold Outbound.deliverMessage, Outbound.log, bind, try_catch, observe, emit,
    await, throw, ret.
  cbn. rewrite Hch. cbn. rewrite Hsend. cbn. rewrite Hok. reflexivity.
Qed.

Lemma deliverMessage_send_failed target payload options w ch sr w1 :
  getChannel (channel target) w = Some ch ->
  sendMessage ch (outboundMessage target payload) w = (Returned sr, w1) ->
  send_success sr = false ->
  deliverMessage target payload options w =
  if bestEffortOr options
  then mkRun (Returned (mkResult false (channel target) None (send_error sr)
                                 None))
             w1
             [logDebug;
              EvSend (channel target) (outboundMessage target payload);
              EvLog Warn "outbound" "Message delivery failed"]
  else mkRun (Threw (Js.ErrorObj (Js.nullish (send_error sr) "Unknown error")))
             w1
             [logDebug;
              EvSend (channel target) (outboundMessage target payload);
              EvLog Warn "outbound" "Message delivery failed";
              EvLog Error "outbound" "Message delivery error"].
Proof.
  intros Hch Hsend Hok.
  unfold Outbound.deliverMessage, Outbound.log, bind, try_catch, observe, emit,
    await, throw, ret.
  cbn. rewrite Hch. cbn. rewrite Hsend. cbn. rewrite Hok.
  destruct (bestEffortOr options); reflexivity.
Qed.

Lemma deliverMessage_send_threw target payload options w ch err w1 :
  getChannel (channel target) w = Some ch ->
  sendMessage ch (outboundMessage target payload) w = (Threw err, w1) ->
  deliverMessage target payload options w =
  if bestEffortOr options
  then mkRun (Returned (mkResult false (channel target) None
                                 (Some (Js.errMessage err)) (Some err)))
             w1
             [logDebug;
              EvSend (channel target) (outboundMessage target payload);
              EvLog Error "outbound" "Message delivery error"]
  else mkRun (Threw err) w1
             [logDebug;
              EvSend (channel target) (outboundMessage target payload);
              EvLog Error "outbound" "Message delivery error"].
Proof.
  intros Hch Hsend.
  unfold Outbound.deliverMessage, Outbound.log, bind, try_catch, observe, emit,
    await, throw, ret.
  cbn. rewrite Hch. cbn. rewrite Hsend. cbn.
  destruct (bestEffortOr options); reflexivity.
Qed.

Lemma bestEffortOr_with (options : option (DeliveryOptions W)) :
  bestEffortOr (Some (withBestEffort options)) = true.
Proof. destruct options; reflexivity. Qed.

(** In best-effort mode [deliverMessage] returns whatever the registry and
    the channel do. *)
Lemma attempt_returns target options payload w :
  exists r, outcome (attempt target options payload w) = Returned r.
Proof.
  unfold Outbound.attempt.
  destruct (getChannel (channel target) w) as [ch|] eqn:Hch.
  - destruct (sendMessage ch (outboundMessage target payload) w)
      as [[sr|err] w1] eqn:Hsend.
    + destruct (send_success sr) eqn:Hok.
      * erewrite deliverMessage_sent by eassumption. eexists; reflexivity.
      * erewrite deliverMessage_send_failed by eassumption.
        rewrite bestEffortOr_with. eexists; reflexivity.
    + erewrite deliverMessage_send_threw by eassumption.
      rewrite bestEffortOr_with. eexists; reflexivity.
  - rewrite deliverMessage_miss by assumption.
    rewrite bestEffortOr_with. eexists; reflexivity.
Qed.

Abbreviation body := (Outbound.deliverMessages_body getChannel).

(** ** One iteration of the loop *)

Lemma body_abort target options payload acc w :
  abortRequested options w = true ->
  body target options payload acc w =
  mkRun (Returned (Break, (acc ++ [abortedResult target])%list)) w [].
Proof.
  intros Hab. unfold Outbound.deliverMessages_body, bind, observe.
  cbn. rewrite Hab. reflexivity.
Qed.

(** Whether the loop leaves after recording [r]. *)
Definition ctlAfter (options : option (DeliveryOptions W))
           (r : DeliveryResult) : LoopCtl :=
  if negb (success r) && negb (optBestEffort options)
  then Break else Continue.

Lemma body_attempt target options payload acc w r :
  abortRequested options w = false ->
  outcome (attempt target options payload w) = Returned r ->
  body target options payload acc w =
  mkRun (Returned (ctlAfter options r, (acc ++ [r])%list))
        (world (attempt target options payload w))
        (emitted (attempt target options payload w)).
Proof.
  intros Hab Hr. unfold Outbound.deliverMessages_body.
  unfold Outbound.attempt in *.
  unfold bind at 1. unfold observe at 1. cbn. rewrite Hab.
  rewrite try_catch_returned with
    (a := (ctlAfter options r, (acc ++ [r])%list)).
  - rewrite (bind_returned _ _ _ _ Hr). unfold ctlAfter.
    destruct (negb (success r) && negb (optBestEffort options));
      cbn; now rewrite app_nil_r.
  - rewrite (bind_returned _ _ _ _ Hr). unfold ctlAfter.
    destruct (negb (success r) && negb (optBestEffort options));
      reflexivity.
Qed.

Lemma ctlAfter_continue (options : option (DeliveryOptions W)) r rs :
  allContinued options (r :: rs) -> ctlAfter options r = Continue.
Proof.
  unfold allContinued, ctlAfter. intros [Hbe | Hall].
  - rewrite Hbe. cbn. now rewrite andb_false_r.
  - inversion Hall as [|? ? Hr ?]; subst. now rewrite Hr.
Qed.

Lemma allContinued_tail (options : option (DeliveryOptions W)) r rs :
  allContinued options (r :: rs) -> allContinued options rs.
Proof.
  unfold allContinued. intros [Hbe | Hall]; [now left | right].
  now inversion Hall.
Qed.

(** ** The loop reaches a fired signal *)

Lemma loop_reaches_abort target options pre p post rs w w1 evs :
  Attempted target options w pre rs w1 evs ->
  allContinued options rs ->
  abortRequested options w1 = true ->
  forall acc,
    for_of (body target options) (pre ++ p :: post) acc w =
    mkRun (Returned (acc ++ rs ++ [abortedResult target])%list) w1 evs.
Proof.
  induction 1 as [w|w payload payloads r rs w' evs Hab Hr Hrest IH];
    intros Hcont Hfired acc.
  - cbn [app].
    pose proof (body_abort target options p acc w Hfired) as Hb.
    rewrite (for_of_break _ _ _ _ _ (acc ++ [abortedResult target])%list)
      by (now rewrite Hb).
    now rewrite Hb.
  - cbn [app].
    pose proof (body_attempt target options payload acc w r Hab Hr) as Hb.
    rewrite (ctlAfter_continue _ _ _ Hcont) in Hb.
    rewrite (for_of_continue _ _ _ _ _ (acc ++ [r])%list)
      by (now rewrite Hb).
    rewrite Hb. cbv zeta. cbn [outcome world emitted].
    rewrite IH by (eauto using allContinued_tail).
    cbn [outcome world emitted]. now rewrite <- app_assoc.
Qed.

Lemma Attempted_length target options w ps rs w' evs :
  Attempted target options w ps rs w' evs -> length rs = length ps.
Proof. induction 1; cbn; congruence. Qed.

Lemma ctlAfter_break (options : option (DeliveryOptions W)) r :
  ctlAfter options r = Break ->
  success r = false /\ optBestEffort options = false.
Proof.
  unfold ctlAfter. destruct (success r), (optBestEffort options); cbn;
    intros H; try discriminate; auto.
Qed.

Lemma ctlAfter_cont (options : option (DeliveryOptions W)) r :
  ctlAfter options r = Continue ->
  optBestEffort options = true \/ success r = true.
Proof.
  unfold ctlAfter. destruct (success r), (optBestEffort options); cbn;
    intros H; try discriminate; auto.
Qed.

(** ** The loop as a whole *)

(** From any array [acc] built so far, the loop returns [acc] followed by
    the results [rs] of the first [n] payloads and, when the signal had
    fired before payload [n + 1], the synthetic result. *)
Lemma loop_spec target options :
  forall payloads acc w,
  exists n rs tail,
    outcome (for_of (body target options) payloads acc w) =
      Returned (acc ++ rs ++ tail)%list /\
    Attempted target options w (firstn n payloads) rs
              (world (for_of (body target options) payloads acc w))
              (emitted (for_of (body target options) payloads acc w)) /\
    n <= length payloads /\
    (tail = [] \/
     tail = [abortedResult target] /\ n < length payloads /\
     abortRequested options
       (world (for_of (body target options) payloads acc w)) = true /\
     allContinued options rs) /\
    (optBestEffort options = false ->
     Forall (fun r => success r = true) (removelast rs)) /\
    (tail = [] -> n < length payloads ->
     optBestEffort options = false /\
     exists rs0 r, rs = (rs0 ++ [r])%list /\ success r = false) /\
    (tail = [] -> optBestEffort options = true -> n = length payloads).
Proof.
  induction payloads as [|p ps IH]; intros acc w.
  - exists 0, [], []. cbn. rewrite app_nil_r.
    split; [reflexivity|]. split; [constructor|]. split; [lia|].
    split; [now left|]. split; [intros _; constructor|].
    split; [intros _ H; inversion H|reflexivity].
  - destruct (abortRequested options w) eqn:Hab.
    + pose proof (body_abort target options p acc w Hab) as Hb.
      rewrite (for_of_break _ _ _ _ _ (acc ++ [abortedResult target])%list)
        by (now rewrite Hb).
      rewrite Hb. cbn [outcome world emitted].
      exists 0, [], [abortedResult target].
      cbn [firstn app length removelast].
      split; [reflexivity|]. split; [constructor|]. split; [lia|].
      split.
      { right. repeat split; auto; [lia|]. right. constructor. }
      split; [intros _; constructor|].
      split; discriminate.
    + destruct (attempt_returns target options p w) as [r Hr].
      pose proof (body_attempt target options p acc w r Hab Hr) as Hb.
      destruct (ctlAfter options r) eqn:Hctl.
      * rewrite (for_of_continue _ _ _ _ _ (acc ++ [r])%list)
          by (now rewrite Hb).
        rewrite Hb. cbv zeta. cbn [outcome world emitted].
        destruct (IH (acc ++ [r])%list
                     (world (attempt target options p w)))
          as (n & rs & tail & Hout & Hatt & Hn & Htail & Hsucc & Hstop & Hall).
        exists (S n), (r :: rs), tail.
        split; [rewrite Hout; now rewrite <- app_assoc|].
        split; [cbn [firstn]; now constructor|].
        split; [cbn; lia|].
        split.
        { destruct Htail as [->|(-> & Hlt & Hfired & Hcont)]; [now left|right].
          repeat split; auto; [cbn; lia|].
          destruct (ctlAfter_cont _ _ Hctl) as [Hbe|Hok]; [now left|].
          destruct Hcont as [Hbe|Hrs]; [now left|right]. now constructor. }
        split.
        { intros Hbe. specialize (Hsucc Hbe).
          destruct rs as [|r' rs']; [constructor|].
          change (removelast (r :: r' :: rs'))
            with (r :: removelast (r' :: rs')).
          constructor; auto.
          destruct (ctlAfter_cont _ _ Hctl) as [Hbe'|Hok]; congruence. }
        split.
        { intros Ht Hlt. cbn in Hlt.
          destruct (Hstop Ht ltac:(lia)) as (Hbe & rs0 & r' & -> & Hfail).
          split; auto. now exists (r :: rs0), r'. }
        intros Ht Hbe. cbn. f_equal. auto.
      * rewrite (for_of_break _ _ _ _ _ (acc ++ [r])%list)
          by (now rewrite Hb).
        rewrite Hb. cbn [outcome world emitted].
        destruct (ctlAfter_break _ _ Hctl) as [Hfail Hbe].
        exists 1, [r], []. cbn [firstn app].
        split; [reflexivity|].
        split.
        { rewrite <- (app_nil_r (emitted (attempt target options p w))).
          constructor; auto. constructor. }
        split; [cbn; lia|].
        split; [now left|].
        split; [intros _; constructor|].
        split.
        { intros _ _. split; auto. now exists [], r. }
        intros _ Hbe'. congruence.
Qed.

Lemma loop_first target options p ps w r :
  abortRequested options w = false ->
  outcome (attempt target options p w) = Returned r ->
  exists more,
    outcome (deliverMessages target (p :: ps) options w) =
      Returned (r :: more) /\
    (optBestEffort options = false -> success r = false -> more = []).
Proof.
  intros Hab Hr. unfold Outbound.deliverMessages.
  pose proof (body_attempt target options p [] w r Hab Hr) as Hb.
  cbn [app] in Hb.
  destruct (ctlAfter options r) eqn:Hctl.
  - rewrite (for_of_continue _ _ _ _ _ [r]) by (now rewrite Hb).
    rewrite Hb. cbv zeta. cbn [outcome world emitted].
    destruct (loop_spec target options ps [r]
                        (world (attempt target options p w)))
      as (n & rs & tail & Hout & _).
    exists (rs ++ tail)%list. split; [now rewrite Hout|].
    intros Hbe Hfail. destruct (ctlAfter_cont _ _ Hctl); congruence.
  - rewrite (for_of_break _ _ _ _ _ [r]) by (now rewrite Hb).
    exists []. split; auto.
Qed.

Lemma attempt_miss target options payload w :
  getChannel (channel target) w = None ->
  outcome (attempt target options payload w) =
  Returned (mkResult false (channel target) None (Some (notFound target))
                     None).
Proof.
  intros H. unfold Outbound.attempt.
  rewrite deliverMessage_miss by assumption.
  now rewrite bestEffortOr_with.
Qed.

Lemma attempt_send_failed target options payload w ch sr w1 :
  getChannel (channel target) w = Some ch ->
  sendMessage ch (outboundMessage target payload) w = (Returned sr, w1) ->
  send_success sr = false ->
  outcome (attempt target options payload w) =
  Returned (mkResult false (channel target) None (send_error sr) None).
Proof.
  intros Hch Hsend Hok. unfold Outbound.attempt.
  erewrite deliverMessage_send_failed by eassumption.
  now rewrite bestEffortOr_with.
Qed.

Lemma attempt_send_threw target options payload w ch err w1 :
  getChannel (channel target) w = Some ch ->
  sendMessage ch (outboundMessage target payload) w = (Threw err, w1) ->
  outcome (attempt target options payload w) =
  Returned (mkResult false (channel target) None (Some (Js.errMessage err))
                     (Some err)).
Proof.
  intros Hch Hsend. unfold Outbound.attempt.
  erewrite deliverMessage_send_threw by eassumption.
  now rewrite bestEffortOr_with.
Qed.

Lemma deliverMessages_returns target payloads options w :
  exists results,
    outcome (deliverMessages target payloads options w) = Returned results.
Proof.
  destruct (loop_spec target options payloads [] w)
    as (n & rs & tail & Hout & _).
  now exists (rs ++ tail)%list.
Qed.

(** ** The claims about [deliverMessage] and [deliverMessages] *)

(** C2: [deliverMessages] reads the abort signal before each payload.  When
    the first [k - 1] payloads ([pre]) were attempted, the loop going on
    after each, and the signal has fired in the world they left, the call
    returns their [k - 1] results followed by one synthetic failed result
    whose error is "Aborted": a list of length [k] with that result at
    index [k - 1].  The world and the events are those of the first
    [k - 1] attempts: no further payload is attempted. *)
Theorem deliverMessages_abort target options pre p post rs w w1 evs :
  Attempted target options w pre rs w1 evs ->
  allContinued options rs ->
  abortRequested options w1 = true ->
  deliverMessages target (pre ++ p :: post) options w =
    mkRun (Returned (rs ++ [abortedResult target])%list) w1 evs /\
  length (rs ++ [abortedResult target]) = S (length pre) /\
  nth_error (rs ++ [abortedResult target]) (length pre) =
    Some (abortedResult target) /\
  success (abortedResult target) = false /\
  error (abortedResult target) = Some "Aborted".
Proof.
  intros Hatt Hcont Hfired.
  pose proof (Attempted_length _ _ _ _ _ _ _ Hatt) as Hlen.
  split.
  - unfold Outbound.deliverMessages.
    now rewrite (loop_reaches_abort target options pre p post rs w w1 evs).
  - split; [rewrite length_app; cbn; lia|].
    split; [|split; reflexivity].
    rewrite nth_error_app2 by lia.
    rewrite Hlen, Nat.sub_diag. reflexivity.
Qed.

(** C3: [deliverMessages] never throws and attempts the payloads one after
    the other in the order supplied: it returns the results [rs] of the
    first [n] payloads, result [i] being what the attempt at payload [i]
    returned in the world left by the attempt at payload [i - 1], followed
    by the synthetic "Aborted" result when the signal was found fired
    before payload [n + 1].  With [bestEffort] unset or false every result
    but the last is a success, and fewer results than payloads without an
    abort means that the last result is a failure the loop stopped at.
    With [bestEffort] true and no abort (no synthetic result, as when the
    signal is absent or never fires) there are as many results as
    payloads. *)
Theorem deliverMessages_sequential target payloads options w :
  exists n rs tail,
    outcome (deliverMessages target payloads options w) =
      Returned (rs ++ tail)%list /\
    Attempted target options w (firstn n payloads) rs
              (world (deliverMessages target payloads options w))
              (emitted (deliverMessages target payloads options w)) /\
    n <= length payloads /\
    length rs = n /\
    (tail = [] \/
     tail = [abortedResult target] /\ n < length payloads /\
     abortRequested options
       (world (deliverMessages target payloads options w)) = true) /\
    ((forall w', abortRequested options w' = false) -> tail = []) /\
    (optBestEffort options = false ->
     Forall (fun r => success r = true) (removelast rs)) /\
    (tail = [] -> n < length payloads ->
     optBestEffort options = false /\
     exists rs0 r, rs = (rs0 ++ [r])%list /\ success r = false) /\
    (tail = [] -> optBestEffort options = true ->
     length (rs ++ tail) = length payloads).
Proof.
  unfold Outbound.deliverMessages.
  destruct (loop_spec target options payloads [] w)
    as (n & rs & tail & Hout & Hatt & Hn & Htail & Hsucc & Hstop & Hall).
  exists n, rs, tail. cbn [app] in Hout.
  pose proof (Attempted_length _ _ _ _ _ _ _ Hatt) as Hlen.
  rewrite length_firstn, Nat.min_l in Hlen by assumption.
  repeat split; auto.
  - destruct Htail as [->|(-> & Hlt & Hfired & _)]; [now left|right; auto].
  - intros Hnever.
    destruct Htail as [->|(_ & _ & Hfired & _)]; [reflexivity|].
    rewrite Hnever in Hfired. discriminate.
  - now apply Hstop.
  - now apply Hstop.
  - intros -> Hbe. rewrite app_nil_r, Hlen. auto.
Qed.

(** C4, as the code has it: on a lookup miss [deliverMessage] throws
    [Error("Channel not found: <id>")] when [bestEffort] is unset or false
    and returns a failed result carrying that text when it is true; when
    [sendMessage] resolves with [success = false] it throws an [Error]
    whose message is the send's [error], or "Unknown error" when the send
    carries none, when [bestEffort] is unset or false, and returns a failed
    result carrying the send's [error] (absent when absent) when it is
    true. *)
Theorem deliverMessage_failure_modes target payload options w :
  (getChannel (channel target) w = None ->
   prefix "Channel not found" (notFound target) = true /\
   (bestEffortOr options = false ->
    outcome (deliverMessage target payload options w) =
    Threw (Js.ErrorObj (notFound target))) /\
   (bestEffortOr options = true ->
    outcome (deliverMessage target payload options w) =
    Returned (mkResult false (channel target) None (Some (notFound target))
                       None))) /\
  (forall ch sr w1,
     getChannel (channel target) w = Some ch ->
     sendMessage ch (outboundMessage target payload) w = (Returned sr, w1) ->
     send_success sr = false ->
     (bestEffortOr options = false ->
      outcome (deliverMessage target payload options w) =
      Threw (Js.ErrorObj (Js.nullish (send_error sr) "Unknown error"))) /\
     (bestEffortOr options = true ->
      outcome (deliverMessage target payload options w) =
      Returned (mkResult false (channel target) None (send_error sr) None))).
Proof.
  split.
  - intros Hmiss. rewrite deliverMessage_miss by assumption.
    split; [reflexivity|]. split; intros ->; reflexivity.
  - intros ch sr w1 Hch Hsend Hok.
    erewrite deliverMessage_send_failed by eassumption.
    split; intros ->; reflexivity.
Qed.

(** C10: [deliverMessages], and with it [deliverOutboundPayloads], always
    returns, whatever [bestEffort] is: a lookup miss, a send that resolves
    with [success = false] and a send that throws each come back as the
    failed result of their payload, which is the last result when
    [bestEffort] is unset or false. *)
Theorem deliverMessages_never_throws target payloads options w :
  (exists results,
     outcome (deliverMessages target payloads options w) = Returned results) /\
  (forall params, exists results,
     outcome (Outbound.deliverOutboundPayloads getChannel params w) =
     Returned results) /\
  (forall payload rest,
     payloads = payload :: rest ->
     abortRequested options w = false ->
     getChannel (channel target) w = None ->
     exists more,
       outcome (deliverMessages target payloads options w) =
       Returned (mkResult false (channel target) None
                          (Some (notFound target)) None :: more) /\
       (optBestEffort options = false -> more = [])) /\
  (forall payload rest ch sr w1,
     payloads = payload :: rest ->
     abortRequested options w = false ->
     getChannel (channel target) w = Some ch ->
     sendMessage ch (outboundMessage target payload) w = (Returned sr, w1) ->
     send_success sr = false ->
     exists more,
       outcome (deliverMessages target payloads options w) =
       Returned (mkResult false (channel target) None (send_error sr) None
                   :: more) /\
       (optBestEffort options = false -> more = [])) /\
  (forall payload rest ch err w1,
     payloads = payload :: rest ->
     abortRequested options w = false ->
     getChannel (channel target) w = Some ch ->
     sendMessage ch (outboundMessage target payload) w = (Threw err, w1) ->
     exists more,
       outcome (deliverMessages target payloads options w) =
       Returned (mkResult false (channel target) None
                          (Some (Js.errMessage err)) (Some err) :: more) /\
       (optBestEffort options = false -> more = [])).
Proof.
  split; [apply deliverMessages_returns|].
  split.
  { intros params. unfold Outbound.deliverOutboundPayloads.
    destruct (op_payloads params); [now eexists|].
    apply deliverMessages_returns. }
  split; [|split].
  - intros payload rest -> Hab Hmiss.
    destruct (loop_first target options payload rest w _ Hab
                (attempt_miss target options payload w Hmiss))
      as (more & Hout & Hstop).
    exists more. split; auto.
  - intros payload rest ch sr w1 -> Hab Hch Hsend Hok.
    destruct (loop_first target options payload rest w _ Hab
                (attempt_send_failed target options payload w ch sr w1
                                     Hch Hsend Hok))
      as (more & Hout & Hstop).
    exists more. split; auto.
  - intros payload rest ch err w1 -> Hab Hch Hsend.
    destruct (loop_first target options payload rest w _ Hab
                (attempt_send_threw target options payload w ch err w1
                                    Hch Hsend))
      as (more & Hout & Hstop).
    exists more. split; auto.
Qed.

End Facts.

(** ** The repository's tests and the spec's scenarios, on the model *)

Import Fixtures.

Definition delivered (channelId : ChannelId) (messageId : string)
  : DeliveryResult :=
  mkResult true channelId (Some messageId) None None.

Definition failed (channelId : ChannelId) (err : string) : DeliveryResult :=
  mkResult false channelId None (Some err) None.

Definition three : list DeliveryPayload :=
  [say "Message 1"; say "Message 2"; say "Message 3"].

Example test_stop_on_first_failure :
  outcome (deliverMessages registry (toUser "wecom") three None 0) =
  Returned [delivered "wecom" "msg"; failed "wecom" "Failed"].
Proof. reflexivity. Qed.

Example test_continue_with_bestEffort :
  outcome (deliverMessages registry (toUser "wecom") three
                           (options true None) 0) =
  Returned [delivered "wecom" "msg"; failed "wecom" "Failed";
            delivered "wecom" "msg"].
Proof. reflexivity. Qed.

Example test_respect_abort_signal :
  outcome (deliverMessages registry (toUser "dingtalk") three
                           (options false (Some (firedAfter 0))) 0) =
  Returned [failed "dingtalk" "Aborted"].
Proof. reflexivity. Qed.

Example test_empty_payloads :
  deliverOutboundPayloads registry
    (mkOutboundParams "dingtalk" "user123" None [] None None) 0 =
  mkRun (Returned []) 0 [].
Proof. reflexivity. Qed.

(** Scenario S5: the signal fires after the first payload went out. *)
Lemma deliverMessages_abort_S5 :
  deliverMessages registry (toUser "dingtalk") three
                  (options false (Some (firedAfter 1))) 0 =
  mkRun (Returned [delivered "dingtalk" "m-42"; failed "dingtalk" "Aborted"])
        1
        [EvLog Debug "outbound" "Delivering message";
         EvSend "dingtalk" (mkOutboundMessage "u1" "Message 1" None None);
         EvLog Info "outbound" "Message delivered"] /\
  length [delivered "dingtalk" "m-42"; failed "dingtalk" "Aborted"] = 2 /\
  nth_error [delivered "dingtalk" "m-42"; failed "dingtalk" "Aborted"] 1 =
    Some (failed "dingtalk" "Aborted").
Proof.
  assert (Hatt : Attempted registry (toUser "dingtalk")
                           (options false (Some (firedAfter 1))) 0
                           [say "Message 1"] [delivered "dingtalk" "m-42"] 1
                           (emitted (attempt registry (toUser "dingtalk")
                                             (options false
                                                (Some (firedAfter 1)))
                                             (say "Message 1") 0) ++ [])).
  { apply (Attempted_cons registry (toUser "dingtalk")
                          (options false (Some (firedAfter 1))) 0
                          (say "Message 1") [] (delivered "dingtalk" "m-42")
                          [] 1 []);
      [reflexivity|reflexivity|apply Attempted_nil]. }
  assert (Hcont : allContinued (options false (Some (firedAfter 1)))
                               [delivered "dingtalk" "m-42"]).
  { right. constructor; [reflexivity|constructor]. }
  destruct (deliverMessages_abort registry (toUser "dingtalk")
              (options false (Some (firedAfter 1)))
              [say "Message 1"] (say "Message 2") [say "Message 3"]
              _ 0 1 _ Hatt Hcont eq_refl)
    as (Hrun & Hlen & Hnth & _).
  split; [exact Hrun|]. split; [exact Hlen|exact Hnth].
Defined.

(** The repository's tests of [deliverMessage], through the theorem. *)
Lemma deliverMessage_failure_modes_tests :
  outcome (deliverMessage registry (toUser "unknown") (say "Hello") None 0) =
    Threw (Js.ErrorObj "Channel not found: unknown") /\
  outcome (deliverMessage registry (toUser "unknown") (say "Hello")
                          (options true None) 0) =
    Returned (failed "unknown" "Channel not found: unknown") /\
  outcome (deliverMessage registry (toUser "feishu") (say "Hello") None 0) =
    Threw (Js.ErrorObj "Network error") /\
  outcome (deliverMessage registry (toUser "feishu") (say "Hello")
                          (options true None) 0) =
    Returned (failed "feishu" "Network error").
Proof.
  split; [|split; [|split]].
  - exact (proj1 (proj2 (proj1 (deliverMessage_failure_modes
                                  registry (toUser "unknown") (say "Hello")
                                  None 0) eq_refl)) eq_refl).
  - exact (proj2 (proj2 (proj1 (deliverMessage_failure_modes
                                  registry (toUser "unknown") (say "Hello")
                                  (options true None) 0) eq_refl)) eq_refl).
  - exact (proj1 (proj2 (deliverMessage_failure_modes
                           registry (toUser "feishu") (say "Hello") None 0)
                        (refusing (Some "Network error"))
                        (mkSendResult false None (Some "Network error")) 1
                        eq_refl eq_refl eq_refl) eq_refl).
  - exact (proj2 (proj2 (deliverMessage_failure_modes
                           registry (toUser "feishu") (say "Hello")
                           (options true None) 0)
                        (refusing (Some "Network error"))
                        (mkSendResult false None (Some "Network error")) 1
                        eq_refl eq_refl eq_refl) eq_refl).
Defined.

(** C4 as stated fails: a send that resolves with [success = false] and no
    [error] makes the call fail with "Unknown error", which is not an
    error of the send. *)
Lemma deliverMessage_unknown_error :
  ~ (forall (W : Type) (getChannel : ChannelId -> W -> option (Channel W))
            target payload w ch sr w1,
       getChannel (channel target) w = Some ch ->
       sendMessage ch (outboundMessage target payload) w = (Returned sr, w1) ->
       send_success sr = false ->
       exists err,
         outcome (deliverMessage getChannel target payload None w) =
           Threw err /\
         send_error sr = Some (Js.errMessage err)).
Proof.
  intros Hclaim.
  destruct (Hclaim nat registry (toUser "qq") (say "Hello") 0 (refusing None)
                   (mkSendResult false None None) 1
                   eq_refl eq_refl eq_refl) as (err & _ & Herr).
  discriminate Herr.
Qed.

(** The cases of C10 on the stub registry: an unregistered channel and a
    refusing one, in stop-on-failure mode. *)
Lemma deliverMessages_never_throws_tests :
  (exists results,
     outcome (deliverMessages registry (toUser "unknown") three None 0) =
     Returned results) /\
  outcome (deliverMessages registry (toUser "unknown") three None 0) =
    Returned [failed "unknown" "Channel not found: unknown"] /\
  outcome (deliverMessages registry (toUser "feishu") three None 0) =
    Returned [failed "feishu" "Network error"].
Proof.
  pose proof (deliverMessages_never_throws registry (toUser "unknown") three
                                           None 0)
    as (Hret & _ & Hmiss & _).
  pose proof (deliverMessages_never_throws registry (toUser "feishu") three
                                           None 0)
    as (_ & _ & _ & Hfail & _).
  split; [exact Hret|]. split.
  - destruct (Hmiss _ _ eq_refl eq_refl eq_refl) as (more & Hout & Hstop).
    rewrite (Hstop eq_refl) in Hout. exact Hout.
  - destruct (Hfail _ _ (refusing (Some "Network error"))
                    (mkSendResult false None (Some "Network error")) 1
                    eq_refl eq_refl eq_refl eq_refl eq_refl)
      as (more & Hout & Hstop).
    rewrite (Hstop eq_refl) in Hout. exact Hout.
Defined.

End OutboundFacts.

(* ===================================================================== *)
(** ** Facts about strings and arrays *)
(* ===================================================================== *)

Module JsFacts.


Lemma byteOf_bounded c : (Js.byteOf c < 256)%N.
Proof. apply N_ascii_bounded. Qed.

Lemma byteOf_chr n : (n < 256)%N -> Js.byteOf (Js.chr n) = n.
Proof. apply N_ascii_embedding. Qed.

Lemma chr_byteOf c : Js.chr (Js.byteOf c) = c.
Proof. apply ascii_N_embedding. Qed.

Lemma append_empty s : s ++ EmptyString = s.
Proof. induction s as [|c s IH]; cbn; [reflexivity|now rewrite IH]. Qed.

(** One step of [codeUnits]. *)
Lemma codeUnits_step c1 s1 :
  Js.codeUnits (String c1 s1) =
  if (Js.byteOf c1 <? 128)%N then Js.byteOf c1 :: Js.codeUnits s1
  else
    match s1 with
    | EmptyString => Js.byteOf c1 :: Js.codeUnits s1
    | String c2 s2 =>
        match Js.decode2 (Js.byteOf c1) (Js.byteOf c2) with
        | Some u => u :: Js.codeUnits s2
        | None =>
            match s2 with
            | EmptyString => Js.byteOf c1 :: Js.codeUnits s1
            | String c3 s3 =>
                match Js.decode3 (Js.byteOf c1) (Js.byteOf c2) (Js.byteOf c3)
                with
                | Some u => u :: Js.codeUnits s3
                | None =>
                    match s3 with
                    | EmptyString => Js.byteOf c1 :: Js.codeUnits s1
                    | String c4 s4 =>
                        match Js.decode4 (Js.byteOf c1) (Js.byteOf c2)
                                         (Js.byteOf c3) (Js.byteOf c4)
                        with
                        | Some (hi, lo) => hi :: lo :: Js.codeUnits s4
                        | None => Js.byteOf c1 :: Js.codeUnits s1
                        end
                    end
                end
            end
        end
    end.
Proof. reflexivity. Qed.

Ltac dlia := zify; Z.to_euclidean_division_equations; lia.

Ltac compare :=
  repeat match goal with
         | |- context [(?a <=? ?b)%N] =>
             first [rewrite (proj2 (N.leb_le a b)) by (lia || dlia)
                   |rewrite (proj2 (N.leb_gt a b)) by (lia || dlia)]
         | |- context [(?a <? ?b)%N] =>
             first [rewrite (proj2 (N.ltb_lt a b)) by (lia || dlia)
                   |rewrite (proj2 (N.ltb_ge a b)) by (lia || dlia)]
         end.

Lemma decode2_utf8 u :
  (128 <= u < 2048)%N ->
  Js.decode2 (192 + u / 64) (128 + u mod 64) = Some u.
Proof.
  intros Hu. unfold Js.decode2, Js.continuation. compare. cbn [andb].
  f_equal. dlia.
Qed.

Lemma decode2_high b1 b2 : (224 <= b1)%N -> Js.decode2 b1 b2 = None.
Proof. intros Hb. unfold Js.decode2. compare. now rewrite andb_false_r. Qed.

Lemma decode3_utf8 u :
  (2048 <= u < 65536)%N ->
  Js.decode3 (224 + u / 4096) (128 + (u / 64) mod 64) (128 + u mod 64) =
  Some u.
Proof.
  intros Hu. unfold Js.decode3, Js.continuation. compare. cbn [andb].
  f_equal. dlia.
Qed.

Lemma decode3_high b1 b2 b3 : (240 <= b1)%N -> Js.decode3 b1 b2 b3 = None.
Proof. intros Hb. unfold Js.decode3. compare. now rewrite andb_false_r. Qed.

(** A code point is put together again from its four groups of bits. *)
Lemma reassemble cp :
  ((240 + cp / 262144 - 240) * 262144 +
   (128 + (cp / 4096) mod 64 - 128) * 4096 +
   (128 + (cp / 64) mod 64 - 128) * 64 +
   (128 + cp mod 64 - 128) = cp)%N.
Proof.
  replace (cp / 262144)%N with (cp / 64 / 64 / 64)%N
    by (rewrite !N.Div0.div_div; reflexivity).
  replace (cp / 4096)%N with (cp / 64 / 64)%N
    by (rewrite !N.Div0.div_div; reflexivity).
  pose proof (N.div_mod cp 64 ltac:(discriminate)).
  pose proof (N.div_mod (cp / 64) 64 ltac:(discriminate)).
  pose proof (N.div_mod (cp / 64 / 64) 64 ltac:(discriminate)).
  set (a := (cp / 64 / 64 / 64)%N) in *.
  set (b := ((cp / 64 / 64) mod 64)%N) in *.
  set (c := ((cp / 64) mod 64)%N) in *.
  set (d := (cp mod 64)%N) in *.
  set (e := (cp / 64 / 64)%N) in *.
  set (f := (cp / 64)%N) in *.
  clearbody a b c d e f. lia.
Qed.

Lemma decode4_utf8 hi lo :
  (55296 <= hi < 56320)%N -> (56320 <= lo < 57344)%N ->
  let cp := (65536 + (hi - 55296) * 1024 + (lo - 56320))%N in
  Js.decode4 (240 + cp / 262144) (128 + (cp / 4096) mod 64)
             (128 + (cp / 64) mod 64) (128 + cp mod 64) = Some (hi, lo).
Proof.
  intros Hhi Hlo cp. unfold Js.decode4, Js.continuation.
  assert (Hcp : (65536 <= cp < 1114112)%N) by (unfold cp; lia).
  assert (Hdef : cp = (65536 + (hi - 55296) * 1024 + (lo - 56320))%N)
    by reflexivity.
  rewrite (reassemble cp).
  assert (H1 : (cp / 262144 < 8)%N)
    by (apply N.Div0.div_lt_upper_bound; lia).
  pose proof (N.mod_lt (cp / 4096) 64 ltac:(discriminate)).
  pose proof (N.mod_lt (cp / 64) 64 ltac:(discriminate)).
  pose proof (N.mod_lt cp 64 ltac:(discriminate)).
  set (x1 := (cp / 262144)%N) in *. set (x2 := ((cp / 4096) mod 64)%N) in *.
  set (x3 := ((cp / 64) mod 64)%N) in *. set (x4 := (cp mod 64)%N) in *.
  clearbody x1 x2 x3 x4 cp. compare. cbn [andb].
  replace (cp - 65536)%N with ((hi - 55296) * 1024 + (lo - 56320))%N
    by lia.
  rewrite N.div_add_l by discriminate.
  rewrite (N.add_comm ((hi - 55296) * 1024)), N.Div0.mod_add.
  rewrite N.div_small, N.mod_small by lia.
  f_equal. f_equal; lia.
Qed.

(** Reading back the bytes written for a code unit, or for a surrogate
    pair, gives the code unit, or the pair. *)
Lemma codeUnits_utf8 u s :
  (u < 65536)%N -> Js.codeUnits (Js.utf8 u ++ s) = u :: Js.codeUnits s.
Proof.
  intros Hu. unfold Js.utf8.
  destruct (N.ltb_spec u 128) as [H1|H1];
    [|destruct (N.ltb_spec u 2048) as [H2|H2]];
    cbn [append]; rewrite codeUnits_step.
  - rewrite byteOf_chr by lia. now rewrite (proj2 (N.ltb_lt u 128)).
  - rewrite !byteOf_chr by dlia. rewrite decode2_utf8 by lia.
    now rewrite (proj2 (N.ltb_ge _ 128)) by dlia.
  - rewrite !byteOf_chr by dlia. rewrite decode3_utf8 by lia.
    rewrite decode2_high by dlia.
    now rewrite (proj2 (N.ltb_ge _ 128)) by dlia.
Qed.

Lemma codeUnits_utf8pair hi lo s :
  Js.isHigh hi = true -> Js.isLow lo = true ->
  Js.codeUnits (Js.utf8pair hi lo ++ s) = hi :: lo :: Js.codeUnits s.
Proof.
  unfold Js.isHigh, Js.isLow. intros Hhi Hlo.
  apply andb_prop in Hhi as [Hh1 Hh2], Hlo as [Hl1 Hl2].
  apply N.leb_le in Hh1, Hl1. apply N.ltb_lt in Hh2, Hl2.
  pose proof (decode4_utf8 hi lo (conj Hh1 Hh2) (conj Hl1 Hl2)) as Hd.
  unfold Js.utf8pair. cbv zeta in Hd |- *.
  set (cp := (65536 + (hi - 55296) * 1024 + (lo - 56320))%N) in *.
  assert (Hcp : (65536 <= cp < 1114112)%N) by (unfold cp; lia).
  assert (H1 : (cp / 262144 < 8)%N)
    by (apply N.Div0.div_lt_upper_bound; lia).
  pose proof (N.mod_lt (cp / 4096) 64 ltac:(discriminate)).
  pose proof (N.mod_lt (cp / 64) 64 ltac:(discriminate)).
  pose proof (N.mod_lt cp 64 ltac:(discriminate)).
  set (x1 := (cp / 262144)%N) in *. set (x2 := ((cp / 4096) mod 64)%N) in *.
  set (x3 := ((cp / 64) mod 64)%N) in *. set (x4 := (cp mod 64)%N) in *.
  clearbody x1 x2 x3 x4 cp.
  cbn [append]. rewrite codeUnits_step.
  rewrite !byteOf_chr by lia. rewrite Hd.
  rewrite decode2_high, decode3_high by lia.
  now rewrite (proj2 (N.ltb_ge _ 128)) by lia.
Qed.

(** A code unit has sixteen bits. *)
Definition bounded (u : Js.CodeUnit) : Prop := (u < 65536)%N.

Lemma ofCodeUnits_single u rest :
  Js.isHigh u && match rest with v :: _ => Js.isLow v | [] => false end
    = false ->
  Js.ofCodeUnits (u :: rest) = Js.utf8 u ++ Js.ofCodeUnits rest.
Proof.
  intros H. destruct rest as [|v rest]; cbn [Js.ofCodeUnits].
  - now rewrite append_empty.
  - now rewrite H.
Qed.

(** Every sequence of code units is that of a model string. *)
Lemma codeUnits_ofCodeUnits us :
  Forall bounded us -> Js.codeUnits (Js.ofCodeUnits us) = us.
Proof.
  assert (Hall : forall n us, length us <= n -> Forall bounded us ->
                              Js.codeUnits (Js.ofCodeUnits us) = us).
  { induction n as [|n IH]; intros [|u rest] Hlen Hb; try reflexivity;
      cbn [length] in Hlen; [lia|].
    inversion Hb as [|? ? Hu Hrest]; subst.
    destruct (Js.isHigh u &&
              match rest with v :: _ => Js.isLow v | [] => false end)
      eqn:Hpair.
    - destruct rest as [|v rest]; [now rewrite andb_false_r in Hpair|].
      apply andb_prop in Hpair as [Hhi Hlo].
      cbn [Js.ofCodeUnits]. rewrite Hhi, Hlo. cbn [andb].
      rewrite codeUnits_utf8pair by assumption.
      inversion Hrest; subst. rewrite IH; [reflexivity| |assumption].
      cbn [length] in Hlen. lia.
    - rewrite ofCodeUnits_single by assumption.
      rewrite codeUnits_utf8 by exact Hu.
      rewrite IH; [reflexivity|lia|assumption]. }
  intros Hb. now apply (Hall (length us)).
Qed.

Ltac split_conds :=
  repeat match goal with
         | H : _ && _ = true |- _ => apply andb_prop in H as [? ?]
         end.

Ltac to_props :=
  repeat match goal with
         | H : (_ <=? _)%N = true |- _ => apply N.leb_le in H
         | H : (_ <? _)%N = true |- _ => apply N.ltb_lt in H
         end.

Lemma decode2_bounded b1 b2 u : Js.decode2 b1 b2 = Some u -> bounded u.
Proof.
  unfold Js.decode2, Js.continuation, bounded.
  destruct (_ && _) eqn:Ht; [|discriminate].
  intros Hu.
  assert (Heq : u = ((b1 - 192) * 64 + (b2 - 128))%N) by congruence.
  clear Hu. split_conds. to_props. lia.
Qed.

Lemma decode3_bounded b1 b2 b3 u : Js.decode3 b1 b2 b3 = Some u -> bounded u.
Proof.
  unfold Js.decode3, Js.continuation, bounded.
  destruct (_ && _) eqn:Ht; [|discriminate].
  intros Hu.
  assert (Heq : u = ((b1 - 224) * 4096 + (b2 - 128) * 64 + (b3 - 128))%N)
    by congruence.
  clear Hu. split_conds. to_props. lia.
Qed.

Lemma decode4_bounded b1 b2 b3 b4 hi lo :
  Js.decode4 b1 b2 b3 b4 = Some (hi, lo) -> bounded hi /\ bounded lo.
Proof.
  unfold Js.decode4, bounded. cbv zeta.
  set (cp := (_ + (b4 - 128))%N). clearbody cp.
  destruct (_ && _) eqn:Ht; [|discriminate].
  set (q := ((cp - 65536) / 1024)%N). set (r := ((cp - 65536) mod 1024)%N).
  intros Hu.
  assert (Hhi : hi = (55296 + q)%N) by congruence.
  assert (Hlo : lo = (56320 + r)%N) by congruence.
  clear Hu. split_conds. to_props.
  assert (Hq : (q < 1024)%N)
    by (apply N.Div0.div_lt_upper_bound; lia).
  pose proof (N.mod_lt (cp - 65536) 1024 ltac:(discriminate)) as Hr.
  fold r in Hr. clearbody q r. lia.
Qed.

Lemma codeUnits_bounded s : Forall bounded (Js.codeUnits s).
Proof.
  assert (Hall : forall n s, String.length s <= n ->
                             Forall bounded (Js.codeUnits s)).
  { induction n as [|n IH]; intros [|c1 s1] Hlen; try constructor;
      cbn [String.length] in Hlen; try lia.
    assert (Hsingle : Forall bounded (Js.byteOf c1 :: Js.codeUnits s1)).
    { constructor; [|apply IH; lia].
      pose proof (byteOf_bounded c1). unfold bounded. lia. }
    rewrite codeUnits_step.
    destruct (Js.byteOf c1 <? 128)%N; [exact Hsingle|].
    destruct s1 as [|c2 s2]; [exact Hsingle|].
    destruct (Js.decode2 _ _) as [u|] eqn:H2.
    { constructor; [now apply decode2_bounded in H2|].
      apply IH. cbn [String.length] in Hlen. lia. }
    destruct s2 as [|c3 s3]; [exact Hsingle|].
    destruct (Js.decode3 _ _ _) as [u|] eqn:H3.
    { constructor; [now apply decode3_bounded in H3|].
      apply IH. cbn [String.length] in Hlen. lia. }
    destruct s3 as [|c4 s4]; [exact Hsingle|].
    destruct (Js.decode4 _ _ _ _) as [[hi lo]|] eqn:H4; [|exact Hsingle].
    apply decode4_bounded in H4 as [Hhi Hlo].
    repeat constructor; try assumption.
    apply IH. cbn [String.length] in Hlen. lia. }
  now apply (Hall (String.length s)).
Qed.

Lemma Forall_firstn {A} (P : A -> Prop) n l :
  Forall P l -> Forall P (firstn n l).
Proof.
  intros H. revert n. induction H; intros [|n]; cbn; constructor; auto.
Qed.

Lemma Forall_skipn {A} (P : A -> Prop) n l :
  Forall P l -> Forall P (skipn n l).
Proof.
  intros H. revert n. induction H; intros [|n]; cbn; auto.
Qed.

(** The code units of a slice are those the positions select. *)
Lemma slice_codeUnits start stop s :
  Js.codeUnits (Js.slice start stop s) =
  firstn (stop - start) (skipn start (Js.codeUnits s)).
Proof.
  unfold Js.slice. apply codeUnits_ofCodeUnits.
  apply Forall_firstn, Forall_skipn, codeUnits_bounded.
Qed.

Lemma isHigh_ascii u : (u < 128)%N -> Js.isHigh u = false.
Proof.
  intros Hu. unfold Js.isHigh.
  now rewrite (proj2 (N.leb_gt 55296 u)) by lia.
Qed.

(** On a string of ASCII characters the cut is the cut of the bytes. *)
Lemma slice_ascii n s :
  Js.isAscii s = true -> Js.slice 0 n s = substring 0 n s.
Proof.
  unfold Js.slice. rewrite Nat.sub_0_r. cbn [skipn].
  revert n. induction s as [|c s IH]; intros n Hs.
  - destruct n; reflexivity.
  - cbn [Js.isAscii] in Hs. apply andb_prop in Hs as [Hc Hs].
    rewrite codeUnits_step, Hc.
    destruct n as [|n]; [reflexivity|].
    cbn [firstn substring].
    rewrite ofCodeUnits_single
      by (rewrite isHigh_ascii; [reflexivity|now apply N.ltb_lt]).
    rewrite (IH n Hs). unfold Js.utf8. rewrite Hc.
    now rewrite chr_byteOf.
Qed.

(** A summary of 70 CJK characters is the whole output; astral characters
    count two code units each, and the cut can fall inside one. *)
Definition manyOf (n : nat) (s : string) : string :=
  String.concat EmptyString (repeat s n).

Example slice_cjk :
  Js.slice 0 200 (manyOf 70 "晴") = manyOf 70 "晴" /\
  length (Js.codeUnits (manyOf 70 "晴")) = 70 /\
  length (Js.codeUnits (Js.slice 0 200 (manyOf 250 "晴"))) = 200.
Proof. repeat split; vm_compute; reflexivity. Qed.

Example slice_astral :
  Js.codeUnits "😀" = [55357; 56832]%N /\
  Js.slice 0 200 (manyOf 150 "😀") = manyOf 100 "😀" /\
  Js.codeUnits (Js.slice 0 200 ("a" ++ manyOf 150 "😀")) =
    (97 :: Js.codeUnits (manyOf 99 "😀") ++ [55357])%N.
Proof. repeat split; vm_compute; reflexivity. Qed.

Lemma slice0_length n : forall s,
  String.length (Js.slice0 n s) = Nat.min n (String.length s).
Proof.
  unfold Js.slice0. induction n as [|n IH]; intros s.
  - destruct s; reflexivity.
  - destruct s as [|c s]; [reflexivity|]. cbn. now rewrite IH.
Qed.

Lemma slice0_prefix n : forall s, prefix (Js.slice0 n s) s = true.
Proof.
  unfold Js.slice0. induction n as [|n IH]; intros s.
  - destruct s; reflexivity.
  - destruct s as [|c s]; [reflexivity|]. cbn.
    destruct (ascii_dec c c) as [_|Hne]; [apply IH|now elim Hne].
Qed.

Lemma includes_In xs x : Js.includes xs x = true <-> In x xs.
Proof.
  unfold Js.includes. rewrite existsb_exists. split.
  - intros (y & Hin & Heq). apply String.eqb_eq in Heq. now subst.
  - intros Hin. exists x. split; [assumption|apply String.eqb_refl].
Qed.

Lemma includes_not_In xs x : ~ In x xs -> Js.includes xs x = false.
Proof.
  intros Hn. destruct (Js.includes xs x) eqn:H; [|reflexivity].
  now apply includes_In in H.
Qed.

End JsFacts.

(* ===================================================================== *)
(** ** Properties of the executor *)
(* ===================================================================== *)

Module ExecutorFacts.

Import EffectFacts Executor.

Section Facts.
Context {W : Type}.
Variable agentExecutor : option (AgentExecutor W).
Variable defaultChannel : option ChannelId.
Variable isChannelAvailable : ChannelId -> W -> bool.
Variable deliverOutboundPayloads :
  OutboundParams W -> M W (Event W) (list DeliveryResult).

Abbreviation resolveChannel := (Executor.resolveChannel defaultChannel).
Abbreviation deliverAgentOutput :=
  (Executor.deliverAgentOutput defaultChannel isChannelAvailable
                               deliverOutboundPayloads).
Abbreviation executeAgentTurn :=
  (Executor.executeAgentTurn agentExecutor defaultChannel isChannelAvailable
                             deliverOutboundPayloads).
Abbreviation executeJob :=
  (Executor.executeJob agentExecutor defaultChannel isChannelAvailable
                       deliverOutboundPayloads).

Definition logExec (level : LogLevel) (msg : string) : Event W :=
  EvLog level "cron-executor" msg.

(** [executeJob] adds its log line to what the function it dispatches to
    does, and nothing else. *)
Lemma executeJob_agentTurn job p w :
  job_payload job = AgentTurn p ->
  executeJob job w =
  mkRun (outcome (executeAgentTurn job p w))
        (world (executeAgentTurn job p w))
        (logExec Info "Executing cron job"
           :: emitted (executeAgentTurn job p w)).
Proof.
  intros Hp. unfold Executor.executeJob. rewrite Hp.
  reflexivity.
Qed.

Lemma executeJob_systemEvent job message w :
  job_payload job = SystemEvent message ->
  executeJob job w =
  mkRun (Returned (mkExec StatusOk None (Some "System event executed") None))
        w
        [logExec Info "Executing cron job";
         logExec Info "System event triggered"].
Proof.
  intros Hp. unfold Executor.executeJob. rewrite Hp. reflexivity.
Qed.

Lemma executeJob_otherKind job kind w :
  job_payload job = OtherKind kind ->
  executeJob job w =
  mkRun (Returned (mkExec StatusError
                          (Some ("Unknown payload kind: " ++ kind)) None None))
        w
        [logExec Info "Executing cron job"].
Proof.
  intros Hp. unfold Executor.executeJob. rewrite Hp. reflexivity.
Qed.

(** ** [deliverAgentOutput] *)

Ltac unfold_effects :=
  unfold Executor.log, bind, try_catch, observe, emit, await, throw, ret.

Lemma deliverAgentOutput_no_target job p out w :
  Js.truthy (at_to p) = false ->
  deliverAgentOutput job p out w =
  mkRun (Returned tt) w [logExec Warn "No delivery target specified"].
Proof.
  intros Hto. unfold Executor.deliverAgentOutput.
  destruct (at_to p) as [[|c t]|]; try discriminate; reflexivity.
Qed.

Lemma deliverAgentOutput_no_channel job p out w :
  Js.truthy (at_to p) = true ->
  Js.truthy (resolveChannel (at_channel p)) = false ->
  deliverAgentOutput job p out w =
  mkRun (Returned tt) w [logExec Warn "Invalid or unavailable channel"].
Proof.
  intros Hto Hch. unfold Executor.deliverAgentOutput.
  destruct (at_to p) as [[|c t]|]; try discriminate.
  destruct (resolveChannel (at_channel p)) as [[|c' t']|]; try discriminate;
    reflexivity.
Qed.

Lemma deliverAgentOutput_unavailable job p out w channelId :
  Js.truthy (at_to p) = true ->
  resolveChannel (at_channel p) = Some channelId ->
  Js.truthy (Some channelId) = true ->
  isChannelAvailable channelId w = false ->
  deliverAgentOutput job p out w =
  mkRun (Returned tt) w [logExec Warn "Channel not available"].
Proof.
  intros Hto Hch Hne Hav. unfold Executor.deliverAgentOutput.
  destruct (at_to p) as [[|c t]|]; try discriminate.
  rewrite Hch. destruct channelId as [|c' t']; try discriminate.
  unfold_effects. cbn. rewrite Hav. reflexivity.
Qed.

(** The line logged after the delivery call. *)
Definition deliveryLog (r : Run W (Event W) (list DeliveryResult))
  : Event W :=
  match outcome r with
  | Returned _ => logExec Info "Delivery completed"
  | Threw _ => logExec Error "Delivery failed"
  end.

Lemma deliverAgentOutput_delivers job p out w to channelId :
  at_to p = Some to ->
  Js.truthy (Some to) = true ->
  resolveChannel (at_channel p) = Some channelId ->
  Js.truthy (Some channelId) = true ->
  isChannelAvailable channelId w = true ->
  deliverAgentOutput job p out w =
  mkRun (Returned tt)
        (world (deliverOutboundPayloads (deliveryParams channelId to out) w))
        ([logExec Info "Delivering agent output";
          EvDeliver (deliveryParams channelId to out)]
           ++ emitted (deliverOutboundPayloads
                         (deliveryParams channelId to out) w)
           ++ [deliveryLog (deliverOutboundPayloads
                              (deliveryParams channelId to out) w)]).
Proof.
  intros Hto Hne Hch Hne' Hav. unfold Executor.deliverAgentOutput.
  rewrite Hto, Hch.
  destruct to as [|c t]; try discriminate.
  destruct channelId as [|c' t']; try discriminate.
  unfold_effects. cbn. rewrite Hav. cbn. unfold deliveryLog.
  destruct (outcome (deliverOutboundPayloads _ w)); cbn; reflexivity.
Qed.

Lemma deliverAgentOutput_returns job p out w :
  outcome (deliverAgentOutput job p out w) = Returned tt.
Proof.
  destruct (Js.truthy (at_to p)) eqn:Hto.
  2: now rewrite deliverAgentOutput_no_target.
  destruct (Js.truthy (resolveChannel (at_channel p))) eqn:Hch.
  2: now rewrite deliverAgentOutput_no_channel.
  destruct (resolveChannel (at_channel p)) as [channelId|] eqn:Hres;
    try discriminate.
  destruct (isChannelAvailable channelId w) eqn:Hav.
  2: now erewrite deliverAgentOutput_unavailable by eassumption.
  destruct (at_to p) as [to|] eqn:Hsome; try discriminate.
  now erewrite deliverAgentOutput_delivers by eassumption.
Qed.

(** ** [executeAgentTurn] *)

Lemma executeAgentTurn_skipped job p w :
  agentExecutor = None ->
  executeAgentTurn job p w =
  mkRun (Returned (mkExec StatusSkipped None
                          (Some "No agent executor configured") None))
        w
        [logExec Warn
           "No agent executor configured, skipping agentTurn execution"].
Proof.
  intros Hag. unfold Executor.executeAgentTurn. rewrite Hag. reflexivity.
Qed.

Lemma executeAgentTurn_threw job p w ag err w1 :
  agentExecutor = Some ag ->
  ag (agentParams job p) w = (Threw err, w1) ->
  executeAgentTurn job p w =
  mkRun (Returned (mkExec StatusError (Some (Js.errMessage err)) None None))
        w1
        [logExec Info "Executing agent turn"; EvAgent (agentParams job p);
         logExec Error "Agent executor threw exception"].
Proof.
  intros Hag Hcall. unfold Executor.executeAgentTurn. rewrite Hag.
  unfold_effects. cbn. rewrite Hcall. reflexivity.
Qed.

Lemma executeAgentTurn_failed job p w ag res w1 :
  agentExecutor = Some ag ->
  ag (agentParams job p) w = (Returned res, w1) ->
  agent_success res = false ->
  executeAgentTurn job p w =
  mkRun (Returned (mkExec StatusError
                          (Some (Js.nullish (agent_error res)
                                            "Agent execution failed"))
                          None (Some (agent_output res))))
        w1
        [logExec Info "Executing agent turn"; EvAgent (agentParams job p)].
Proof.
  intros Hag Hcall Hok. unfold Executor.executeAgentTurn. rewrite Hag.
  unfold_effects. cbn. rewrite Hcall. cbn. rewrite Hok. reflexivity.
Qed.

(** Whether the executor goes on to delivery: [deliver && to]. *)
Definition wantsDelivery (p : PayloadAgentTurn) : bool :=
  Js.truthyb (at_deliver p) && Js.truthy (at_to p).

Definition okResult (out : string) : CronExecutionResult :=
  mkExec StatusOk None (Some (Js.slice 0 200 out)) (Some out).

Lemma executeAgentTurn_ok_quiet job p w ag res w1 :
  agentExecutor = Some ag ->
  ag (agentParams job p) w = (Returned res, w1) ->
  agent_success res = true ->
  wantsDelivery p = false ->
  executeAgentTurn job p w =
  mkRun (Returned (okResult (agent_output res))) w1
        [logExec Info "Executing agent turn"; EvAgent (agentParams job p)].
Proof.
  intros Hag Hcall Hok Hgo. unfold Executor.executeAgentTurn. rewrite Hag.
  unfold wantsDelivery in Hgo.
  unfold_effects. cbn. rewrite Hcall. cbn. rewrite Hok. cbn.
  rewrite Hgo. reflexivity.
Qed.

Lemma agent_call_returned (ag : AgentExecutor W) params w res w1
      (h : Js.Thrown -> M W (Event W) (AgentResult + CronExecutionResult)) :
  ag params w = (Returned res, w1) ->
  try_catch (emit (EvAgent params) ;;
             agentResult <- await (ag params) ;;
             ret (inl agentResult)) h w =
  mkRun (Returned (inl res)) w1 [EvAgent params].
Proof.
  intros Hcall. unfold_effects. cbn. rewrite Hcall. reflexivity.
Qed.

Lemma executeAgentTurn_ok_delivery job p w ag res w1 :
  agentExecutor = Some ag ->
  ag (agentParams job p) w = (Returned res, w1) ->
  agent_success res = true ->
  wantsDelivery p = true ->
  executeAgentTurn job p w =
  mkRun (Returned (okResult (agent_output res)))
        (world (deliverAgentOutput job p (agent_output res) w1))
        ([logExec Info "Executing agent turn"; EvAgent (agentParams job p)]
           ++ emitted (deliverAgentOutput job p (agent_output res) w1)).
Proof.
  intros Hag Hcall Hok Hgo. unfold Executor.executeAgentTurn. rewrite Hag.
  unfold wantsDelivery in Hgo.
  rewrite (bind_returned (Executor.log Info "Executing agent turn") _ w tt
                         eq_refl).
  change (world (Executor.log Info "Executing agent turn" w)) with w.
  change (emitted (Executor.log Info "Executing agent turn" w))
    with [logExec Info "Executing agent turn"].
  rewrite (bind_returned _ _ w (inl res))
    by (now rewrite (agent_call_returned ag _ w res w1 _ Hcall)).
  rewrite (agent_call_returned ag _ w res w1 _ Hcall).
  cbn [outcome world emitted]. rewrite Hok. cbn [negb]. rewrite Hgo.
  rewrite (bind_returned _ _ _ _ (deliverAgentOutput_returns job p _ w1)).
  cbn. now rewrite app_nil_r.
Qed.

Definition logJob : Event W := logExec Info "Executing cron job".
Definition logTurn : Event W := logExec Info "Executing agent turn".

(** ** The channel rule *)

Lemma resolveChannel_valid c :
  In c validChannels -> resolveChannel (Some c) = Some c.
Proof.
  unfold validChannels. cbn.
  intros [<-|[<-|[<-|[<-|[<-|[]]]]]]; reflexivity.
Qed.

Lemma resolveChannel_other c :
  c <> EmptyString -> c <> "last" -> ~ In c validChannels ->
  resolveChannel (Some c) = None.
Proof.
  intros Hne Hlast Hout. unfold Executor.resolveChannel.
  destruct c as [|a t]; [now elim Hne|].
  apply String.eqb_neq in Hlast. rewrite Hlast.
  now rewrite JsFacts.includes_not_In.
Qed.

(** ** The claims about [executeJob] *)

(** C1, as the code has it: when the agent callback resolves with
    [success = false], [executeJob] returns status [error], [outputText] the
    callback's output and [error] the callback's error when it has one and
    "Agent execution failed" otherwise.  The run ends in the world the
    callback left, and its events are the two log lines and the callback's
    call: [deliverOutboundPayloads] is not invoked. *)
Theorem executeJob_agent_failure job p w ag res w1 :
  job_payload job = AgentTurn p ->
  agentExecutor = Some ag ->
  ag (agentParams job p) w = (Returned res, w1) ->
  agent_success res = false ->
  executeJob job w =
    mkRun (Returned (mkExec StatusError
                            (Some (Js.nullish (agent_error res)
                                              "Agent execution failed"))
                            None (Some (agent_output res))))
          w1 [logJob; logTurn; EvAgent (agentParams job p)] /\
  (forall e, agent_error res = Some e ->
             outcome (executeJob job w) =
             Returned (mkExec StatusError (Some e) None
                              (Some (agent_output res)))) /\
  existsb isDeliver (emitted (executeJob job w)) = false /\
  existsb isSend (emitted (executeJob job w)) = false.
Proof.
  intros Hp Hag Hcall Hok.
  rewrite (executeJob_agentTurn job p w Hp).
  rewrite (executeAgentTurn_failed job p w ag res w1 Hag Hcall Hok).
  cbn [outcome world emitted]. split; [reflexivity|].
  split; [|split; reflexivity].
  intros e He. now rewrite He.
Qed.

(** C5: when the agent callback resolves with [success = true],
    [executeJob] returns status [ok], [outputText] the callback's output and
    [summary] its first 200 characters, whatever [isChannelAvailable] and
    [deliverOutboundPayloads] do (they are arbitrary here): whether
    delivery was attempted, skipped, failed or threw.  The characters are
    those [slice] counts, UTF-16 code units: the code units of the summary
    are the first 200 of the output's, all of them when it has no more; for
    an output of ASCII characters this is its first 200 bytes.  Every
    sequence of code units is that of some output here
    ([JsFacts.codeUnits_ofCodeUnits]). *)
Theorem executeJob_agent_success job p w ag res w1 :
  job_payload job = AgentTurn p ->
  agentExecutor = Some ag ->
  ag (agentParams job p) w = (Returned res, w1) ->
  agent_success res = true ->
  outcome (executeJob job w) =
    Returned (mkExec StatusOk None (Some (Js.slice 0 200 (agent_output res)))
                     (Some (agent_output res))) /\
  Js.codeUnits (Js.slice 0 200 (agent_output res)) =
    firstn 200 (Js.codeUnits (agent_output res)) /\
  (length (Js.codeUnits (agent_output res)) <= 200 ->
   Js.codeUnits (Js.slice 0 200 (agent_output res)) =
     Js.codeUnits (agent_output res)) /\
  (Js.isAscii (agent_output res) = true ->
   Js.slice 0 200 (agent_output res) = substring 0 200 (agent_output res)).
Proof.
  intros Hp Hag Hcall Hok.
  split; [|split; [apply JsFacts.slice_codeUnits|split]].
  - rewrite (executeJob_agentTurn job p w Hp). cbn [outcome].
    destruct (wantsDelivery p) eqn:Hgo.
    + now rewrite (executeAgentTurn_ok_delivery job p w ag res w1).
    + now rewrite (executeAgentTurn_ok_quiet job p w ag res w1).
  - intros Hlen. rewrite JsFacts.slice_codeUnits. cbn [Nat.sub skipn].
    now apply firstn_all2.
  - apply JsFacts.slice_ascii.
Qed.

(** C6, as the code has it.  After a successful agent callback:
    - when [deliver] is not true or [to] is missing or empty, nothing
      happens after the callback;
    - the channel is resolved by: missing, empty and "last" give the
      configured default channel; an id among dingtalk, feishu, qq, wecom
      and webchat gives itself; any other id gives none;
    - when [deliver && to] holds and the resolved id is none or empty, or
      the channel is not available, one warning is logged and nothing else
      happens;
    - otherwise [deliverOutboundPayloads] is invoked once, with the
      resolved channel, [to], the single payload [{text: output}] and
      [bestEffort = true]. *)
Theorem executeJob_delivery_rule job p w ag res w1 :
  job_payload job = AgentTurn p ->
  agentExecutor = Some ag ->
  ag (agentParams job p) w = (Returned res, w1) ->
  agent_success res = true ->
  (wantsDelivery p = false ->
   executeJob job w =
   mkRun (Returned (okResult (agent_output res))) w1
         [logJob; logTurn; EvAgent (agentParams job p)]) /\
  (resolveChannel None = defaultChannel /\
   resolveChannel (Some EmptyString) = defaultChannel /\
   resolveChannel (Some "last") = defaultChannel /\
   (forall c, In c validChannels -> resolveChannel (Some c) = Some c) /\
   (forall c, c <> EmptyString -> c <> "last" -> ~ In c validChannels ->
              resolveChannel (Some c) = None)) /\
  (wantsDelivery p = true ->
   Js.truthy (resolveChannel (at_channel p)) = false \/
   (exists channelId,
      resolveChannel (at_channel p) = Some channelId /\
      isChannelAvailable channelId w1 = false) ->
   exists line,
     executeJob job w =
     mkRun (Returned (okResult (agent_output res))) w1
           [logJob; logTurn; EvAgent (agentParams job p);
            logExec Warn line]) /\
  (forall to channelId,
     wantsDelivery p = true ->
     at_to p = Some to ->
     resolveChannel (at_channel p) = Some channelId ->
     Js.truthy (Some channelId) = true ->
     isChannelAvailable channelId w1 = true ->
     let params := deliveryParams channelId to (agent_output res) in
     op_channel params = channelId /\
     op_to params = to /\
     op_payloads params = [mkPayload (agent_output res) None None] /\
     op_bestEffort params = Some true /\
     executeJob job w =
     mkRun (Returned (okResult (agent_output res)))
           (world (deliverOutboundPayloads params w1))
           ([logJob; logTurn; EvAgent (agentParams job p);
             logExec Info "Delivering agent output"; EvDeliver params]
              ++ emitted (deliverOutboundPayloads params w1)
              ++ [deliveryLog (deliverOutboundPayloads params w1)])).
Proof.
  intros Hp Hag Hcall Hok.
  split; [|split; [|split]].
  - intros Hgo. rewrite (executeJob_agentTurn job p w Hp).
    now rewrite (executeAgentTurn_ok_quiet job p w ag res w1).
  - repeat split; try reflexivity.
    + apply resolveChannel_valid.
    + apply resolveChannel_other.
  - intros Hgo Hskip. rewrite (executeJob_agentTurn job p w Hp).
    rewrite (executeAgentTurn_ok_delivery job p w ag res w1) by assumption.
    unfold wantsDelivery in Hgo. apply andb_prop in Hgo as [_ Hto].
    destruct Hskip as [Hnone|(channelId & Hres & Hav)].
    + rewrite deliverAgentOutput_no_channel by assumption.
      now eexists.
    + destruct (Js.truthy (Some channelId)) eqn:Hne.
      * erewrite deliverAgentOutput_unavailable by eassumption.
        now eexists.
      * rewrite deliverAgentOutput_no_channel
          by (try assumption; now rewrite Hres).
        now eexists.
  - intros to channelId Hgo Hto Hres Hne Hav params.
    repeat (split; [reflexivity|]).
    rewrite (executeJob_agentTurn job p w Hp).
    rewrite (executeAgentTurn_ok_delivery job p w ag res w1) by assumption.
    unfold wantsDelivery in Hgo. apply andb_prop in Hgo as [_ Hto'].
    rewrite Hto in Hto'.
    now rewrite (deliverAgentOutput_delivers job p _ w1 to channelId).
Qed.

(** C9, as the code has it: [executeJob] always returns, with status [ok],
    [error] or [skipped], whatever the agent callback and delivery do.  A
    payload of another kind gives status [error] with "Unknown payload
    kind: <kind>"; an exception thrown by the agent callback gives status
    [error] with its message; an exception thrown by delivery is logged
    and leaves the result of the successful turn, status [ok], as it is. *)
Theorem executeJob_total job w :
  (exists r,
     outcome (executeJob job w) = Returned r /\
     (status r = StatusOk \/ status r = StatusError \/
      status r = StatusSkipped)) /\
  (forall kind,
     job_payload job = OtherKind kind ->
     outcome (executeJob job w) =
     Returned (mkExec StatusError (Some ("Unknown payload kind: " ++ kind))
                      None None)) /\
  (forall p ag err w1,
     job_payload job = AgentTurn p ->
     agentExecutor = Some ag ->
     ag (agentParams job p) w = (Threw err, w1) ->
     outcome (executeJob job w) =
     Returned (mkExec StatusError (Some (Js.errMessage err)) None None)) /\
  (forall p ag res w1 to channelId err,
     job_payload job = AgentTurn p ->
     agentExecutor = Some ag ->
     ag (agentParams job p) w = (Returned res, w1) ->
     agent_success res = true ->
     wantsDelivery p = true ->
     at_to p = Some to ->
     resolveChannel (at_channel p) = Some channelId ->
     Js.truthy (Some channelId) = true ->
     isChannelAvailable channelId w1 = true ->
     outcome (deliverOutboundPayloads
                (deliveryParams channelId to (agent_output res)) w1) =
       Threw err ->
     outcome (executeJob job w) = Returned (okResult (agent_output res)) /\
     last (emitted (executeJob job w)) logJob =
       logExec Error "Delivery failed").
Proof.
  split; [|split; [|split]].
  - destruct (job_payload job) as [message|p|kind] eqn:Hp.
    + rewrite (executeJob_systemEvent job message w Hp). eexists; cbn; eauto.
    + rewrite (executeJob_agentTurn job p w Hp). cbn [outcome].
      assert (Hcases : (exists ag, agentExecutor = Some ag) \/
                       agentExecutor = None)
        by (destruct agentExecutor; eauto).
      destruct Hcases as [[ag Hag]|Hag].
      * destruct (ag (agentParams job p) w) as [[res|err] w1] eqn:Hcall.
        -- destruct (agent_success res) eqn:Hok.
           ++ destruct (wantsDelivery p) eqn:Hgo.
              ** rewrite (executeAgentTurn_ok_delivery job p w ag res w1)
                   by assumption.
                 eexists; cbn; eauto.
              ** rewrite (executeAgentTurn_ok_quiet job p w ag res w1)
                   by assumption.
                 eexists; cbn; eauto.
           ++ rewrite (executeAgentTurn_failed job p w ag res w1)
                by assumption.
              eexists; cbn; eauto.
        -- rewrite (executeAgentTurn_threw job p w ag err w1) by assumption.
           eexists; cbn; eauto.
      * rewrite executeAgentTurn_skipped by assumption.
        eexists; cbn; eauto.
    + rewrite (executeJob_otherKind job kind w Hp). eexists; cbn; eauto.
  - intros kind Hp. now rewrite (executeJob_otherKind job kind w Hp).
  - intros p ag err w1 Hp Hag Hcall.
    rewrite (executeJob_agentTurn job p w Hp). cbn [outcome].
    now rewrite (executeAgentTurn_threw job p w ag err w1).
  - intros p ag res w1 to channelId err Hp Hag Hcall Hok Hgo Hto Hres Hne Hav
           Hthrew.
    rewrite (executeJob_agentTurn job p w Hp).
    rewrite (executeAgentTurn_ok_delivery job p w ag res w1) by assumption.
    cbn [outcome emitted]. split; [reflexivity|].
    pose proof Hgo as Hgo'. unfold wantsDelivery in Hgo'.
    apply andb_prop in Hgo' as [_ Hto']. rewrite Hto in Hto'.
    rewrite (deliverAgentOutput_delivers job p _ w1 to channelId)
      by assumption.
    cbn [emitted]. unfold deliveryLog. rewrite Hthrew.
    rewrite !app_comm_cons, !app_assoc. apply last_last.
Qed.

End Facts.

(** ** The spec's scenarios, on the model *)

Import Fixtures.

Definition weather : string := "The weather is sunny today!".

Definition delivering : CronJob :=
  jobWith (AgentTurn (turn (Some true) (Some "dingtalk") (Some "u1"))).

(** A job whose payload asks for delivery and names no channel. *)
Definition channelless : CronJob :=
  jobWith (AgentTurn (turn (Some true) None (Some "u1"))).

Definition asked : AgentParams :=
  mkAgentParams "weather?" (Some "cron:j1") None None.

(** Scenario S4: the agent fails, nothing is sent. *)
Lemma executeJob_agent_failure_S4 :
  createDefaultCronExecuteJob registry (executor modelUnavailable "dingtalk")
                              delivering 0 =
  mkRun (Returned (mkExec StatusError (Some "Model unavailable") None
                          (Some EmptyString)))
        0
        [EvLog Info "cron-executor" "Executing cron job";
         EvLog Info "cron-executor" "Executing agent turn";
         EvAgent asked] /\
  existsb isSend
    (emitted (createDefaultCronExecuteJob
                registry (executor modelUnavailable "dingtalk") delivering 0))
  = false.
Proof.
  destruct (executeJob_agent_failure
              (Some modelUnavailable) (Some "dingtalk")
              (Outbound.isChannelAvailable registry)
              (Outbound.deliverOutboundPayloads registry)
              delivering (turn (Some true) (Some "dingtalk") (Some "u1")) 0
              modelUnavailable
              (mkAgentResult false EmptyString (Some "Model unavailable")) 0
              eq_refl eq_refl eq_refl eq_refl)
    as (Hrun & _ & _ & Hsend).
  split; [exact Hrun|exact Hsend].
Defined.

(** C1 as stated fails: a callback that resolves with [success = false]
    and no [error] gives a result whose [error] is not the callback's. *)
Lemma executeJob_error_defaulted :
  ~ (forall (W : Type) (ag : AgentExecutor W) defaultChannel available
            deliverOutbound job p w res w1,
       job_payload job = AgentTurn p ->
       ag (agentParams job p) w = (Returned res, w1) ->
       agent_success res = false ->
       exists r,
         outcome (executeJob (Some ag) defaultChannel available
                             deliverOutbound job w) = Returned r /\
         status r = StatusError /\
         exec_error r = agent_error res /\
         outputText r = Some (agent_output res)).
Proof.
  intros Hclaim.
  destruct (Hclaim nat failsSilently (Some "dingtalk")
                   (Outbound.isChannelAvailable registry)
                   (Outbound.deliverOutboundPayloads registry)
                   delivering _ 0 (mkAgentResult false "partial" None) 0
                   eq_refl eq_refl eq_refl)
    as (r & Hr & _ & Herr & _).
  inversion Hr; subst r. discriminate Herr.
Qed.

(** The result of a successful turn when delivery throws. *)
Lemma executeJob_agent_success_delivery_threw :
  outcome (executeJob (Some sunny) (Some "dingtalk") (fun _ _ => true)
                      brokenDelivery delivering 0) =
  Returned (mkExec StatusOk None (Some weather) (Some weather)).
Proof.
  exact (proj1 (executeJob_agent_success
                  (Some sunny) (Some "dingtalk") (fun _ _ => true)
                  brokenDelivery delivering
                  (turn (Some true) (Some "dingtalk") (Some "u1")) 0 sunny
                  (mkAgentResult true weather None) 0
                  eq_refl eq_refl eq_refl eq_refl)).
Defined.

(** An agent whose output is [n] CJK characters. *)
Definition recites (n : nat) : AgentExecutor nat :=
  fun _ w => (Returned (mkAgentResult true (JsFacts.manyOf n "晴") None), w).

(** A summary is cut by code units, not by bytes: an output of 70 CJK
    characters is its own summary, and of 250 the summary has 200. *)
Example executeJob_summary_cjk :
  outcome (executeJob (Some (recites 70)) (Some "dingtalk") (fun _ _ => true)
                      brokenDelivery delivering 0) =
    Returned (mkExec StatusOk None (Some (JsFacts.manyOf 70 "晴"))
                     (Some (JsFacts.manyOf 70 "晴"))) /\
  outcome (executeJob (Some (recites 250)) (Some "dingtalk") (fun _ _ => true)
                      brokenDelivery delivering 0) =
    Returned (mkExec StatusOk None (Some (JsFacts.manyOf 200 "晴"))
                     (Some (JsFacts.manyOf 250 "晴"))).
Proof. split; vm_compute; reflexivity. Qed.

(** Scenario S3: the channel is called with the agent's output. *)
Lemma executeJob_delivery_S3 :
  createDefaultCronExecuteJob registry (executor sunny "dingtalk")
                              delivering 0 =
  mkRun (Returned (mkExec StatusOk None (Some weather) (Some weather)))
        1
        [EvLog Info "cron-executor" "Executing cron job";
         EvLog Info "cron-executor" "Executing agent turn";
         EvAgent asked;
         EvLog Info "cron-executor" "Delivering agent output";
         EvDeliver (mkOutboundParams "dingtalk" "u1" None [say weather]
                                     (Some true) None);
         EvLog Debug "outbound" "Delivering message";
         EvSend "dingtalk" (mkOutboundMessage "u1" weather None None);
         EvLog Info "outbound" "Message delivered";
         EvLog Info "cron-executor" "Delivery completed"].
Proof.
  destruct (executeJob_delivery_rule
              (Some sunny) (Some "dingtalk")
              (Outbound.isChannelAvailable registry)
              (Outbound.deliverOutboundPayloads registry)
              delivering (turn (Some true) (Some "dingtalk") (Some "u1")) 0
              sunny (mkAgentResult true weather None) 0
              eq_refl eq_refl eq_refl eq_refl)
    as (_ & _ & _ & Hdeliver).
  exact (proj2 (proj2 (proj2 (proj2
           (Hdeliver "u1" "dingtalk" eq_refl eq_refl eq_refl eq_refl
                     eq_refl))))).
Defined.

(** C6 as stated fails: a payload that names no channel is neither "last"
    nor an id of the recognised set, and yet its output is delivered, to
    the default channel. *)
Lemma executeJob_absent_channel_delivers :
  at_channel (turn (Some true) None (Some "u1")) <> Some "last" /\
  (forall c, at_channel (turn (Some true) None (Some "u1")) = Some c ->
             In c validChannels -> False) /\
  filter isDeliver
         (emitted (createDefaultCronExecuteJob
                     registry (executor sunny "dingtalk") channelless 0)) =
  [EvDeliver (mkOutboundParams "dingtalk" "u1" None [say weather]
                               (Some true) None)] /\
  existsb isSend
          (emitted (createDefaultCronExecuteJob
                      registry (executor sunny "dingtalk") channelless 0)) =
  true.
Proof.
  split; [discriminate|]. split; [discriminate|]. split; reflexivity.
Qed.

(** C9 as stated fails: the exception delivery throws is not turned into a
    result of status [error]; the result of the turn stays [ok]. *)
Lemma executeJob_delivery_exception_swallowed :
  exists err,
    outcome (brokenDelivery (deliveryParams "dingtalk" "u1" weather) 0) =
      Threw err /\
    outcome (executeJob (Some sunny) (Some "dingtalk") (fun _ _ => true)
                        brokenDelivery delivering 0) =
      Returned (mkExec StatusOk None (Some weather) (Some weather)) /\
    outcome (executeJob (Some sunny) (Some "dingtalk") (fun _ _ => true)
                        brokenDelivery delivering 0) <>
      Returned (mkExec StatusError (Some (Js.errMessage err)) None None).
Proof.
  exists (Js.ErrorObj "boom").
  split; [reflexivity|]. split; [reflexivity|discriminate].
Qed.

(** The cases of C9 on the stubs: a crashing agent, an unknown kind. *)
Lemma executeJob_total_tests :
  outcome (createDefaultCronExecuteJob registry (executor crashes "dingtalk")
                                       delivering 0) =
    Returned (mkExec StatusError (Some "socket hang up") None None) /\
  outcome (createDefaultCronExecuteJob registry (executor sunny "dingtalk")
                                       (jobWith (OtherKind "webhook")) 0) =
    Returned (mkExec StatusError (Some "Unknown payload kind: webhook")
                     None None).
Proof.
  split.
  - exact (proj1 (proj2 (proj2 (executeJob_total
                                  (Some crashes) (Some "dingtalk")
                                  (Outbound.isChannelAvailable registry)
                                  (Outbound.deliverOutboundPayloads registry)
                                  delivering 0)))
                 _ crashes (Js.ErrorObj "socket hang up") 0
                 eq_refl eq_refl eq_refl).
  - exact (proj1 (proj2 (executeJob_total
                           (Some sunny) (Some "dingtalk")
                           (Outbound.isChannelAvailable registry)
                           (Outbound.deliverOutboundPayloads registry)
                           (jobWith (OtherKind "webhook")) 0))
                 "webhook" eq_refl).
Defined.

End ExecutorFacts.

(* ===================================================================== *)
(** ** Properties of the tool facade *)
(* ===================================================================== *)

Module ToolFacts.

Import Service CronTools.

Section Facts.
Context {S : Type}.
Variable service : CronService S.
Variable dateMs : string -> option Js.Number.
Variable validateCronExpr : string -> CronValidation.
Variable formatSchedule : CronSchedule -> string.
Variable toLocaleString : Js.Number -> string.

Abbreviation buildSchedule :=
  (CronTools.buildSchedule dateMs validateCronExpr).
Abbreviation cron_add :=
  (CronTools.cron_add service dateMs validateCronExpr formatSchedule
                      toLocaleString).

Lemma buildSchedule_refusal args r :
  buildSchedule args = inl r -> isError r = true.
Proof.
  unfold CronTools.buildSchedule.
  repeat match goal with
         | |- context [match ?x with _ => _ end] => destruct x
         end;
    intros H; inversion H; reflexivity.
Qed.

Lemma ltb_of_lt (x y : Q) : (x < y)%Q -> Js.ltb x y = true.
Proof.
  intros Hlt. unfold Js.ltb.
  destruct (Qle_bool y x) eqn:Hle; [|reflexivity].
  apply Qle_bool_iff in Hle. now apply Qlt_not_le in Hlt.
Qed.

Lemma timeoutOutOfRange_spec (t : Js.Number) :
  (t < 1 \/ 600 < t)%Q -> timeoutOutOfRange (Some t) = true.
Proof.
  unfold timeoutOutOfRange, Js.gtb. intros [H|H].
  - now rewrite (ltb_of_lt _ _ H).
  - rewrite (ltb_of_lt _ _ H). apply orb_true_r.
Qed.

(** The [agentTurn] requests C7 lists as to be refused; a channel is named
    by a non-empty string, and missing means absent or empty, as in the
    tool's own tests [!channel] and [channel && ...]. *)
Definition badAgentTurn (args : CronAddArgs) : Prop :=
  (Js.truthyb (deliver args) = true /\
   (Js.truthy (channel args) = false \/ Js.truthy (to args) = false)) \/
  (exists c, channel args = Some c /\ c <> EmptyString /\
             ~ In c validChannels) \/
  (exists t, timeoutSeconds args = Some t /\ (t < 1 \/ 600 < t)%Q).

Lemma buildPayload_refusal args :
  payloadType args = Some TypeAgentTurn ->
  badAgentTurn args ->
  exists text, buildPayload args = inl (rejected text).
Proof.
  intros Hpt Hbad. unfold buildPayload. rewrite Hpt. cbn [Js.nullish].
  destruct (Js.truthyb (deliver args) &&
            (negb (Js.truthy (channel args)) || negb (Js.truthy (to args))))
    eqn:Hfirst; [now eexists|].
  destruct (Js.truthy (channel args) &&
            negb (Js.includes validChannels
                              (Js.nullish (channel args) EmptyString)))
    eqn:Hsecond; [now eexists|].
  destruct (timeoutOutOfRange (timeoutSeconds args)) eqn:Hthird;
    [now eexists|].
  exfalso. destruct Hbad as [[Hd Hmiss]|[(c & Hc & Hne & Hout)|(t & Ht & Hr)]].
  - rewrite Hd in Hfirst. destruct Hmiss as [H|H]; rewrite H in Hfirst;
      cbn in Hfirst; try discriminate.
    now rewrite orb_true_r in Hfirst.
  - rewrite Hc in Hsecond. cbn [Js.nullish] in Hsecond.
    rewrite (JsFacts.includes_not_In _ _ Hout) in Hsecond.
    destruct c; [now elim Hne|discriminate].
  - rewrite Ht, (timeoutOutOfRange_spec t Hr) in Hthird. discriminate.
Qed.

(** C7: [cron_add] refuses every [agentTurn] request that has
    [deliver = true] while [channel] or [to] is missing (or empty), or
    that names a channel outside dingtalk, feishu, qq, wecom, webchat and
    last, or whose [timeoutSeconds] is below 1 or above 600: the result has
    [isError = true] and the service is left as it was, [add] not being
    called. *)
Theorem cron_add_rejects args s :
  payloadType args = Some TypeAgentTurn ->
  badAgentTurn args ->
  exists r,
    cron_add args s = (r, s) /\ isError r = true.
Proof.
  intros Hpt Hbad. unfold CronTools.cron_add.
  destruct (buildSchedule args) as [refused|schedule] eqn:Hs.
  - exists refused. split; [reflexivity|].
    now apply (buildSchedule_refusal args).
  - destruct (buildPayload_refusal args Hpt Hbad) as [text ->].
    now exists (rejected text).
Qed.

End Facts.

Section Modelled.
Variable computeNextRunAtMs :
  CronSchedule -> option Js.Number -> Js.Number -> option Js.Number.
Variable newId : nat -> string.

Abbreviation service := (modelService computeNextRunAtMs newId).
Abbreviation cron_update := (CronTools.cron_update service).

Lemma find_map_same_id (f : CronJob -> CronJob) id :
  (forall j, job_id (f j) = job_id j) ->
  forall l,
    find (fun job => String.eqb (job_id job) id) (map f l) =
    option_map f (find (fun job => String.eqb (job_id job) id) l).
Proof.
  intros Hid. induction l as [|j l IH]; [reflexivity|].
  cbn. rewrite Hid. destruct (String.eqb (job_id j) id); auto.
Qed.

Lemma applyPatch_keeps patch now job :
  upd_schedule patch = None -> upd_payload patch = None ->
  job_id (applyPatch computeNextRunAtMs patch now job) = job_id job /\
  job_schedule (applyPatch computeNextRunAtMs patch now job) =
    job_schedule job /\
  job_payload (applyPatch computeNextRunAtMs patch now job) =
    job_payload job.
Proof.
  intros Hs Hp. unfold applyPatch. cbn. now rewrite Hs, Hp.
Qed.

(** Whatever [cron_update] is called with, the job stored under any id
    keeps its schedule and its payload. *)
Lemma cron_update_keeps args s id :
  option_map (fun j => (job_schedule j, job_payload j))
             (modelGet id (snd (cron_update args s))) =
  option_map (fun j => (job_schedule j, job_payload j)) (modelGet id s).
Proof.
  unfold CronTools.cron_update.
  destruct (noUpdates args); [reflexivity|].
  cbn [update modelService]. unfold modelUpdate.
  destruct (modelGet (jobId args) s) as [job|]; [|reflexivity].
  cbn [fst snd]. unfold modelGet. cbn [jobs].
  set (f := fun j : CronJob =>
              if String.eqb (job_id j) (jobId args)
              then applyPatch computeNextRunAtMs (updatesOf args) (nowMs s) j
              else j).
  assert (Hf : forall j, job_id (f j) = job_id j /\
                         job_schedule (f j) = job_schedule j /\
                         job_payload (f j) = job_payload j).
  { intros j. unfold f. destruct (String.eqb (job_id j) (jobId args)).
    - now apply applyPatch_keeps.
    - auto. }
  rewrite (find_map_same_id f id (fun j => proj1 (Hf j))).
  destruct (find _ (jobs s)) as [j|]; [|reflexivity].
  cbn. destruct (Hf j) as (_ & -> & ->). reflexivity.
Qed.

Definition renamed : CronUpdateArgs := mkUpdateArgs "j1" (Some "rain") None.
Definition disabled : CronUpdateArgs := mkUpdateArgs "j1" None (Some false).

(** What [update] does to a job it finds: the returned job is the stored
    one, with each of the four fields taken from the patch where the patch
    has it and kept otherwise. *)
Lemma modelGet_id id s j : modelGet id s = Some j -> job_id j = id.
Proof.
  unfold modelGet. intros H. apply find_some in H as [_ H].
  now apply String.eqb_eq.
Qed.

Lemma modelUpdate_patches id patch s j :
  modelGet id s = Some j ->
  let j' := applyPatch computeNextRunAtMs patch (nowMs s) j in
  fst (update service id patch s) = Some j' /\
  modelGet id (snd (update service id patch s)) = Some j' /\
  job_id j' = job_id j /\
  job_name j' = Js.nullish (upd_name patch) (job_name j) /\
  job_enabled j' = Js.nullish (upd_enabled patch) (job_enabled j) /\
  job_schedule j' = Js.nullish (upd_schedule patch) (job_schedule j) /\
  job_payload j' = Js.nullish (upd_payload patch) (job_payload j).
Proof.
  intros Hj j'. cbn [update modelService]. unfold modelUpdate. rewrite Hj.
  cbn [fst snd]. split; [reflexivity|]. split; [|repeat split].
  unfold modelGet in *. cbn [jobs].
  rewrite (find_map_same_id
             (fun j0 => if String.eqb (job_id j0) id
                        then applyPatch computeNextRunAtMs patch (nowMs s) j0
                        else j0) id)
    by (intros j0; now destruct (String.eqb (job_id j0) id)).
  rewrite Hj. cbn [option_map].
  now rewrite (proj2 (String.eqb_eq _ _) (modelGet_id id s j Hj)).
Qed.

Definition rescheduled : CronJobUpdate :=
  mkUpdate None None (Some (ScheduleEvery (1000 # 1)%Q)) None.
Definition repurposed : CronJobUpdate :=
  mkUpdate None None None (Some (SystemEvent "bye")).

(** C8, as the code has it.  The update operation lets a patch change the
    name, the enabled flag, the schedule and the payload of a stored job:
    the job stored afterwards has each of them from the patch where the
    patch has it, and a patch changing the schedule and one changing the
    payload exist.  Through [cron_update] only the name and the enabled
    flag can be changed, an accepted invocation doing each; the patch it
    hands to [update] never has a schedule or a payload, and no invocation
    changes the schedule or the payload of a stored job. *)
Theorem cron_update_fields :
  (forall id patch s j,
     modelGet id s = Some j ->
     exists j',
       fst (update service id patch s) = Some j' /\
       modelGet id (snd (update service id patch s)) = Some j' /\
       job_name j' = Js.nullish (upd_name patch) (job_name j) /\
       job_enabled j' = Js.nullish (upd_enabled patch) (job_enabled j) /\
       job_schedule j' = Js.nullish (upd_schedule patch) (job_schedule j) /\
       job_payload j' = Js.nullish (upd_payload patch) (job_payload j)) /\
  (exists patch s id j j',
     modelGet id s = Some j /\
     modelGet id (snd (update service id patch s)) = Some j' /\
     job_schedule j' <> job_schedule j) /\
  (exists patch s id j j',
     modelGet id s = Some j /\
     modelGet id (snd (update service id patch s)) = Some j' /\
     job_payload j' <> job_payload j) /\
  (exists args s id j j',
     modelGet id s = Some j /\
     isError (fst (cron_update args s)) = false /\
     modelGet id (snd (cron_update args s)) = Some j' /\
     job_name j' <> job_name j) /\
  (exists args s id j j',
     modelGet id s = Some j /\
     isError (fst (cron_update args s)) = false /\
     modelGet id (snd (cron_update args s)) = Some j' /\
     job_enabled j' <> job_enabled j) /\
  (forall args,
     upd_schedule (updatesOf args) = None /\
     upd_payload (updatesOf args) = None) /\
  (forall args s id,
     option_map job_schedule (modelGet id (snd (cron_update args s))) =
       option_map job_schedule (modelGet id s) /\
     option_map job_payload (modelGet id (snd (cron_update args s))) =
       option_map job_payload (modelGet id s)).
Proof.
  split; [|split; [|split; [|split; [|split; [|split]]]]].
  - intros id patch s j Hj.
    destruct (modelUpdate_patches id patch s j Hj)
      as (Hret & Hget & _ & Hn & He & Hs & Hp).
    eexists. repeat split; eassumption.
  - exists rescheduled, Fixtures.store, "j1". do 2 eexists.
    repeat split; try reflexivity. discriminate.
  - exists repurposed, Fixtures.store, "j1". do 2 eexists.
    repeat split; try reflexivity. discriminate.
  - exists renamed, Fixtures.store, "j1". do 2 eexists.
    repeat split; try reflexivity. discriminate.
  - exists disabled, Fixtures.store, "j1". do 2 eexists.
    repeat split; try reflexivity. discriminate.
  - intros args. split; reflexivity.
  - intros args s id. pose proof (cron_update_keeps args s id) as Hk.
    destruct (modelGet id (snd (cron_update args s))) as [j'|],
             (modelGet id s) as [j|]; cbn in Hk |- *;
      try discriminate; [|split; reflexivity].
    inversion Hk as [[Hs Hp]]. now rewrite Hs, Hp.
Qed.

End Modelled.

Import Fixtures.

(** C8 as stated fails for the schedule (and in the same way for the
    payload): no invocation of [cron_update] changes it. *)
Lemma cron_update_cannot_reschedule :
  ~ (exists computeNextRunAtMs newId args s id j j',
       modelGet id s = Some j /\
       isError (fst (CronTools.cron_update
                       (modelService computeNextRunAtMs newId) args s))
         = false /\
       modelGet id (snd (CronTools.cron_update
                           (modelService computeNextRunAtMs newId) args s))
         = Some j' /\
       job_schedule j' <> job_schedule j).
Proof.
  intros (calc & newId & args & s & id & j & j' & Hj & _ & Hj' & Hne).
  pose proof (cron_update_keeps calc newId args s id) as Hk.
  rewrite Hj, Hj' in Hk. cbn in Hk. inversion Hk as [[Hs Hp]].
  now apply Hne.
Qed.

(** The repository's tests "should reject invalid channel" and "should
    reject invalid timeoutSeconds", and a request with [deliver] and no
    channel: the store is left as it was. *)
Lemma cron_add_rejects_tests :
  (exists r,
     CronTools.cron_add (modelService noNextRun numbered) noDate anyCron
                        showSchedule showDate
                        (request (Some "invalid_channel") None) store =
     (r, store) /\ isError r = true) /\
  (exists r,
     CronTools.cron_add (modelService noNextRun numbered) noDate anyCron
                        showSchedule showDate
                        (request (Some "dingtalk") (Some (1000 # 1)%Q)) store =
     (r, store) /\ isError r = true) /\
  (exists r,
     CronTools.cron_add (modelService noNextRun numbered) noDate anyCron
                        showSchedule showDate
                        (request None None) store =
     (r, store) /\ isError r = true).
Proof.
  split; [|split].
  - apply (cron_add_rejects (modelService noNextRun numbered) noDate anyCron
                            showSchedule showDate
                            (request (Some "invalid_channel") None) store
                            eq_refl).
    right; left. exists "invalid_channel".
    split; [reflexivity|]. split; [discriminate|].
    cbn. intros [H|[H|[H|[H|[H|[H|[]]]]]]]; discriminate H.
  - apply (cron_add_rejects (modelService noNextRun numbered) noDate anyCron
                            showSchedule showDate
                            (request (Some "dingtalk") (Some (1000 # 1)%Q))
                            store eq_refl).
    right; right. exists (1000 # 1)%Q. split; [reflexivity|].
    right. reflexivity.
  - apply (cron_add_rejects (modelService noNextRun numbered) noDate anyCron
                            showSchedule showDate (request None None) store
                            eq_refl).
    left. split; [reflexivity|]. left. reflexivity.
Defined.

(** The repository's test "should create agentTurn job with delivery" on
    the model: an accepted request stores its job. *)
Example test_create_agentTurn_with_delivery :
  isError (fst (CronTools.cron_add (modelService noNextRun numbered) noDate
                                   anyCron showSchedule showDate
                                   (request (Some "dingtalk")
                                            (Some (120 # 1)%Q))
                                   store)) = false /\
  map job_payload
      (jobs (snd (CronTools.cron_add (modelService noNextRun numbered) noDate
                                     anyCron showSchedule showDate
                                     (request (Some "dingtalk")
                                              (Some (120 # 1)%Q))
                                     store))) =
  [SystemEvent "hello";
   AgentTurn (mkAgentTurn "test" None (Some (120 # 1)%Q) (Some true)
                          (Some "dingtalk") (Some "user123"))].
Proof. split; reflexivity. Qed.

End ToolFacts.

(* ===================================================================== *)
(** ** More of the delivery service: [parseDeliveryTarget] *)
(* ===================================================================== *)

Module Targets.

(** [s.slice(i)] *)
Definition sliceFrom (i : nat) (s : string) : string :=
  substring i (String.length s - i) s.

(** [colonIndex > 0], with [None] for the [-1] of [indexOf]. *)
Definition positive (i : option nat) : bool :=
  match i with
  | Some (S _) => true
  | _ => false
  end.

(** The first half of [parseDeliveryTarget]: the "channel:chatId" form. *)
Definition parseColonForm (target : string) : option DeliveryTarget :=
  let colonIndex := index 0 ":" target in
  if positive colonIndex
  then
    let at_ := Js.nullish colonIndex 0 in
    let channel := Js.slice0 at_ target in
    let to := sliceFrom (at_ + 1) target in
    if Js.truthy (Some channel) && Js.truthy (Some to)
    then Some (mkTarget channel to None)
    else None
  else None.

Definition parseDeliveryTarget (target : string)
           (fallbackChannel : option ChannelId) : option DeliveryTarget :=
  if negb (Js.truthy (Some target)) || String.eqb target "last"
  then None
  else
    match parseColonForm target with
    | Some parsed => Some parsed
    | None =>
        if Js.truthy fallbackChannel
        then Some (mkTarget (Js.nullish fallbackChannel EmptyString) target
                            None)
        else None
    end.

(** The serialised form of a target, "channel:to". *)
Definition serialise (t : DeliveryTarget) : string :=
  channel t ++ ":" ++ to t.

End Targets.

Module TargetFacts.

Import Targets.

Lemma prefix_empty s : prefix EmptyString s = true.
Proof. destruct s; reflexivity. Qed.

Lemma length_app a b :
  String.length (a ++ b) = String.length a + String.length b.
Proof. induction a as [|c a IH]; cbn; [reflexivity|now rewrite IH]. Qed.

Lemma substring_head a b : substring 0 (String.length a) (a ++ b) = a.
Proof.
  induction a as [|c a IH]; cbn.
  - destruct b; reflexivity.
  - now rewrite IH.
Qed.

Lemma substring_whole b : substring 0 (String.length b) b = b.
Proof. induction b as [|c b IH]; cbn; [reflexivity|now rewrite IH]. Qed.

Lemma substring_after a c b m :
  substring (S (String.length a)) m (a ++ String c b) = substring 0 m b.
Proof. induction a as [|x a IH]; cbn; [reflexivity|exact IH]. Qed.

Lemma index_char_app c a b :
  index 0 (String c EmptyString) a = None ->
  index 0 (String c EmptyString) (a ++ String c b) = Some (String.length a).
Proof.
  induction a as [|x a IH]; intros Hno.
  - cbn. destruct (ascii_dec c c) as [_|Hne]; [|now elim Hne].
    now rewrite prefix_empty.
  - cbn in Hno |- *. destruct (ascii_dec c x) as [Heq|Hne].
    + rewrite prefix_empty in Hno. discriminate.
    + destruct (index 0 (String c EmptyString) a); [discriminate|].
      now rewrite IH.
Qed.

Lemma truthy_nonempty s : s <> EmptyString -> Js.truthy (Some s) = true.
Proof. destruct s; [intros H; now elim H|reflexivity]. Qed.

Lemma truthy_inv s : Js.truthy (Some s) = true -> s <> EmptyString.
Proof. destruct s; [discriminate|discriminate]. Qed.

(** The colon form of a channel without colon and a chat id parses back. *)
Lemma parseColonForm_serialise ch to_ :
  ch <> EmptyString -> to_ <> EmptyString ->
  index 0 ":" ch = None ->
  parseColonForm (ch ++ ":" ++ to_) = Some (mkTarget ch to_ None).
Proof.
  intros Hch Hto Hno. unfold parseColonForm.
  change (ch ++ ":" ++ to_) with (ch ++ String ":" to_).
  rewrite (index_char_app ":" ch to_ Hno).
  assert (Hpos : positive (Some (String.length ch)) = true)
    by (destruct ch; [now elim Hch|reflexivity]).
  rewrite Hpos. cbn [Js.nullish]. unfold Js.slice0, sliceFrom.
  rewrite substring_head, Nat.add_1_r, substring_after, length_app.
  cbn [String.length].
  replace (String.length ch + S (String.length to_) - S (String.length ch))
    with (String.length to_) by lia.
  rewrite substring_whole.
  now rewrite (truthy_nonempty ch Hch), (truthy_nonempty to_ Hto).
Qed.

(** X1: a target whose channel is non-empty and has no colon, and whose
    chat id is non-empty (colons allowed), is read back from its serialised
    form "channel:to", whatever fallback channel is given. *)
Theorem parseDeliveryTarget_roundtrip ch to_ fallbackChannel :
  ch <> EmptyString -> to_ <> EmptyString ->
  index 0 ":" ch = None ->
  parseDeliveryTarget (serialise (mkTarget ch to_ None)) fallbackChannel =
  Some (mkTarget ch to_ None).
Proof.
  intros Hch Hto Hno. unfold parseDeliveryTarget, serialise.
  cbn [channel to].
  rewrite (parseColonForm_serialise ch to_ Hch Hto Hno).
  assert (Hne : ch ++ ":" ++ to_ <> EmptyString)
    by (destruct ch; [now elim Hch|discriminate]).
  rewrite (truthy_nonempty _ Hne). cbn [negb orb].
  destruct (String.eqb (ch ++ ":" ++ to_) "last") eqn:Hlast; [|reflexivity].
  apply String.eqb_eq in Hlast.
  pose proof (index_char_app ":" ch to_ Hno) as Hidx.
  change (ch ++ String ":" to_) with (ch ++ ":" ++ to_) in Hidx.
  rewrite Hlast in Hidx. discriminate.
Qed.

(** X2: [parseDeliveryTarget] gives nothing for the empty string and for
    "last"; a target it does give has a non-empty channel and a non-empty
    chat id and no account; without a fallback channel a string with no
    colon gives nothing; and a non-empty string other than "last" with no
    colon is the chat id of the fallback channel. *)
Theorem parseDeliveryTarget_wellformed target fallbackChannel :
  parseDeliveryTarget EmptyString fallbackChannel = None /\
  parseDeliveryTarget "last" fallbackChannel = None /\
  (forall t,
     parseDeliveryTarget target fallbackChannel = Some t ->
     channel t <> EmptyString /\ to t <> EmptyString /\ accountId t = None) /\
  (index 0 ":" target = None ->
   parseDeliveryTarget target None = None /\
   (forall fb, fb <> EmptyString -> target <> EmptyString ->
               target <> "last" ->
               parseDeliveryTarget target (Some fb) =
               Some (mkTarget fb target None))).
Proof.
  split; [reflexivity|]. split; [reflexivity|]. split.
  - intros t. unfold parseDeliveryTarget.
    destruct (Js.truthy (Some target)) eqn:Htarget; cbn [negb orb];
      [|discriminate].
    destruct (String.eqb target "last"); [discriminate|].
    unfold parseColonForm.
    destruct (positive (index 0 ":" target)).
    + destruct (Js.truthy (Some (Js.slice0 _ target))) eqn:Hc;
        cbn [andb].
      * destruct (Js.truthy (Some (sliceFrom _ target))) eqn:Ht.
        -- intros H; inversion H; subst t; cbn.
           repeat split; now apply truthy_inv.
        -- destruct fallbackChannel as [[|c fb]|]; cbn; try discriminate.
           intros H; inversion H; subst t; cbn.
           repeat split; [discriminate|now apply truthy_inv].
      * destruct fallbackChannel as [[|c fb]|]; cbn; try discriminate.
        intros H; inversion H; subst t; cbn.
        repeat split; [discriminate|now apply truthy_inv].
    + destruct fallbackChannel as [[|c fb]|]; cbn; try discriminate.
      intros H; inversion H; subst t; cbn.
      repeat split; [discriminate|now apply truthy_inv].
  - intros Hno. unfold parseDeliveryTarget, parseColonForm.
    rewrite Hno. cbn [positive]. split.
    + destruct (negb (Js.truthy (Some target)) || String.eqb target "last");
        reflexivity.
    + intros fb Hfb Htarget Hlast.
      rewrite (truthy_nonempty _ Htarget).
      apply String.eqb_neq in Hlast. rewrite Hlast. cbn [negb orb].
      now rewrite (truthy_nonempty _ Hfb).
Qed.

(** The repository's tests of [parseDeliveryTarget], the one with several
    colons through the round trip. *)
Lemma parseDeliveryTarget_roundtrip_tests :
  parseDeliveryTarget "dingtalk:group:abc:123" None =
    Some (mkTarget "dingtalk" "group:abc:123" None) /\
  parseDeliveryTarget "dingtalk:user123" (Some "feishu") =
    Some (mkTarget "dingtalk" "user123" None).
Proof.
  split.
  - apply (parseDeliveryTarget_roundtrip "dingtalk" "group:abc:123" None);
      [discriminate|discriminate|reflexivity].
  - apply (parseDeliveryTarget_roundtrip "dingtalk" "user123" (Some "feishu"));
      [discriminate|discriminate|reflexivity].
Defined.

Example test_parse_with_fallback :
  parseDeliveryTarget "user123" (Some "feishu") =
  Some (mkTarget "feishu" "user123" None).
Proof. reflexivity. Qed.

End TargetFacts.

(* ===================================================================== *)
(** ** More about the delivery service: what is sent, and what comes back *)
(* ===================================================================== *)

Module OutboundMore.

Import EffectFacts Outbound OutboundFacts.

(** [Subseq l1 l2]: [l1] is [l2] with some elements left out, the order
    kept. *)
Inductive Subseq {A : Type} : list A -> list A -> Prop :=
| Subseq_nil : Subseq [] []
| Subseq_skip : forall x l1 l2, Subseq l1 l2 -> Subseq l1 (x :: l2)
| Subseq_take : forall x l1 l2, Subseq l1 l2 -> Subseq (x :: l1) (x :: l2).

Lemma Subseq_nil_l {A : Type} (l : list A) : Subseq [] l.
Proof. induction l; constructor; assumption. Qed.

Lemma Subseq_firstn {A : Type} : forall (l : list A) n s,
  Subseq s (firstn n l) -> Subseq s l.
Proof.
  induction l as [|x l IH]; intros n s H.
  - rewrite firstn_nil in H. inversion H; subst. constructor.
  - destruct n as [|n]; cbn in H.
    + inversion H; subst. apply Subseq_nil_l.
    + inversion H; subst.
      * apply Subseq_skip. eauto.
      * apply Subseq_take. eauto.
Qed.

Lemma Subseq_length {A : Type} (l1 l2 : list A) :
  Subseq l1 l2 -> length l1 <= length l2.
Proof. induction 1; cbn; lia. Qed.

(** What a result of the delivery service looks like. *)
Definition wellFormed (target : DeliveryTarget) (r : DeliveryResult) : Prop :=
  res_channel r = channel target /\
  (success r = true -> error r = None /\ errorDetails r = None) /\
  (success r = false -> messageId r = None).

Section Facts.
Context {W : Type}.
Variable getChannel : ChannelId -> W -> option (Channel W).

Abbreviation deliverMessage := (Outbound.deliverMessage getChannel).
Abbreviation deliverMessages := (Outbound.deliverMessages getChannel).
Abbreviation attempt := (Outbound.attempt getChannel).
Abbreviation Attempted := (Outbound.Attempted getChannel).

(** The send event of one payload. *)
Definition sendOf (target : DeliveryTarget) (payload : DeliveryPayload)
  : Event W :=
  EvSend (channel target) (outboundMessage target payload).

(** The sends [deliverMessage] makes when the registry answers [found]. *)
Definition sendsFor (target : DeliveryTarget) (payload : DeliveryPayload)
           (found : option (Channel W)) : list (Event W) :=
  match found with
  | Some _ => [sendOf target payload]
  | None => []
  end.

Lemma deliverMessage_sends_run target payload options w :
  filter isSend (emitted (deliverMessage target payload options w)) =
  sendsFor target payload (getChannel (channel target) w).
Proof.
  destruct (getChannel (channel target) w) as [ch|] eqn:Hch.
  - destruct (sendMessage ch (outboundMessage target payload) w)
      as [[sr|err] w1] eqn:Hsend.
    + destruct (send_success sr) eqn:Hok.
      * now erewrite deliverMessage_sent by eassumption.
      * erewrite deliverMessage_send_failed by eassumption.
        destruct (bestEffortOr options); reflexivity.
    + erewrite deliverMessage_send_threw by eassumption.
      destruct (bestEffortOr options); reflexivity.
  - rewrite deliverMessage_miss by assumption.
    destruct (bestEffortOr options); reflexivity.
Qed.

Lemma deliverMessage_world_found target payload options w ch :
  getChannel (channel target) w = Some ch ->
  world (deliverMessage target payload options w) =
  snd (sendMessage ch (outboundMessage target payload) w).
Proof.
  intros Hch.
  destruct (sendMessage ch (outboundMessage target payload) w)
    as [[sr|err] w1] eqn:Hsend.
  - destruct (send_success sr) eqn:Hok.
    + now erewrite deliverMessage_sent by eassumption.
    + erewrite deliverMessage_send_failed by eassumption.
      destruct (bestEffortOr options); reflexivity.
  - erewrite deliverMessage_send_threw by eassumption.
    destruct (bestEffortOr options); reflexivity.
Qed.

(** X3: [deliverMessage] calls [sendMessage] exactly when the registry
    has the target's channel, once, with the target's [to] as chat id and
    the payload's text, reply id and media as they are; on a miss it
    leaves the world as it was, in either mode. *)
Theorem deliverMessage_sends target payload options w :
  filter isSend (emitted (deliverMessage target payload options w)) =
    match getChannel (channel target) w with
    | Some _ =>
        [EvSend (channel target)
                (mkOutboundMessage (to target) (text payload)
                                   (replyToId payload) (mediaUrls payload))]
    | None => []
    end /\
  (getChannel (channel target) w = None ->
   world (deliverMessage target payload options w) = w) /\
  (forall ch,
     getChannel (channel target) w = Some ch ->
     world (deliverMessage target payload options w) =
     snd (sendMessage ch (outboundMessage target payload) w)).
Proof.
  split; [apply deliverMessage_sends_run|]. split.
  - intros Hmiss. rewrite deliverMessage_miss by assumption.
    destruct (bestEffortOr options); reflexivity.
  - intros ch Hch. now apply deliverMessage_world_found.
Qed.

Lemma attempt_wellFormed target options payload w r :
  outcome (attempt target options payload w) = Returned r ->
  wellFormed target r.
Proof.
  unfold Outbound.attempt, wellFormed.
  destruct (getChannel (channel target) w) as [ch|] eqn:Hch.
  - destruct (sendMessage ch (outboundMessage target payload) w)
      as [[sr|err] w1] eqn:Hsend.
    + destruct (send_success sr) eqn:Hok.
      * erewrite deliverMessage_sent by eassumption.
        intros H; inversion H; subst r; cbn.
        repeat split; auto; discriminate.
      * erewrite deliverMessage_send_failed by eassumption.
        rewrite bestEffortOr_with.
        intros H; inversion H; subst r; cbn.
        repeat split; auto; discriminate.
    + erewrite deliverMessage_send_threw by eassumption.
      rewrite bestEffortOr_with.
      intros H; inversion H; subst r; cbn.
      repeat split; auto; discriminate.
  - rewrite deliverMessage_miss by assumption.
    rewrite bestEffortOr_with.
    intros H; inversion H; subst r; cbn.
    repeat split; auto; discriminate.
Qed.

Lemma Attempted_wellFormed target options w ps rs w' evs :
  Attempted target options w ps rs w' evs ->
  Forall (wellFormed target) rs.
Proof.
  induction 1; constructor; eauto using attempt_wellFormed.
Qed.

Lemma Attempted_sends target options w ps rs w' evs :
  Attempted target options w ps rs w' evs ->
  exists sent,
    Subseq sent ps /\ filter isSend evs = map (sendOf target) sent.
Proof.
  induction 1 as [w|w payload payloads r rs w' evs Hab Hr Hrest IH].
  - exists []. split; [constructor|reflexivity].
  - destruct IH as (sent & Hsub & Hsent).
    rewrite filter_app, Hsent. unfold Outbound.attempt.
    rewrite deliverMessage_sends_run.
    destruct (getChannel (channel target) w).
    + exists (payload :: sent). split; [now constructor|reflexivity].
    + exists sent. split; [now constructor|reflexivity].
Qed.

Lemma abortedResult_wellFormed target :
  wellFormed target (abortedResult target).
Proof. unfold wellFormed; cbn. repeat split; auto; discriminate. Qed.

(** X4: [deliverMessages] returns at most as many results as payloads;
    every result names the target's channel, a successful one carries no
    error and a failed one no message id.  The same holds of
    [deliverOutboundPayloads] for the channel it is given. *)
Theorem deliverMessages_results target payloads options w :
  (exists results,
     outcome (deliverMessages target payloads options w) = Returned results /\
     length results <= length payloads /\
     Forall (wellFormed target) results) /\
  (forall params, exists results,
     outcome (Outbound.deliverOutboundPayloads getChannel params w) =
       Returned results /\
     length results <= length (op_payloads params) /\
     Forall (fun r => res_channel r = op_channel params) results).
Proof.
  assert (Hall : forall target payloads options, exists results,
            outcome (deliverMessages target payloads options w) =
              Returned results /\
            length results <= length payloads /\
            Forall (wellFormed target) results).
  { clear. intros target payloads options. unfold Outbound.deliverMessages.
    destruct (loop_spec getChannel target options payloads [] w)
      as (n & rs & tail & Hout & Hatt & Hn & Htail & _).
    exists (rs ++ tail)%list. split; [exact Hout|].
    pose proof (Attempted_length _ _ _ _ _ _ _ _ Hatt) as Hlen.
    rewrite length_firstn, Nat.min_l in Hlen by assumption.
    pose proof (Attempted_wellFormed _ _ _ _ _ _ _ Hatt) as Hwf.
    destruct Htail as [->|(-> & Hlt & _)].
    - rewrite app_nil_r. split; [lia|assumption].
    - split; [rewrite length_app; cbn; lia|].
      apply Forall_app. split; [assumption|].
      constructor; [apply abortedResult_wellFormed|constructor]. }
  split; [apply Hall|].
  intros params. unfold Outbound.deliverOutboundPayloads.
  destruct (op_payloads params) as [|p ps] eqn:Hps.
  - exists []. split; [reflexivity|]. split; [cbn; lia|constructor].
  - destruct (Hall (mkTarget (op_channel params) (op_to params)
                             (op_accountId params))
                   (p :: ps)
                   (Some (mkOptions
                            (Some (Js.nullish (op_bestEffort params) false))
                            None (op_abortSignal params))))
      as (results & Hout & Hlen & Hwf).
    exists results. split; [exact Hout|]. split; [exact Hlen|].
    eapply Forall_impl; [|exact Hwf]. intros r (Hc & _). exact Hc.
Qed.

(** X5: the [sendMessage] calls of [deliverMessages] are those of some of
    the payloads, in the order supplied, each to the target's channel and
    chat id: no payload is sent twice or out of order, nothing else is
    sent, and there are at most as many sends as payloads. *)
Theorem deliverMessages_sends target payloads options w :
  exists sent,
    Subseq sent payloads /\
    filter isSend (emitted (deliverMessages target payloads options w)) =
      map (fun payload =>
             EvSend (channel target)
                    (mkOutboundMessage (to target) (text payload)
                                       (replyToId payload)
                                       (mediaUrls payload)))
          sent /\
    length (filter isSend
                   (emitted (deliverMessages target payloads options w)))
      <= length payloads.
Proof.
  unfold Outbound.deliverMessages.
  destruct (loop_spec getChannel target options payloads [] w)
    as (n & rs & tail & _ & Hatt & _).
  destruct (Attempted_sends _ _ _ _ _ _ _ Hatt) as (sent & Hsub & Hsent).
  apply Subseq_firstn in Hsub.
  exists sent. split; [assumption|]. split; [exact Hsent|].
  rewrite Hsent, length_map. now apply Subseq_length.
Qed.

End Facts.

End OutboundMore.

(* ===================================================================== *)
(** ** More about the executor: the calls one run makes *)
(* ===================================================================== *)

Module ExecutorMore.

Import EffectFacts Outbound OutboundFacts Executor ExecutorFacts.

Definition isAgent {W : Type} (ev : Event W) : bool :=
  match ev with EvAgent _ => true | _ => false end.

(** A call that leaves the core (anything but a log line). *)
Definition isCall {W : Type} (ev : Event W) : bool :=
  match ev with EvLog _ _ _ => false | _ => true end.

(** The events the outbound module emits: log lines and sends. *)
Definition ofOutbound {W : Type} (ev : Event W) : bool :=
  match ev with
  | EvLog _ _ _ | EvSend _ _ => true
  | _ => false
  end.

Section Facts.
Context {W : Type}.
Variable getChannel : ChannelId -> W -> option (Channel W).

Abbreviation deliverMessage := (Outbound.deliverMessage getChannel).
Abbreviation deliverMessages := (Outbound.deliverMessages getChannel).
Abbreviation deliverOutboundPayloads :=
  (Outbound.deliverOutboundPayloads getChannel).
Abbreviation attempt := (Outbound.attempt getChannel).
Abbreviation Attempted := (Outbound.Attempted getChannel).
Abbreviation linked := (createDefaultCronExecuteJob getChannel).

Lemma deliverMessage_ofOutbound target payload options w :
  forallb ofOutbound (emitted (deliverMessage target payload options w)) =
  true.
Proof.
  destruct (getChannel (channel target) w) as [ch|] eqn:Hch.
  - destruct (sendMessage ch (outboundMessage target payload) w)
      as [[sr|err] w1] eqn:Hsend.
    + destruct (send_success sr) eqn:Hok.
      * now erewrite deliverMessage_sent by eassumption.
      * erewrite deliverMessage_send_failed by eassumption.
        destruct (bestEffortOr options); reflexivity.
    + erewrite deliverMessage_send_threw by eassumption.
      destruct (bestEffortOr options); reflexivity.
  - rewrite deliverMessage_miss by assumption.
    destruct (bestEffortOr options); reflexivity.
Qed.

Lemma Attempted_ofOutbound target options w ps rs w' evs :
  Attempted target options w ps rs w' evs -> forallb ofOutbound evs = true.
Proof.
  induction 1 as [w|w payload payloads r rs w' evs Hab Hr Hrest IH];
    [reflexivity|].
  rewrite forallb_app, IH. unfold Outbound.attempt.
  now rewrite deliverMessage_ofOutbound.
Qed.

Lemma deliverOutboundPayloads_ofOutbound params w :
  forallb ofOutbound (emitted (deliverOutboundPayloads params w)) = true.
Proof.
  unfold Outbound.deliverOutboundPayloads.
  destruct (op_payloads params) as [|p ps]; [reflexivity|].
  unfold Outbound.deliverMessages.
  match goal with
  | |- context [for_of (deliverMessages_body getChannel ?t ?o) ?l [] w] =>
      destruct (loop_spec getChannel t o l [] w)
        as (n & rs & tail & _ & Hatt & _)
  end.
  exact (Attempted_ofOutbound _ _ _ _ _ _ _ Hatt).
Qed.

Lemma ofOutbound_no_agent (evs : list (Event W)) :
  forallb ofOutbound evs = true ->
  filter isAgent evs = [] /\ filter isDeliver evs = [].
Proof.
  induction evs as [|ev evs IH]; [now split|].
  cbn [forallb]. intros H. apply andb_prop in H as [Hev Hrest].
  destruct (IH Hrest) as [Ha Hd].
  destruct ev; cbn in Hev |- *; try discriminate; now split.
Qed.

(** One payload, no abort: the run of [deliverMessages] is that of the
    single attempt. *)
Lemma deliverMessages_single target options p w :
  abortRequested options w = false ->
  exists r,
    outcome (attempt target options p w) = Returned r /\
    deliverMessages target [p] options w =
    mkRun (Returned [r]) (world (attempt target options p w))
          (emitted (attempt target options p w)).
Proof.
  intros Hab. destruct (attempt_returns getChannel target options p w)
    as [r Hr].
  exists r. split; [exact Hr|]. unfold Outbound.deliverMessages.
  pose proof (body_attempt getChannel target options p [] w r Hab Hr) as Hb.
  cbn [app] in Hb.
  destruct (ctlAfter options r).
  - rewrite (for_of_continue _ _ _ _ _ [r]) by (now rewrite Hb).
    rewrite Hb. cbn. now rewrite app_nil_r.
  - rewrite (for_of_break _ _ _ _ _ [r]) by (now rewrite Hb).
    now rewrite Hb.
Qed.

(** The delivery the executor asks for, run on the outbound module. *)
Lemma executor_delivery_run channelId to out w :
  exists r,
    outcome (attempt (mkTarget channelId to None)
                     (Some (mkOptions (Some true) None None))
                     (mkPayload out None None) w) = Returned r /\
    deliverOutboundPayloads (deliveryParams channelId to out) w =
    mkRun (Returned [r])
          (world (attempt (mkTarget channelId to None)
                          (Some (mkOptions (Some true) None None))
                          (mkPayload out None None) w))
          (emitted (attempt (mkTarget channelId to None)
                            (Some (mkOptions (Some true) None None))
                            (mkPayload out None None) w)).
Proof.
  unfold Outbound.deliverOutboundPayloads, deliveryParams.
  cbn [op_payloads op_channel op_to op_accountId op_bestEffort
       op_abortSignal Js.nullish].
  apply deliverMessages_single. reflexivity.
Qed.

(** The events of the single attempt the executor's delivery makes. *)
Lemma executor_attempt_events channelId to out w :
  let evs := emitted (attempt (mkTarget channelId to None)
                              (Some (mkOptions (Some true) None None))
                              (mkPayload out None None) w) in
  filter isAgent evs = [] /\ filter isDeliver evs = [] /\
  filter isSend evs =
    match getChannel channelId w with
    | Some _ => [EvSend channelId (mkOutboundMessage to out None None)]
    | None => []
    end.
Proof.
  cbv zeta. unfold Outbound.attempt.
  destruct (ofOutbound_no_agent _ (deliverMessage_ofOutbound
                                     (mkTarget channelId to None)
                                     (mkPayload out None None)
                                     (Some (withBestEffort
                                              (Some (mkOptions (Some true)
                                                               None None))))
                                     w)) as [Ha Hd].
  split; [exact Ha|]. split; [exact Hd|].
  rewrite OutboundMore.deliverMessage_sends_run. cbn [channel].
  destruct (getChannel channelId w); reflexivity.
Qed.

Ltac quiet_run :=
  cbn; repeat split; auto; try lia; try discriminate.

(** X6: one run of the executor linked with the outbound module calls the
    agent callback at most once, [deliverOutboundPayloads] at most once and
    a channel's [sendMessage] at most once; a run that does not call the
    agent callback (a system event, another kind, no executor configured)
    makes no call at all and leaves the world as it was. *)
Theorem executeJob_call_budget options job w :
  length (filter isAgent (emitted (linked options job w))) <= 1 /\
  length (filter isDeliver (emitted (linked options job w))) <= 1 /\
  length (filter isSend (emitted (linked options job w))) <= 1 /\
  (filter isAgent (emitted (linked options job w)) = [] ->
   world (linked options job w) = w /\
   filter isCall (emitted (linked options job w)) = []).
Proof.
  unfold createDefaultCronExecuteJob.
  set (agent := match options with
                | Some o => opt_agentExecutor o
                | None => None
                end).
  set (dc := match options with
             | Some o => opt_defaultChannel o
             | None => None
             end).
  destruct (job_payload job) as [message|p|kind] eqn:Hp.
  { rewrite (executeJob_systemEvent agent dc _ _ job message w Hp).
    quiet_run. }
  2: { rewrite (executeJob_otherKind agent dc _ _ job kind w Hp).
       quiet_run. }
  rewrite (executeJob_agentTurn agent dc _ _ job p w Hp).
  cbn [outcome world emitted].
  assert (Hcases : (exists ag, agent = Some ag) \/ agent = None)
    by (destruct agent; eauto).
  destruct Hcases as [[ag Hag]|Hag].
  2: { rewrite executeAgentTurn_skipped by assumption. quiet_run. }
  destruct (ag (agentParams job p) w) as [[res|err] w1] eqn:Hcall.
  2: { rewrite (executeAgentTurn_threw agent dc _ _ job p w ag err w1)
         by assumption.
       quiet_run. }
  destruct (agent_success res) eqn:Hok.
  2: { rewrite (executeAgentTurn_failed agent dc _ _ job p w ag res w1)
         by assumption.
       quiet_run. }
  destruct (wantsDelivery p) eqn:Hgo.
  2: { rewrite (executeAgentTurn_ok_quiet agent dc _ _ job p w ag res w1)
         by assumption.
       quiet_run. }
  rewrite (executeAgentTurn_ok_delivery agent dc _ _ job p w ag res w1)
    by assumption.
  cbn [outcome world emitted].
  pose proof Hgo as Hgo'. unfold wantsDelivery in Hgo'.
  apply andb_prop in Hgo' as [_ Hto].
  destruct (Js.truthy (Executor.resolveChannel dc (at_channel p))) eqn:Hch.
  2: { rewrite deliverAgentOutput_no_channel by assumption. quiet_run. }
  destruct (Executor.resolveChannel dc (at_channel p)) as [channelId|]
    eqn:Hres; [|discriminate].
  destruct (Outbound.isChannelAvailable getChannel channelId w1) eqn:Hav.
  2: { erewrite deliverAgentOutput_unavailable by eassumption. quiet_run. }
  destruct (at_to p) as [to|] eqn:Hsome; [|discriminate].
  erewrite deliverAgentOutput_delivers by eassumption.
  destruct (executor_delivery_run channelId to (agent_output res) w1)
    as (r & Hr & Hrun).
  destruct (executor_attempt_events channelId to (agent_output res) w1)
    as (Ha & Hd & Hs).
  rewrite Hrun. unfold deliveryLog. cbn [outcome world emitted].
  cbn [app filter isAgent isDeliver isSend logExec].
  rewrite !filter_app, Ha, Hd, Hs.
  destruct (getChannel channelId w1); quiet_run.
Qed.

(** X7: in the linked executor the availability check and the lookup of
    [deliverMessage] read the same registry in the same world.  So when a
    successful turn asks for delivery on a registered channel, that
    channel's [sendMessage] is called exactly once, with [to] as chat id
    and the agent's output as content; the run ends in the world the send
    left and the result is the turn's [ok] result, whatever the send
    answered. *)
Theorem executeJob_sends_output options job w p ag res w1 to channelId ch :
  job_payload job = AgentTurn p ->
  match options with Some o => opt_agentExecutor o | None => None end =
    Some ag ->
  ag (agentParams job p) w = (Returned res, w1) ->
  agent_success res = true ->
  at_deliver p = Some true ->
  at_to p = Some to ->
  to <> EmptyString ->
  Executor.resolveChannel
    (match options with Some o => opt_defaultChannel o | None => None end)
    (at_channel p) = Some channelId ->
  channelId <> EmptyString ->
  getChannel channelId w1 = Some ch ->
  filter isSend (emitted (linked options job w)) =
    [EvSend channelId
            (mkOutboundMessage to (agent_output res) None None)] /\
  world (linked options job w) =
    snd (sendMessage ch
           (mkOutboundMessage to (agent_output res) None None) w1) /\
  outcome (linked options job w) = Returned (okResult (agent_output res)).
Proof.
  intros Hp Hag Hcall Hok Hdeliver Hto Hne Hres Hne' Hch.
  unfold createDefaultCronExecuteJob.
  set (agent := match options with
                | Some o => opt_agentExecutor o
                | None => None
                end) in *.
  set (dc := match options with
             | Some o => opt_defaultChannel o
             | None => None
             end) in *.
  assert (Htruthy : Js.truthy (Some to) = true)
    by (destruct to; [now elim Hne|reflexivity]).
  assert (Hgo : wantsDelivery p = true)
    by (unfold wantsDelivery; now rewrite Hdeliver, Hto, Htruthy).
  assert (Hid : Js.truthy (Some channelId) = true)
    by (destruct channelId; [now elim Hne'|reflexivity]).
  rewrite (executeJob_agentTurn agent dc _ _ job p w Hp).
  rewrite (executeAgentTurn_ok_delivery agent dc _ _ job p w ag res w1)
    by assumption.
  cbn [outcome world emitted].
  assert (Hav : Outbound.isChannelAvailable getChannel channelId w1 = true)
    by (unfold Outbound.isChannelAvailable; now rewrite Hch).
  erewrite deliverAgentOutput_delivers by eassumption.
  destruct (executor_delivery_run channelId to (agent_output res) w1)
    as (r & Hr & Hrun).
  destruct (executor_attempt_events channelId to (agent_output res) w1)
    as (Ha & Hd & Hs).
  rewrite Hrun. unfold deliveryLog. cbn [outcome world emitted].
  cbn [app filter isSend logExec].
  rewrite !filter_app, Hs, Hch. cbn [filter isSend app].
  split; [reflexivity|]. split; [|reflexivity].
  unfold Outbound.attempt.
  exact (OutboundMore.deliverMessage_world_found
           getChannel (mkTarget channelId to None)
           (mkPayload (agent_output res) None None)
           (Some (withBestEffort (Some (mkOptions (Some true) None None))))
           w1 ch Hch).
Qed.

End Facts.

End ExecutorMore.

(* ===================================================================== *)
(** ** Channel adapters ([src/channels/qq/index.ts],
       [src/channels/wecom/index.ts]): [sendMessage] *)
(* ===================================================================== *)

Module Adapters.

(** [s.replace(pat, "")]: the first occurrence of [pat] taken out. *)
Definition removeFirst (pat s : string) : string :=
  match index 0 pat s with
  | Some i =>
      substring 0 i s ++ Targets.sliceFrom (i + String.length pat) s
  | None => s
  end.

(** The calls of [QQApiClient] that [sendMessage] makes; what they resolve
    to is not used. *)
Record QQApiClient (W : Type) : Type := mkQQApi {
  sendGroupMessage : string -> string -> option string -> W ->
                     Outcome unit * W;
  sendDirectMessage : string -> string -> option string -> W ->
                      Outcome unit * W;
  sendDMMessage : string -> string -> option string -> W ->
                  Outcome unit * W;
  sendChannelMessage : string -> string -> option string -> W ->
                       Outcome unit * W
}.
Arguments mkQQApi {W}.
Arguments sendGroupMessage {W}.
Arguments sendDirectMessage {W}.
Arguments sendDMMessage {W}.
Arguments sendChannelMessage {W}.

Record WeComApiClient (W : Type) : Type := mkWeComApi {
  sendTextMessage : string -> string -> W -> Outcome unit * W;
  sendGroupTextMessage : string -> string -> W -> Outcome unit * W
}.
Arguments mkWeComApi {W}.
Arguments sendTextMessage {W}.
Arguments sendGroupTextMessage {W}.

Section Channels.
Context {W : Type}.

Abbreviation Eff := (M W (Event W)).

(** [QQChannel.sendMessage] *)
Definition qqSendMessage (apiClient : QQApiClient W)
           (message : OutboundMessage) : Eff SendResult :=
  try_catch
    (let chatId := chatId message in
     let content := content message in
     let replyToId := msg_replyToId message in
     (if prefix "group:" chatId
      then await (sendGroupMessage apiClient (removeFirst "group:" chatId)
                                   content replyToId)
      else if prefix "c2c:" chatId
      then await (sendDirectMessage apiClient (removeFirst "c2c:" chatId)
                                    content replyToId)
      else if prefix "dms:" chatId
      then await (sendDMMessage apiClient (removeFirst "dms:" chatId)
                                content replyToId)
      else await (sendChannelMessage apiClient chatId content replyToId)) ;;
     ret (mkSendResult true None None))
    (fun error =>
       let errorMessage := Js.errMessage error in
       emit (EvLog Error "qq" "Failed to send message") ;;
       ret (mkSendResult false None (Some errorMessage))).

(** [WeComChannel.sendMessage] *)
Definition wecomSendMessage (apiClient : WeComApiClient W)
           (message : OutboundMessage) : Eff SendResult :=
  try_catch
    (let chatId := chatId message in
     let content := content message in
     (if prefix "direct:" chatId
      then await (sendTextMessage apiClient (removeFirst "direct:" chatId)
                                  content)
      else await (sendGroupTextMessage apiClient chatId content)) ;;
     ret (mkSendResult true None None))
    (fun error =>
       let errorMessage := Js.errMessage error in
       emit (EvLog Error "wecom" "Failed to send message") ;;
       ret (mkSendResult false None (Some errorMessage))).

(** An adapter as the registry hands it out: what [sendMessage] resolves
    to and the world it leaves. *)
Definition asChannel (send : OutboundMessage -> Eff SendResult) : Channel W :=
  mkChannel (fun message w => (outcome (send message w),
                               world (send message w))).

Definition QQChannel (apiClient : QQApiClient W) : Channel W :=
  asChannel (qqSendMessage apiClient).

Definition WeComChannel (apiClient : WeComApiClient W) : Channel W :=
  asChannel (wecomSendMessage apiClient).

(** What [sendMessage] answers for an API call that resolved or threw. *)
Definition answerTo (call : Outcome unit * W) : SendResult :=
  match fst call with
  | Returned _ => mkSendResult true None None
  | Threw error => mkSendResult false None (Some (Js.errMessage error))
  end.

End Channels.

End Adapters.

Module AdapterFacts.

Import EffectFacts Adapters TargetFacts.

Lemma prefix_app pat rest : prefix pat (pat ++ rest) = true.
Proof.
  induction pat as [|c pat IH]; cbn; [apply prefix_empty|].
  destruct (ascii_dec c c) as [_|Hne]; [exact IH|now elim Hne].
Qed.

Lemma substring_skip a m b :
  substring (String.length a) m (a ++ b) = substring 0 m b.
Proof. induction a as [|x a IH]; cbn; [reflexivity|exact IH]. Qed.

(** Taking a non-empty prefix out of a string that starts with it leaves
    the rest. *)
Lemma removeFirst_prefix pat rest :
  pat <> EmptyString -> removeFirst pat (pat ++ rest) = rest.
Proof.
  intros Hne. unfold removeFirst.
  assert (Hidx : index 0 pat (pat ++ rest) = Some 0).
  { pose proof (prefix_app pat rest) as Hp.
    destruct pat as [|c pat]; [now elim Hne|].
    cbn [append index] in *. now rewrite Hp. }
  rewrite Hidx. unfold Targets.sliceFrom. cbn [Nat.add].
  replace (substring 0 0 (pat ++ rest)) with EmptyString
    by (destruct (pat ++ rest); reflexivity).
  cbn [append]. rewrite substring_skip, length_app.
  replace (String.length pat + String.length rest - String.length pat)
    with (String.length rest) by lia.
  apply substring_whole.
Qed.

Section Facts.
Context {W : Type}.

Lemma settle_run (call : W -> Outcome unit * W) logger w
      (handler := fun error : Js.Thrown =>
                    emit (EvLog (W := W) Error logger
                                "Failed to send message") ;;
                    ret (mkSendResult false None
                                      (Some (Js.errMessage error)))) :
  outcome (try_catch (await call ;; ret (mkSendResult true None None))
                     handler w) = Returned (answerTo (call w)) /\
  world (try_catch (await call ;; ret (mkSendResult true None None))
                   handler w) = snd (call w).
Proof.
  unfold handler, answerTo, try_catch, bind, await, emit, ret. cbn.
  destruct (call w) as [[u|error] w1]; cbn; split; reflexivity.
Qed.

(** An answer of the two adapters: success with nothing else, or failure
    with an error text; never a message id. *)
Definition settled (sr : SendResult) : Prop :=
  send_messageId sr = None /\
  (send_success sr = true /\ send_error sr = None \/
   send_success sr = false /\ exists e, send_error sr = Some e).

Lemma answerTo_settled (call : Outcome unit * W) : settled (answerTo call).
Proof.
  unfold settled, answerTo. destruct (fst call); cbn;
    (split; [reflexivity|]); [left|right]; eauto.
Qed.

Lemma qqSendMessage_settles_aux (apiClient : QQApiClient W) message w :
  exists call : Outcome unit * W,
    outcome (qqSendMessage apiClient message w) = Returned (answerTo call).
Proof.
  unfold qqSendMessage. cbv zeta.
  destruct (prefix "group:" (chatId message));
    [|destruct (prefix "c2c:" (chatId message));
      [|destruct (prefix "dms:" (chatId message))]];
    match goal with
    | |- context [await ?c] =>
        exists (c w); exact (proj1 (settle_run c "qq" w))
    end.
Qed.

Lemma wecomSendMessage_settles_aux (apiClient : WeComApiClient W) message w :
  exists call : Outcome unit * W,
    outcome (wecomSendMessage apiClient message w) =
    Returned (answerTo call).
Proof.
  unfold wecomSendMessage. cbv zeta.
  destruct (prefix "direct:" (chatId message));
    match goal with
    | |- context [await ?c] =>
        exists (c w); exact (proj1 (settle_run c "wecom" w))
    end.
Qed.


(** X9: [QQChannel.sendMessage] routes on the prefix of the chat id:
    "group:", "c2c:" and "dms:" go to the group, direct and DM calls with
    the prefix taken off, and any other chat id goes to the channel call
    unchanged; the content and the reply id are passed on, the media
    never. *)
Theorem qqSendMessage_routes (apiClient : QQApiClient W) id body replyToId
        media w :
  (outcome (qqSendMessage apiClient
              (mkOutboundMessage ("group:" ++ id) body replyToId media) w) =
     Returned (answerTo (sendGroupMessage apiClient id body replyToId w)) /\
   world (qqSendMessage apiClient
            (mkOutboundMessage ("group:" ++ id) body replyToId media) w) =
     snd (sendGroupMessage apiClient id body replyToId w)) /\
  (outcome (qqSendMessage apiClient
              (mkOutboundMessage ("c2c:" ++ id) body replyToId media) w) =
     Returned (answerTo (sendDirectMessage apiClient id body replyToId w)) /\
   world (qqSendMessage apiClient
            (mkOutboundMessage ("c2c:" ++ id) body replyToId media) w) =
     snd (sendDirectMessage apiClient id body replyToId w)) /\
  (outcome (qqSendMessage apiClient
              (mkOutboundMessage ("dms:" ++ id) body replyToId media) w) =
     Returned (answerTo (sendDMMessage apiClient id body replyToId w)) /\
   world (qqSendMessage apiClient
            (mkOutboundMessage ("dms:" ++ id) body replyToId media) w) =
     snd (sendDMMessage apiClient id body replyToId w)) /\
  (prefix "group:" id = false -> prefix "c2c:" id = false ->
   prefix "dms:" id = false ->
   outcome (qqSendMessage apiClient
              (mkOutboundMessage id body replyToId media) w) =
     Returned (answerTo (sendChannelMessage apiClient id body replyToId
                                            w)) /\
   world (qqSendMessage apiClient
            (mkOutboundMessage id body replyToId media) w) =
     snd (sendChannelMessage apiClient id body replyToId w)).
Proof.
  split; [|split; [|split]].
  - unfold qqSendMessage. cbv zeta. cbn [chatId content msg_replyToId].
    rewrite (prefix_app "group:" id).
    rewrite (removeFirst_prefix "group:" id) by discriminate.
    apply settle_run.
  - unfold qqSendMessage. cbv zeta. cbn [chatId content msg_replyToId].
    replace (prefix "group:" ("c2c:" ++ id)) with false by reflexivity.
    rewrite (prefix_app "c2c:" id).
    rewrite (removeFirst_prefix "c2c:" id) by discriminate.
    apply settle_run.
  - unfold qqSendMessage. cbv zeta. cbn [chatId content msg_replyToId].
    replace (prefix "group:" ("dms:" ++ id)) with false by reflexivity.
    replace (prefix "c2c:" ("dms:" ++ id)) with false by reflexivity.
    rewrite (prefix_app "dms:" id).
    rewrite (removeFirst_prefix "dms:" id) by discriminate.
    apply settle_run.
  - intros Hg Hc Hd. unfold qqSendMessage. cbv zeta.
    cbn [chatId content msg_replyToId]. rewrite Hg, Hc, Hd.
    apply settle_run.
Qed.

(** X10: [WeComChannel.sendMessage] never throws and never gives a message
    id; a chat id "direct:<user>" goes to the text call for <user>, any
    other chat id to the group call unchanged; the reply id and the media
    are not passed on. *)
Theorem wecomSendMessage_routes (apiClient : WeComApiClient W) id body
        replyToId media w :
  (exists call : Outcome unit * W,
     outcome (wecomSendMessage apiClient
                (mkOutboundMessage id body replyToId media) w) =
       Returned (answerTo call) /\
     settled (answerTo call)) /\
  (outcome (wecomSendMessage apiClient
              (mkOutboundMessage ("direct:" ++ id) body replyToId media)
              w) =
     Returned (answerTo (sendTextMessage apiClient id body w)) /\
   world (wecomSendMessage apiClient
            (mkOutboundMessage ("direct:" ++ id) body replyToId media)
            w) =
     snd (sendTextMessage apiClient id body w)) /\
  (prefix "direct:" id = false ->
   outcome (wecomSendMessage apiClient
              (mkOutboundMessage id body replyToId media) w) =
     Returned (answerTo (sendGroupTextMessage apiClient id body w)) /\
   world (wecomSendMessage apiClient
            (mkOutboundMessage id body replyToId media) w) =
     snd (sendGroupTextMessage apiClient id body w)).
Proof.
  split; [|split].
  - unfold wecomSendMessage. cbv zeta. cbn [chatId content].
    destruct (prefix "direct:" id);
      match goal with
      | |- context [await ?c] =>
          exists (c w); destruct (settle_run c "wecom" w) as [Ho Hw];
          split; [exact Ho|apply answerTo_settled]
      end.
  - unfold wecomSendMessage. cbv zeta. cbn [chatId content].
    rewrite (prefix_app "direct:" id).
    rewrite (removeFirst_prefix "direct:" id) by discriminate.
    apply settle_run.
  - intros Hd. unfold wecomSendMessage. cbv zeta. cbn [chatId content].
    rewrite Hd. apply settle_run.
Qed.

(** What [deliverMessage] gives through an adapter whose [sendMessage] is
    [send]: the adapter answers, without message id, and [deliverMessage]
    ends in the world the adapter left; on the answer [success = true] it
    returns the successful result, and on [success = false] the answer has
    an error text, which is the error [deliverMessage] returns in
    best-effort mode and the message of the [Error] it throws otherwise. *)
Definition carriesAnswer (getChannel : ChannelId -> W -> option (Channel W))
           (send : OutboundMessage -> M W (Event W) SendResult)
           (target : DeliveryTarget) (payload : DeliveryPayload)
           (options : option (DeliveryOptions W)) (w : W) : Prop :=
  exists answer,
    outcome (send (Outbound.outboundMessage target payload) w) =
      Returned answer /\
    send_messageId answer = None /\
    world (Outbound.deliverMessage getChannel target payload options w) =
      world (send (Outbound.outboundMessage target payload) w) /\
    (send_success answer = true /\
     outcome (Outbound.deliverMessage getChannel target payload options w) =
       Returned (mkResult true (channel target) None None None) \/
     send_success answer = false /\
     exists e,
       send_error answer = Some e /\
       outcome (Outbound.deliverMessage getChannel target payload options w) =
         if Outbound.bestEffortOr options
         then Returned (mkResult false (channel target) None (Some e) None)
         else Threw (Js.ErrorObj e)).

Lemma deliverMessage_settled getChannel target payload options w
      (send : OutboundMessage -> M W (Event W) SendResult)
      (call : Outcome unit * W) :
  getChannel (channel target) w = Some (asChannel send) ->
  outcome (send (Outbound.outboundMessage target payload) w) =
    Returned (answerTo call) ->
  carriesAnswer getChannel send target payload options w.
Proof.
  intros Hch Hout. unfold carriesAnswer. exists (answerTo call).
  assert (Hsend : sendMessage (asChannel send)
                              (Outbound.outboundMessage target payload) w =
                  (Returned (answerTo call),
                   world (send (Outbound.outboundMessage target payload) w)))
    by (cbn; now rewrite Hout).
  split; [exact Hout|].
  destruct (answerTo_settled call) as (Hid & [[Hok _]|[Hok [e He]]]);
    (split; [exact Hid|]).
  - rewrite (OutboundFacts.deliverMessage_sent
               getChannel target payload options w _ _ _ Hch Hsend Hok).
    cbn [outcome world]. split; [reflexivity|]. left.
    split; [exact Hok|]. now rewrite Hid.
  - rewrite (OutboundFacts.deliverMessage_send_failed
               getChannel target payload options w _ _ _ Hch Hsend Hok).
    split; [now destruct (Outbound.bestEffortOr options)|]. right.
    split; [exact Hok|]. exists e. split; [exact He|].
    rewrite He. now destruct (Outbound.bestEffortOr options).
Qed.

(** X11: through the QQ or the WeCom adapter [deliverMessage] either
    returns the successful result, without message id, or fails with the
    error text the adapter answered: returned as the failed result's error
    in best-effort mode, thrown as an [Error] otherwise.  A failed answer of
    these adapters always has its error text, so the "Unknown error"
    default is never taken, and [errorDetails] is never set. *)
Theorem deliverMessage_via_adapters getChannel target payload options w :
  (forall apiClient,
     getChannel (channel target) w = Some (QQChannel apiClient) ->
     carriesAnswer getChannel (qqSendMessage apiClient) target payload
                   options w) /\
  (forall apiClient,
     getChannel (channel target) w = Some (WeComChannel apiClient) ->
     carriesAnswer getChannel (wecomSendMessage apiClient) target payload
                   options w).
Proof.
  split; intros apiClient Hch.
  - destruct (qqSendMessage_settles_aux apiClient
                (Outbound.outboundMessage target payload) w)
      as (call & Hout).
    exact (deliverMessage_settled getChannel target payload options w
             (qqSendMessage apiClient) call Hch Hout).
  - destruct (wecomSendMessage_settles_aux apiClient
                (Outbound.outboundMessage target payload) w)
      as (call & Hout).
    exact (deliverMessage_settled getChannel target payload options w
             (wecomSendMessage apiClient) call Hch Hout).
Qed.

End Facts.

End AdapterFacts.

(* ===================================================================== *)
(** ** More about [cron_add]: what an accepted request stores *)
(* ===================================================================== *)

Module ToolsMore.

Import Service CronTools ToolFacts.

Lemma leb_false_lt (x y : Js.Number) : Js.leb x y = false -> (y < x)%Q.
Proof.
  unfold Js.leb. intros H. apply Qnot_le_lt. intros Hle.
  apply Qle_bool_iff in Hle. congruence.
Qed.

Lemma ltb_false_le (x y : Js.Number) : Js.ltb x y = false -> (y <= x)%Q.
Proof.
  unfold Js.ltb. intros H. apply Qle_bool_iff.
  destruct (Qle_bool y x); [reflexivity|discriminate].
Qed.

Lemma lt_leb_false (x y : Js.Number) : (y < x)%Q -> Js.leb x y = false.
Proof.
  unfold Js.leb. intros Hlt. destruct (Qle_bool x y) eqn:H; [|reflexivity].
  apply Qle_bool_iff in H. now apply Qlt_not_le in Hlt.
Qed.

Lemma positive_truthy (x : Js.Number) : (0 < x)%Q -> Js.truthyn (Some x) = true.
Proof.
  intros Hlt. cbn. destruct (Qeq_bool x 0) eqn:H; [|reflexivity].
  apply Qeq_bool_iff in H. rewrite H in Hlt. now apply Qlt_irrefl in Hlt.
Qed.

Lemma unitMap_positive unit : (0 < unitMap unit)%Q.
Proof. destruct unit; reflexivity. Qed.

(** What [cron_add] has checked of a schedule it accepts. *)
Definition checkedSchedule (dateMs : string -> option Js.Number)
           (validateCronExpr : string -> CronValidation)
           (args : CronAddArgs) (schedule : CronSchedule) : Prop :=
  match schedule with
  | ScheduleAt atMs =>
      scheduleType args = TypeAt /\
      exists t, atTime args = Some t /\ t <> EmptyString /\
                dateMs t = Some atMs
  | ScheduleEvery ms =>
      scheduleType args = TypeEvery /\ (0 < ms)%Q
  | ScheduleCron expr tz =>
      scheduleType args = TypeCron /\ cronExpr args = Some expr /\
      expr <> EmptyString /\ valid (validateCronExpr expr) = true /\
      tz = cronTz args
  end.

(** What [cron_add] has checked of a payload it accepts. *)
Definition checkedPayload (args : CronAddArgs) (payload : CronPayload)
  : Prop :=
  match Js.nullish (payloadType args) TypeSystemEvent with
  | TypeSystemEvent => payload = SystemEvent (message args)
  | TypeAgentTurn =>
      payload = AgentTurn (mkAgentTurn (message args) (model args)
                                       (timeoutSeconds args) (deliver args)
                                       (channel args) (to args)) /\
      (Js.truthyb (deliver args) = true ->
       Js.truthy (channel args) = true /\ Js.truthy (to args) = true) /\
      (forall c, channel args = Some c -> c <> EmptyString ->
                 In c validChannels) /\
      (forall t, timeoutSeconds args = Some t -> (1 <= t <= 600)%Q)
  end.

Section Facts.
Context {S : Type}.
Variable service : CronService S.
Variable dateMs : string -> option Js.Number.
Variable validateCronExpr : string -> CronValidation.
Variable formatSchedule : CronSchedule -> string.
Variable toLocaleString : Js.Number -> string.

Abbreviation buildSchedule :=
  (CronTools.buildSchedule dateMs validateCronExpr).
Abbreviation cron_add :=
  (CronTools.cron_add service dateMs validateCronExpr formatSchedule
                      toLocaleString).

(** X12: a schedule [cron_add] accepts has been checked: an [at] schedule
    carries the parsed time of a non-empty [atTime]; an [every] schedule
    has a strictly positive interval; a [cron] schedule carries the
    non-empty expression the validator accepted, with the time zone
    given. *)
Theorem buildSchedule_checked args schedule :
  buildSchedule args = inr schedule ->
  checkedSchedule dateMs validateCronExpr args schedule.
Proof.
  unfold CronTools.buildSchedule, checkedSchedule.
  destruct (scheduleType args).
  - destruct (atTime args) as [[|c t]|]; try discriminate.
    destruct (dateMs (String c t)) as [atMs|] eqn:Hd; try discriminate.
    intros H; inversion H; subst schedule.
    split; [reflexivity|]. exists (String c t).
    repeat split; [discriminate|exact Hd].
  - match goal with
    | |- match ?i with _ => _ end = _ -> _ => destruct i as [ms|] eqn:Hi
    end; try discriminate.
    destruct (negb (Js.truthyn (Some ms)) || Js.leb ms 0%Q) eqn:Hbad;
      try discriminate.
    intros H; inversion H; subst schedule.
    split; [reflexivity|].
    apply orb_false_elim in Hbad as [_ Hle]. now apply leb_false_lt.
  - destruct (cronExpr args) as [[|c e]|]; try discriminate.
    destruct (valid (validateCronExpr (String c e))) eqn:Hv;
      cbn [negb]; try discriminate.
    intros H; inversion H; subst schedule.
    repeat split; [discriminate|exact Hv].
Qed.

(** X13: the [every] shorthand: with no (or a zero) [everyMs], a unit and
    a positive whole value give the interval value times 1 000, 60 000,
    3 600 000 or 86 400 000, as long as that product is at most 2^53 - 1
    (the code multiplies doubles, which is exact on these); a positive
    [everyMs] is taken as it is, whatever unit and value come with it. *)
Theorem buildSchedule_every args :
  scheduleType args = TypeEvery ->
  (forall unit value,
     Js.truthyn (everyMs args) = false ->
     everyUnit args = Some unit ->
     everyValue args = Some value ->
     (0 < value)%Q ->
     Js.isSafeInteger value = true ->
     Js.isSafeInteger (value * unitMap unit)%Q = true ->
     buildSchedule args = inr (ScheduleEvery (value * unitMap unit)%Q)) /\
  (forall ms,
     everyMs args = Some ms ->
     (0 < ms)%Q ->
     buildSchedule args = inr (ScheduleEvery ms)).
Proof.
  intros Hty. unfold CronTools.buildSchedule. rewrite Hty. split.
  - intros unit value Hnone Hunit Hvalue Hpos _ _.
    rewrite Hunit, Hvalue, Hnone. cbn [negb andb].
    rewrite (positive_truthy value Hpos).
    assert (Hprod : (0 < value * unitMap unit)%Q)
      by (apply Qmult_lt_0_compat; [assumption|apply unitMap_positive]).
    assert (Ht : Js.truthyn (Some (value * unitMap unit)%Q) = true)
      by exact (positive_truthy _ Hprod).
    rewrite Ht, (lt_leb_false _ _ Hprod).
    reflexivity.
  - intros ms Hms Hpos.
    assert (Hint : match everyUnit args, everyValue args with
                   | Some unit, Some value =>
                       if negb (Js.truthyn (everyMs args)) &&
                          Js.truthyn (everyValue args)
                       then Some (value * unitMap unit)%Q
                       else everyMs args
                   | _, _ => everyMs args
                   end = Some ms).
    { rewrite Hms, (positive_truthy ms Hpos). cbn [negb andb].
      destruct (everyUnit args), (everyValue args); reflexivity. }
    rewrite Hint.
    now rewrite (positive_truthy ms Hpos), (lt_leb_false _ _ Hpos).
Qed.

Lemma buildPayload_refused args r :
  buildPayload args = inl r -> isError r = true.
Proof.
  unfold buildPayload.
  repeat match goal with
         | |- context [match ?x with _ => _ end] => destruct x
         end;
    intros H; inversion H; reflexivity.
Qed.

(** X14: a payload [cron_add] accepts has been checked.  For an agentTurn
    request it carries the request's fields as they are; with [deliver]
    true, [channel] and [to] are present and non-empty; a non-empty
    channel is one of dingtalk, feishu, qq, wecom, webchat and last; a
    timeout lies between 1 and 600.  For any other request it is the
    system event of the message, the agentTurn fields being neither
    checked nor kept. *)
Theorem buildPayload_checked args payload :
  buildPayload args = inr payload -> checkedPayload args payload.
Proof.
  unfold buildPayload, checkedPayload.
  destruct (Js.nullish (payloadType args) TypeSystemEvent).
  - intros H; now inversion H.
  - destruct (Js.truthyb (deliver args) &&
              (negb (Js.truthy (channel args)) ||
               negb (Js.truthy (to args)))) eqn:Hfirst; [discriminate|].
    destruct (Js.truthy (channel args) &&
              negb (Js.includes validChannels
                                (Js.nullish (channel args) EmptyString)))
      eqn:Hsecond; [discriminate|].
    destruct (timeoutOutOfRange (timeoutSeconds args)) eqn:Hthird;
      [discriminate|].
    intros H; inversion H. split; [reflexivity|]. split; [|split].
    + intros Hd. rewrite Hd in Hfirst. cbn [andb] in Hfirst.
      apply orb_false_elim in Hfirst as [Hc Ht].
      split; [now destruct (Js.truthy (channel args))
             |now destruct (Js.truthy (to args))].
    + intros c Hc Hne. rewrite Hc in Hsecond. cbn [Js.nullish] in Hsecond.
      destruct c as [|a c]; [now elim Hne|]. cbn [Js.truthy andb] in Hsecond.
      apply JsFacts.includes_In.
      now destruct (Js.includes validChannels (String a c)).
    + intros t Ht. rewrite Ht in Hthird. cbn [timeoutOutOfRange] in Hthird.
      apply orb_false_elim in Hthird as [Hlo Hhi].
      split; [now apply ltb_false_le|].
      unfold Js.gtb in Hhi. now apply ltb_false_le.
Qed.

(** X15: [cron_add] is all or nothing: either the result is an error and
    the service is left as it was, or the result is no error and the
    service is what one call of [add] made of it, for the request's name
    and the schedule and payload built from the request. *)
Theorem cron_add_all_or_nothing args s :
  (isError (fst (cron_add args s)) = true /\ snd (cron_add args s) = s) \/
  (isError (fst (cron_add args s)) = false /\
   exists schedule payload,
     buildSchedule args = inr schedule /\
     buildPayload args = inr payload /\
     snd (cron_add args s) =
     snd (add service (mkCreate (name args) schedule payload None) s)).
Proof.
  unfold CronTools.cron_add.
  destruct (buildSchedule args) as [refused|schedule] eqn:Hs.
  - left. split; [now apply (buildSchedule_refusal dateMs validateCronExpr
                               args)|reflexivity].
  - destruct (buildPayload args) as [refused|payload] eqn:Hp.
    + left. split; [now apply (buildPayload_refused args)|reflexivity].
    + right. split; [reflexivity|]. now exists schedule, payload.
Qed.

End Facts.

End ToolsMore.

(* ===================================================================== *)
(** ** How the parts fit: sends in order, and stored jobs at run time *)
(* ===================================================================== *)

Module Composition.

Import EffectFacts Outbound OutboundFacts.

Section Sends.
Context {W : Type}.
Variable getChannel : ChannelId -> W -> option (Channel W).

Abbreviation deliverMessages := (Outbound.deliverMessages getChannel).
Abbreviation Attempted := (Outbound.Attempted getChannel).

Lemma Attempted_sends_all target options w ps rs w' evs :
  (forall w0, getChannel (channel target) w0 <> None) ->
  Attempted target options w ps rs w' evs ->
  filter isSend evs = map (OutboundMore.sendOf target) ps.
Proof.
  intros Hreg. induction 1 as [w|w payload payloads r rs w' evs Hab Hr Hrest IH];
    [reflexivity|].
  rewrite filter_app, IH. unfold Outbound.attempt.
  rewrite OutboundMore.deliverMessage_sends_run.
  destruct (getChannel (channel target) w) eqn:Hch; [reflexivity|].
  now elim (Hreg w).
Qed.

(** X16: while the target's channel stays registered, [deliverMessages]
    sends a prefix of the payload list, one [sendMessage] call per payload
    in the order supplied, skipping none; in best-effort mode with a
    signal that never fires the prefix is the whole list. *)
Theorem deliverMessages_sends_prefix target payloads options w :
  (forall w0, getChannel (channel target) w0 <> None) ->
  exists n,
    n <= length payloads /\
    filter isSend (emitted (deliverMessages target payloads options w)) =
      map (fun payload =>
             EvSend (channel target)
                    (mkOutboundMessage (to target) (text payload)
                                       (replyToId payload)
                                       (mediaUrls payload)))
          (firstn n payloads) /\
    (optBestEffort options = true ->
     (forall w0, abortRequested options w0 = false) ->
     n = length payloads).
Proof.
  intros Hreg. unfold Outbound.deliverMessages.
  destruct (loop_spec getChannel target options payloads [] w)
    as (n & rs & tail & _ & Hatt & Hn & Htail & _ & _ & Hall).
  exists n. split; [exact Hn|]. split.
  - exact (Attempted_sends_all _ _ _ _ _ _ _ Hreg Hatt).
  - intros Hbe Hnever. apply Hall; [|exact Hbe].
    destruct Htail as [->|(_ & _ & Hfired & _)]; [reflexivity|].
    rewrite Hnever in Hfired. discriminate.
Qed.

End Sends.

End Composition.

Module StoredJobs.

Import Executor ExecutorFacts Service CronTools.

(** X17: a payload [cron_add] accepted with [deliver] true passes the
    executor's checks at run time: the executor goes on to delivery, and
    the channel resolves to itself, or, for "last", to the configured
    default channel.  Such a job is skipped as "Invalid or unavailable
    channel" only when its channel is "last" and no default is
    configured. *)
Theorem accepted_payload_resolves args p defaultChannel :
  buildPayload args = inr (AgentTurn p) ->
  Js.truthyb (deliver args) = true ->
  wantsDelivery p = true /\
  (at_channel p = Some "last" /\
   Executor.resolveChannel defaultChannel (at_channel p) = defaultChannel \/
   at_channel p <> Some "last" /\
   Executor.resolveChannel defaultChannel (at_channel p) = at_channel p /\
   Js.truthy (Executor.resolveChannel defaultChannel (at_channel p)) = true).
Proof.
  unfold buildPayload.
  destruct (Js.nullish (payloadType args) TypeSystemEvent);
    [intros H; inversion H|].
  destruct (Js.truthyb (deliver args) &&
            (negb (Js.truthy (channel args)) ||
             negb (Js.truthy (to args)))) eqn:Hfirst; [discriminate|].
  destruct (Js.truthy (channel args) &&
            negb (Js.includes CronTools.validChannels
                              (Js.nullish (channel args) EmptyString)))
    eqn:Hsecond; [discriminate|].
  destruct (timeoutOutOfRange (timeoutSeconds args)); [discriminate|].
  intros H Hd. inversion H; subst p. clear H.
  rewrite Hd in Hfirst. cbn [andb] in Hfirst.
  apply orb_false_elim in Hfirst as [Hc Ht].
  apply negb_false_iff in Hc, Ht.
  unfold wantsDelivery. cbn [at_deliver at_to at_channel].
  rewrite Hd, Ht. split; [reflexivity|].
  rewrite Hc in Hsecond. cbn [andb] in Hsecond.
  apply negb_false_iff in Hsecond.
  destruct (channel args) as [c|]; [|discriminate].
  cbn [Js.nullish] in Hsecond.
  apply JsFacts.includes_In in Hsecond. cbn in Hsecond.
  destruct Hsecond as [<-|[<-|[<-|[<-|[<-|[<-|[]]]]]]];
    try (right; split; [discriminate|split; reflexivity]).
  left. split; reflexivity.
Qed.

End StoredJobs.

(* ===================================================================== *)
(** ** The stubs again: instances of the properties above *)
(* ===================================================================== *)

Module MoreExamples.

Import Fixtures.

(** Scenario S3 read as a statement about sends. *)
Lemma executeJob_sends_output_S3 :
  filter isSend
         (emitted (Executor.createDefaultCronExecuteJob
                     registry (executor Fixtures.sunny "dingtalk")
                     ExecutorFacts.delivering 0)) =
    [EvSend "dingtalk"
            (mkOutboundMessage "u1" ExecutorFacts.weather None None)] /\
  world (Executor.createDefaultCronExecuteJob
           registry (executor Fixtures.sunny "dingtalk")
           ExecutorFacts.delivering 0) = 1.
Proof.
  destruct (ExecutorMore.executeJob_sends_output
              registry (executor sunny "dingtalk") ExecutorFacts.delivering 0
              (turn (Some true) (Some "dingtalk") (Some "u1")) sunny
              (Executor.mkAgentResult true ExecutorFacts.weather None) 0
              "u1" "dingtalk" (accepting "m-42")
              eq_refl eq_refl eq_refl eq_refl eq_refl eq_refl
              ltac:(discriminate) eq_refl ltac:(discriminate) eq_refl)
    as (Hsends & Hworld & _).
  split; [exact Hsends|exact Hworld].
Defined.

(** Five minutes, as in the repository's tests of [cron_add]. *)
Lemma buildSchedule_checked_five_minutes :
  ToolsMore.checkedSchedule noDate anyCron (request (Some "dingtalk") None)
                            (ScheduleEvery (300000 # 1)%Q).
Proof.
  apply (ToolsMore.buildSchedule_checked
           noDate anyCron (request (Some "dingtalk") None)
           (ScheduleEvery (300000 # 1)%Q)).
  reflexivity.
Defined.

Lemma buildSchedule_every_five_minutes :
  CronTools.buildSchedule noDate anyCron (request (Some "dingtalk") None) =
  inr (ScheduleEvery ((5 # 1) * CronTools.unitMap CronTools.Minutes)%Q).
Proof.
  apply (proj1 (ToolsMore.buildSchedule_every
                  noDate anyCron (request (Some "dingtalk") None) eq_refl)
               CronTools.Minutes (5 # 1)%Q);
    reflexivity.
Defined.

Lemma buildPayload_checked_dingtalk :
  ToolsMore.checkedPayload
    (request (Some "dingtalk") (Some (120 # 1)%Q))
    (AgentTurn (mkAgentTurn "test" None (Some (120 # 1)%Q) (Some true)
                            (Some "dingtalk") (Some "user123"))).
Proof.
  apply (ToolsMore.buildPayload_checked
           (request (Some "dingtalk") (Some (120 # 1)%Q))).
  reflexivity.
Defined.

(** Best effort on the channel that fails once: all three are sent. *)
Lemma deliverMessages_sends_prefix_flaky :
  exists n,
    n <= 3 /\
    filter isSend
           (emitted (Outbound.deliverMessages
                       registry (toUser "wecom") OutboundFacts.three
                       (options true None) 0)) =
      map (fun payload =>
             EvSend "wecom"
                    (mkOutboundMessage "u1" (text payload)
                                       (replyToId payload)
                                       (mediaUrls payload)))
          (firstn n OutboundFacts.three) /\
    (Outbound.optBestEffort (options true None) = true ->
     (forall w0, Outbound.abortRequested (options true None) w0 = false) ->
     n = 3).
Proof.
  apply (Composition.deliverMessages_sends_prefix
           registry (toUser "wecom") OutboundFacts.three (options true None)
           0).
  intros w0. cbn. discriminate.
Defined.

Lemma accepted_payload_resolves_dingtalk :
  ExecutorFacts.wantsDelivery
    (mkAgentTurn "test" None None (Some true) (Some "dingtalk")
                 (Some "user123")) = true /\
  (Some "dingtalk" = Some "last" /\
   Executor.resolveChannel None (Some "dingtalk") = None \/
   Some "dingtalk" <> Some "last" /\
   Executor.resolveChannel None (Some "dingtalk") = Some "dingtalk" /\
   Js.truthy (Executor.resolveChannel None (Some "dingtalk")) = true).
Proof.
  apply (StoredJobs.accepted_payload_resolves
           (request (Some "dingtalk") None)
           (mkAgentTurn "test" None None (Some true) (Some "dingtalk")
                        (Some "user123"))
           None);
    reflexivity.
Defined.

(** A QQ client whose group call is refused. *)
Definition limited : Adapters.QQApiClient nat :=
  Adapters.mkQQApi
    (fun _ _ _ n => (Threw (Js.ErrorObj "rate limited"), S n))
    (fun _ _ _ n => (Returned tt, S n))
    (fun _ _ _ n => (Returned tt, S n))
    (fun _ _ _ n => (Returned tt, S n)).

Definition qqOnly (id : ChannelId) (_ : nat) : option (Channel nat) :=
  if String.eqb id "qq" then Some (Adapters.QQChannel limited) else None.

(** Through the QQ adapter the text of what the API call threw is the
    error of the failed result, or the message of the error thrown. *)
Example deliverMessage_via_qq :
  outcome (Outbound.deliverMessage qqOnly (mkTarget "qq" "group:g1" None)
                                   (say "hi") (options true None) 0) =
    Returned (mkResult false "qq" None (Some "rate limited") None) /\
  outcome (Outbound.deliverMessage qqOnly (mkTarget "qq" "group:g1" None)
                                   (say "hi") (options false None) 0) =
    Threw (Js.ErrorObj "rate limited") /\
  outcome (Outbound.deliverMessage qqOnly (mkTarget "qq" "c2c:u1" None)
                                   (say "hi") (options false None) 0) =
    Returned (mkResult true "qq" None None None).
Proof. repeat split; reflexivity. Qed.

End MoreExamples.
